(** * SyncroSpace: administrative meeting actions, WebRTC mesh signaling,
      call-join fallback and avatar movement

    A shallow embedding of the TypeScript sources:
    - the two administrative services, classes [AdminMeetingControlService]
      and [AdminMeetingClientSimpleService],
    - [lib/webrtc-mesh.ts] (class [WebRTCMeshManager]),
    - [lib/webrtc-simple] (class [SimpleWebRTCManager]),
    - the [VirtualSpace] component ([startOrJoinCall], [isPositionValid],
      [handleKeyDown], [handleLeave], the list of live participants),
    - the meeting page (phases of a meeting, who may join),
    - the [AdminMeetingControls] panel.

    Firestore collections and JavaScript [Map]s are finite maps keyed by
    strings; browser objects with identity (peer connections, media streams)
    live in a heap and are referred to by index. *)

From stdpp Require Import gmap strings list fin_maps pretty.

#[global] Set Warnings "-clear-no-such-hyp".

Open Scope string_scope.
Open Scope list_scope.

(** ** JavaScript values used by the code *)

Module JS.

(** A value that is either a string or [undefined]. *)
Abbreviation jsstring := (option string).

(** Truthiness of a string-or-undefined value, as tested by [if (spaceId)]
    and [spaceId ? a : b]: [undefined] and the empty string are falsy. *)
Definition truthy (v : jsstring) : option string :=
  match v with
  | Some s => if decide (s = "") then None else Some s
  | None => None
  end.

(** [[...new Set(l)]]: the distinct elements of [l], each at the place of its
    first occurrence. *)
Fixpoint uniq (l : list string) : list string :=
  match l with
  | [] => []
  | x :: l' => x :: filter (λ y, y ≠ x) (uniq l')
  end.

(** [arrayUnion(x)] applied to an array field: [x] is appended unless the
    array already holds an equal element. *)
Definition arrayUnion {A} `{EqDecision A} (x : A) (l : list A) : list A :=
  if decide (x ∈ l) then l else l ++ [x].

End JS.

(** ** The document database as the administrative services use it *)

Module Firestore.
Import JS.

(** An entry of a user's [pendingSpaces] array.  [ps_spaceId] is the value
    of [p?.spaceId]: [None] when the entry is null or carries no space id. *)
Record PendingSpace := mkPendingSpace {
  ps_spaceId : jsstring;
  ps_label : string
}.

(** A document of the [users] collection.  An absent array field and an
    empty array are both the empty list ([userData.pendingSpaces || []]). *)
Record UserDoc := mkUserDoc {
  u_email : jsstring;
  u_role : string;
  u_pendingSpaces : list PendingSpace;
  u_hiddenMeetings : list string;
  u_lastUpdated : option nat
}.

Inductive ActionKind := end_meeting | delete_meeting | remove_attendee.

(** A timestamp in data handed to the database: a time, or the sentinel
    [serverTimestamp()], which stands for the clock of the server. *)
Inductive Timestamp := serverTimestamp | timestamp (t : nat).

Record AdminMeetingAction := mkAdminMeetingAction {
  action : ActionKind;
  a_meetingId : string;
  a_adminId : string;
  a_adminName : string;
  a_timestamp : Timestamp;
  a_affectedUsers : list string;
  a_reason : jsstring
}.

(** A document of the [meetings] collection. *)
Record MeetingDoc := mkMeetingDoc {
  m_spaceId : jsstring;
  m_attendees : list string;
  m_creatorId : string;
  m_status : string;
  m_endedBy : jsstring;
  m_endedAt : option nat;
  m_lastUpdated : option nat;
  m_adminActions : list AdminMeetingAction
}.

(** A document of the [spaces] collection. *)
Record SpaceDoc := mkSpaceDoc {
  s_activeMeeting : bool;
  s_meetingEndsAt : jsstring;
  s_lastActivity : string;
  s_endedBy : jsstring;
  s_endedAt : option nat;
  s_members : list string
}.

Record Db := mkDb {
  meetings : gmap string MeetingDoc;
  spaces : gmap string SpaceDoc;
  users : gmap string UserDoc
}.

#[global] Instance PendingSpace_eq_dec : EqDecision PendingSpace.
Proof. solve_decision. Defined.
#[global] Instance ActionKind_eq_dec : EqDecision ActionKind.
Proof. solve_decision. Defined.
#[global] Instance Timestamp_eq_dec : EqDecision Timestamp.
Proof. solve_decision. Defined.
#[global] Instance AdminMeetingAction_eq_dec : EqDecision AdminMeetingAction.
Proof. solve_decision. Defined.

(** The calls made to the database, each named by the document or query it
    addresses. *)
Inductive Op :=
| GetMeeting (id : string)
| GetUser (id : string)
| GetUserByEmail (email : string)
| UpdateMeeting (id : string)
| UpdateSpace (id : string)
| UpdateUser (id : string)
| DeleteMeeting (id : string)
| DeleteSpace (id : string).

#[global] Instance Op_eq_dec : EqDecision Op.
Proof. solve_decision. Defined.

(** The state threaded through a service call: the database and the log of
    the calls attempted so far, oldest first. *)
Record St := mkSt {
  db : Db;
  log : list Op
}.

(** The outcome of an awaited call: a value, or a raised error. *)
Inductive Res (A : Type) :=
| Ok (a : A)
| Throw.
Arguments Ok {A} a.
Arguments Throw {A}.

Definition M (A : Type) : Type := St → Res A * St.

Definition ret {A} (a : A) : M A := λ s, (Ok a, s).

Definition bind {A B} (m : M A) (k : A → M B) : M B :=
  λ s, match m s with
       | (Ok a, s') => k a s'
       | (Throw, s') => (Throw, s')
       end.

(** [try { body } catch (error) { handler }] *)
Definition try_catch {A} (body : M A) (handler : M A) : M A :=
  λ s, match body s with
       | (Ok a, s') => (Ok a, s')
       | (Throw, s') => handler s'
       end.

Declare Scope fs_scope.
Delimit Scope fs_scope with fs.
Notation "'let!' x ':=' m 'in' k" := (bind m (λ x, k))
  (at level 10, x name, m at level 100, k at level 200) : fs_scope.
Notation "'await!' m 'in' k" := (bind m (λ _, k))
  (at level 10, m at level 100, k at level 200) : fs_scope.

Definition set_meetings (f : gmap string MeetingDoc → gmap string MeetingDoc) (d : Db) : Db :=
  mkDb (f (meetings d)) (spaces d) (users d).
Definition set_spaces (f : gmap string SpaceDoc → gmap string SpaceDoc) (d : Db) : Db :=
  mkDb (meetings d) (f (spaces d)) (users d).
Definition set_users (f : gmap string UserDoc → gmap string UserDoc) (d : Db) : Db :=
  mkDb (meetings d) (spaces d) (f (users d)).

(** The first document, in document-id order, of a query result. *)
Definition firstById {A} (l : list (string * A)) : option (string * A) :=
  foldr (λ kv acc,
           match acc with
           | None => Some kv
           | Some kv' => if String.leb kv.1 kv'.1 then Some kv else Some kv'
           end) None l.

Section Calls.

(** Which calls fail (network error, permission denied, invalid argument):
    decided by the environment. *)
Variable fails : Op → bool.

Definition call {A} (op : Op) (run : Db → Res A * Db) : M A :=
  λ s, let s1 := mkSt (db s) (log s ++ [op]) in
       if fails op then (Throw, s1)
       else let '(r, d) := run (db s) in (r, mkSt d (log s1)).

(** [getDocs(query(collection(db, c), where('__name__', '==', id)))]
    followed by [snapshot.empty] / [snapshot.docs[0].data()]. *)
Definition getMeeting (id : string) : M (option MeetingDoc) :=
  call (GetMeeting id) (λ d, (Ok (meetings d !! id), d)).

Definition getUser (id : string) : M (option UserDoc) :=
  call (GetUser id) (λ d, (Ok (users d !! id), d)).

(** [getDocs(query(collection(db, 'users'), where('email', '==', email)))]
    followed by [snapshot.docs[0]]: its id and data. *)
Definition getUserByEmail (email : string) : M (option (string * UserDoc)) :=
  call (GetUserByEmail email)
    (λ d, (Ok (firstById (filter (λ kv, u_email kv.2 = Some email)
                                 (map_to_list (users d)))), d)).

(** [updateDoc(ref, fields)]: raises when the document does not exist. *)
Definition updateMeeting (id : string) (f : MeetingDoc → MeetingDoc) : M unit :=
  call (UpdateMeeting id)
    (λ d, match meetings d !! id with
          | Some m => (Ok tt, set_meetings <[id := f m]> d)
          | None => (Throw, d)
          end).

(** Whether the database client accepts [element] as an element of
    [arrayUnion(...)]: it reads the elements when [updateDoc] is called, and
    refuses a sentinel inside one. *)
Definition sentinelFree (element : AdminMeetingAction) : bool :=
  match a_timestamp element with
  | serverTimestamp => false
  | timestamp _ => true
  end.

(** [updateDoc(meetingRef, { ...fields, adminActions: arrayUnion(element) })]:
    when the element is refused the call raises and nothing is written;
    otherwise the fields are written and the element is added to the array
    unless the array holds it already. *)
Definition updateMeetingUnion (id : string) (fields : MeetingDoc → MeetingDoc)
    (element : AdminMeetingAction) : M unit :=
  if sentinelFree element
  then updateMeeting id (λ m,
         let m' := fields m in
         mkMeetingDoc (m_spaceId m') (m_attendees m') (m_creatorId m')
           (m_status m') (m_endedBy m') (m_endedAt m') (m_lastUpdated m')
           (arrayUnion element (m_adminActions m)))
  else λ s, (Throw, mkSt (db s) (log s ++ [UpdateMeeting id])).

Definition updateSpace (id : string) (f : SpaceDoc → SpaceDoc) : M unit :=
  call (UpdateSpace id)
    (λ d, match spaces d !! id with
          | Some sp => (Ok tt, set_spaces <[id := f sp]> d)
          | None => (Throw, d)
          end).

Definition updateUser (id : string) (f : UserDoc → UserDoc) : M unit :=
  call (UpdateUser id)
    (λ d, match users d !! id with
          | Some u => (Ok tt, set_users <[id := f u]> d)
          | None => (Throw, d)
          end).

(** [deleteDoc(ref)]: succeeds whether or not the document exists. *)
Definition deleteMeeting (id : string) : M unit :=
  call (DeleteMeeting id) (λ d, (Ok tt, set_meetings (delete id) d)).

Definition deleteSpace (id : string) : M unit :=
  call (DeleteSpace id) (λ d, (Ok tt, set_spaces (delete id) d)).

(** What every administrative action returns. *)
Record AdminMeetingResponse := mkResponse {
  success : bool;
  message : string;
  affectedUsers : option (list string)
}.

(** The server clock ([serverTimestamp()]) at the time of the call. *)
Variable now : nat.

Open Scope fs_scope.

(** The fields written to a user record to take a meeting off the user's
    dashboard, computed from the data [userData] that was read:
<<
  const updatedPendingSpaces = currentPendingSpaces.filter((p) => p?.spaceId !== spaceId);
  const updatedHiddenMeetings = spaceId ? [...currentHiddenMeetings, spaceId] : currentHiddenMeetings;
  updateDoc(userRef, { pendingSpaces, hiddenMeetings, lastUpdated: serverTimestamp() })
>> *)
Definition dashboardFields (spaceId : jsstring) (userData : UserDoc) (u : UserDoc) : UserDoc :=
  mkUserDoc (u_email u) (u_role u)
    (filter (λ p, ps_spaceId p ≠ spaceId) (u_pendingSpaces userData))
    (match truthy spaceId with
     | Some sid => u_hiddenMeetings userData ++ [sid]
     | None => u_hiddenMeetings userData
     end)
    (Some now).

(** The body of [for (const userId of uniqueUserIds)]: the inner
    [try]/[catch] around the read of the user record, the update and
    [affectedUsers.push(userId)]. *)
Definition removeFromDashboard (spaceId : jsstring) (userId : string)
    (affected : list string) : M (list string) :=
  try_catch
    (let! userSnapshot := getUser userId in
     match userSnapshot with
     | Some userData =>
         await! updateUser userId (dashboardFields spaceId userData) in
         ret (affected ++ [userId])
     | None => ret affected
     end)
    (ret affected).

Fixpoint forEachUser (spaceId : jsstring) (uniqueUserIds : list string)
    (affected : list string) : M (list string) :=
  match uniqueUserIds with
  | [] => ret affected
  | userId :: rest =>
      let! affected' := removeFromDashboard spaceId userId affected in
      forEachUser spaceId rest affected'
  end.

(** The outer [try { body } catch (error) { return failure; }] of a service
    method: the method itself never raises. *)
Definition catching {A} (body : M A) (failure : A) (s : St) : A * St :=
  match body s with
  | (Ok r, s') => (r, s')
  | (Throw, s') => (failure, s')
  end.

End Calls.

End Firestore.

(** ** [AdminMeetingControlService] *)

Module AdminMeetingControlService.
Import JS Firestore.

Section Service.

Variable fails : Op → bool.

(** The server clock ([serverTimestamp()]) and the client clock
    ([new Date().toISOString()]) at the time of the call. *)
Variable now : nat.
Variable nowIso : string.

Open Scope fs_scope.

Definition endMeetingForAllUsers (meetingId adminId adminName : string)
    (reason : jsstring) : St → AdminMeetingResponse * St :=
  catching
    (let! meetingSnapshot := getMeeting fails meetingId in
     match meetingSnapshot with
     | None => ret (mkResponse false "Meeting not found" (Some []))
     | Some meetingData =>
         let spaceId := m_spaceId meetingData in
         let attendees := m_attendees meetingData in
         let creatorId := m_creatorId meetingData in
         await! updateMeetingUnion fails meetingId
                  (λ m, mkMeetingDoc (m_spaceId m) (m_attendees m) (m_creatorId m)
                          "ended" (Some adminId) (Some now) (Some now)
                          (m_adminActions m))
                  (mkAdminMeetingAction end_meeting meetingId adminId adminName
                     serverTimestamp attendees reason) in
         await! match truthy spaceId with
                | Some sid =>
                    updateSpace fails sid (λ sp,
                      mkSpaceDoc false None nowIso (Some adminId) (Some now) [])
                | None => ret tt
                end in
         let allUserIds := attendees ++ [creatorId] in
         let uniqueUserIds := uniq allUserIds in
         let! affectedUsers := forEachUser fails now spaceId uniqueUserIds [] in
         ret (mkResponse true
                ("Meeting ended successfully. Removed from "
                   +:+ pretty (length affectedUsers) +:+ " users' dashboards.")
                (Some affectedUsers))
     end)
    (mkResponse false "Failed to end meeting" (Some [])).

Definition deleteMeetingCompletely (meetingId adminId adminName : string)
    (reason : jsstring) : St → AdminMeetingResponse * St :=
  catching
    (let! meetingSnapshot := getMeeting fails meetingId in
     match meetingSnapshot with
     | None => ret (mkResponse false "Meeting not found" (Some []))
     | Some meetingData =>
         let spaceId := m_spaceId meetingData in
         let attendees := m_attendees meetingData in
         let creatorId := m_creatorId meetingData in
         let allUserIds := attendees ++ [creatorId] in
         let uniqueUserIds := uniq allUserIds in
         let! affectedUsers := forEachUser fails now spaceId uniqueUserIds [] in
         await! deleteMeeting fails meetingId in
         await! match truthy spaceId with
                | Some sid => deleteSpace fails sid
                | None => ret tt
                end in
         ret (mkResponse true
                ("Meeting deleted completely. Removed from "
                   +:+ pretty (length affectedUsers) +:+ " users' dashboards.")
                (Some affectedUsers))
     end)
    (mkResponse false "Failed to delete meeting" (Some [])).

(** The fields [removeAttendeeFromMeeting] writes to the meeting record
    beside the audit entry: the attendees without the removed one and the
    time of the update. *)
Definition withoutAttendee (attendee : string) (attendees : list string)
    (m : MeetingDoc) : MeetingDoc :=
  mkMeetingDoc (m_spaceId m)
    (filter (λ email, email ≠ attendee) attendees)
    (m_creatorId m) (m_status m) (m_endedBy m) (m_endedAt m) (Some now)
    (m_adminActions m).

Definition removeAttendeeFromMeeting (meetingId attendeeId adminId adminName : string)
    (reason : jsstring) : St → AdminMeetingResponse * St :=
  catching
    (let! meetingSnapshot := getMeeting fails meetingId in
     match meetingSnapshot with
     | None => ret (mkResponse false "Meeting not found" None)
     | Some meetingData =>
         let spaceId := m_spaceId meetingData in
         let attendees := m_attendees meetingData in
         await! updateMeetingUnion fails meetingId
                  (withoutAttendee attendeeId attendees)
                  (mkAdminMeetingAction remove_attendee meetingId adminId adminName
                     serverTimestamp [attendeeId] reason) in
         let! userSnapshot := getUser fails attendeeId in
         await! match userSnapshot with
                | Some userData =>
                    updateUser fails attendeeId (dashboardFields now spaceId userData)
                | None => ret tt
                end in
         ret (mkResponse true "Attendee removed from meeting successfully." None)
     end)
    (mkResponse false "Failed to remove attendee from meeting" None).

End Service.

End AdminMeetingControlService.

(** ** [AdminMeetingClientSimpleService]

    Ending and deleting a meeting are the same statements as in
    [AdminMeetingControlService]; removing an attendee looks the user up by
    e-mail address instead of by document id. *)

Module AdminMeetingClientSimpleService.
Import JS Firestore.

Section Service.

Variable fails : Op → bool.
Variable now : nat.
Variable nowIso : string.

Open Scope fs_scope.

Definition endMeetingForAllUsers (meetingId adminId adminName : string)
    (reason : jsstring) : St → AdminMeetingResponse * St :=
  catching
    (let! meetingSnapshot := getMeeting fails meetingId in
     match meetingSnapshot with
     | None => ret (mkResponse false "Meeting not found" (Some []))
     | Some meetingData =>
         let spaceId := m_spaceId meetingData in
         let attendees := m_attendees meetingData in
         let creatorId := m_creatorId meetingData in
         await! updateMeetingUnion fails meetingId
                  (λ m, mkMeetingDoc (m_spaceId m) (m_attendees m) (m_creatorId m)
                          "ended" (Some adminId) (Some now) (Some now)
                          (m_adminActions m))
                  (mkAdminMeetingAction end_meeting meetingId adminId adminName
                     serverTimestamp attendees reason) in
         await! match truthy spaceId with
                | Some sid =>
                    updateSpace fails sid (λ sp,
                      mkSpaceDoc false None nowIso (Some adminId) (Some now) [])
                | None => ret tt
                end in
         let allUserIds := attendees ++ [creatorId] in
         let uniqueUserIds := uniq allUserIds in
         let! affectedUsers := forEachUser fails now spaceId uniqueUserIds [] in
         ret (mkResponse true
                ("Meeting ended successfully. Removed from "
                   +:+ pretty (length affectedUsers) +:+ " users' dashboards.")
                (Some affectedUsers))
     end)
    (mkResponse false "Failed to end meeting" (Some [])).

Definition deleteMeetingCompletely (meetingId adminId adminName : string)
    (reason : jsstring) : St → AdminMeetingResponse * St :=
  catching
    (let! meetingSnapshot := getMeeting fails meetingId in
     match meetingSnapshot with
     | None => ret (mkResponse false "Meeting not found" (Some []))
     | Some meetingData =>
         let spaceId := m_spaceId meetingData in
         let attendees := m_attendees meetingData in
         let creatorId := m_creatorId meetingData in
         let allUserIds := attendees ++ [creatorId] in
         let uniqueUserIds := uniq allUserIds in
         let! affectedUsers := forEachUser fails now spaceId uniqueUserIds [] in
         await! deleteMeeting fails meetingId in
         await! match truthy spaceId with
                | Some sid => deleteSpace fails sid
                | None => ret tt
                end in
         ret (mkResponse true
                ("Meeting deleted completely. Removed from "
                   +:+ pretty (length affectedUsers) +:+ " users' dashboards.")
                (Some affectedUsers))
     end)
    (mkResponse false "Failed to delete meeting" (Some [])).

Definition removeAttendeeFromMeeting (meetingId attendeeEmail adminId adminName : string)
    (reason : jsstring) : St → AdminMeetingResponse * St :=
  catching
    (let! meetingSnapshot := getMeeting fails meetingId in
     match meetingSnapshot with
     | None => ret (mkResponse false "Meeting not found" None)
     | Some meetingData =>
         let spaceId := m_spaceId meetingData in
         let attendees := m_attendees meetingData in
         await! updateMeetingUnion fails meetingId
                  (AdminMeetingControlService.withoutAttendee now
                     attendeeEmail attendees)
                  (mkAdminMeetingAction remove_attendee meetingId adminId adminName
                     serverTimestamp [attendeeEmail] reason) in
         let! userSnapshot := getUserByEmail fails attendeeEmail in
         await! match userSnapshot with
                | Some (docId, userData) =>
                    updateUser fails docId (dashboardFields now spaceId userData)
                | None => ret tt
                end in
         ret (mkResponse true "Attendee removed from meeting successfully." None)
     end)
    (mkResponse false "Failed to remove attendee from meeting" None).

End Service.

End AdminMeetingClientSimpleService.

(** ** [WebRTCMeshManager] and its room *)

Module Mesh.
Import JS.

Definition SDP := string.
Definition Candidate := string.
Definition Track := string.
Definition MediaStream := list Track.

(** The calls made on a peer connection, oldest first; [addIceCandidate]
    carries whether it went through. *)
Inductive PCCall :=
| CallAddTrack (t : Track)
| CallSetLocalDescription (offer : SDP)
| CallSetRemoteDescription (answer : SDP)
| CallAddIceCandidate (c : Candidate) (ok : bool)
| CallClose.

(** An [RTCPeerConnection] created by [handleParticipantJoined], with what
    its event handlers captured: the participant id and the remote stream. *)
Record RTCPeerConnection := mkPC {
  pc_participantId : string;
  pc_remoteStream : nat;
  pc_closed : bool;
  localDescription : option SDP;
  currentRemoteDescription : option SDP;
  iceCandidates : list Candidate;
  connectionState : string;
  pc_calls : list PCCall
}.

(** [interface ParticipantConnection]; [peerConnection] and [remoteStream]
    are references into the heaps of the session, [localStream] is the
    manager's own stream, shared by all connections. *)
Record ParticipantConnection := mkConnection {
  participantId : string;
  peerConnection : nat;
  remoteStream : nat;
  isConnected : bool;
  isInitiator : bool
}.

(** Documents of the room's sub-collections. *)
Record ParticipantDoc := mkParticipantDoc {
  p_userId : string;
  p_joinedAt : option nat;
  p_isOnline : bool;
  p_leftAt : option nat
}.

Record OfferDoc := mkOfferDoc {
  o_from : string;
  o_to : string;
  o_offer : SDP;
  o_createdAt : nat
}.

Record AnswerDoc := mkAnswerDoc {
  an_from : string;
  an_to : string;
  an_answer : SDP;
  an_createdAt : nat
}.

Record CandidateDoc := mkCandidateDoc {
  c_from : string;
  c_to : string;
  c_candidate : Candidate;
  c_createdAt : nat
}.

(** The listener [initialize] registers on the participants collection:
    [this.unsubscribe] is [null] until then, and cancelled by [leave]. *)
Inductive Listener := NotRegistered | Active | Cancelled.

(** A snapshot listener registered by [listenForAnswer(participantId)];
    its own [unsubscribe()] clears [al_active]. *)
Record AnswerListener := mkAnswerListener {
  al_participantId : string;
  al_active : bool
}.

(** A callback of a [listenForAnswer] listener that has called
    [setRemoteDescription(answer)] and waits for it ([await]): the listener,
    the peer connection the call was made on, and the answer. *)
Record PendingAnswer := mkPendingAnswer {
  pa_listener : nat;
  pa_peerConnection : nat;
  pa_answer : SDP
}.

(** One manager instance together with the browser objects it created, the
    snapshot listeners it registered, the callbacks that wait for the
    browser, and the room's collections. *)
Record Session := mkSession {
  (* fields of the class *)
  currentUserId : string;
  localStream : MediaStream;
  connections : gmap string ParticipantConnection;
  participants : gmap string ParticipantDoc;
  unsubscribe : Listener;
  (* browser objects *)
  pcs : list RTCPeerConnection;
  streams : list MediaStream;
  (* listeners registered by listenForAnswer and listenForIceCandidates *)
  answerListeners : list AnswerListener;
  candidateListeners : list string;
  (* callbacks of the answer listeners waiting for setRemoteDescription *)
  pendingAnswers : list PendingAnswer;
  (* the room in the database *)
  room_participants : gmap string ParticipantDoc;
  room_offers : gmap string OfferDoc;
  room_candidates : gmap string CandidateDoc
}.

Definition set_connections (f : gmap string ParticipantConnection → gmap string ParticipantConnection) (s : Session) : Session :=
  mkSession (currentUserId s) (localStream s) (f (connections s)) (participants s)
    (unsubscribe s) (pcs s) (streams s) (answerListeners s) (candidateListeners s)
    (pendingAnswers s) (room_participants s) (room_offers s) (room_candidates s).

Definition set_participants (f : gmap string ParticipantDoc → gmap string ParticipantDoc) (s : Session) : Session :=
  mkSession (currentUserId s) (localStream s) (connections s) (f (participants s))
    (unsubscribe s) (pcs s) (streams s) (answerListeners s) (candidateListeners s)
    (pendingAnswers s) (room_participants s) (room_offers s) (room_candidates s).

Definition set_unsubscribe (l : Listener) (s : Session) : Session :=
  mkSession (currentUserId s) (localStream s) (connections s) (participants s)
    l (pcs s) (streams s) (answerListeners s) (candidateListeners s)
    (pendingAnswers s) (room_participants s) (room_offers s) (room_candidates s).

Definition set_pcs (f : list RTCPeerConnection → list RTCPeerConnection) (s : Session) : Session :=
  mkSession (currentUserId s) (localStream s) (connections s) (participants s)
    (unsubscribe s) (f (pcs s)) (streams s) (answerListeners s) (candidateListeners s)
    (pendingAnswers s) (room_participants s) (room_offers s) (room_candidates s).

Definition set_streams (f : list MediaStream → list MediaStream) (s : Session) : Session :=
  mkSession (currentUserId s) (localStream s) (connections s) (participants s)
    (unsubscribe s) (pcs s) (f (streams s)) (answerListeners s) (candidateListeners s)
    (pendingAnswers s) (room_participants s) (room_offers s) (room_candidates s).

Definition set_answerListeners (f : list AnswerListener → list AnswerListener) (s : Session) : Session :=
  mkSession (currentUserId s) (localStream s) (connections s) (participants s)
    (unsubscribe s) (pcs s) (streams s) (f (answerListeners s)) (candidateListeners s)
    (pendingAnswers s) (room_participants s) (room_offers s) (room_candidates s).

Definition set_candidateListeners (f : list string → list string) (s : Session) : Session :=
  mkSession (currentUserId s) (localStream s) (connections s) (participants s)
    (unsubscribe s) (pcs s) (streams s) (answerListeners s) (f (candidateListeners s))
    (pendingAnswers s) (room_participants s) (room_offers s) (room_candidates s).

Definition set_pendingAnswers (f : list PendingAnswer → list PendingAnswer) (s : Session) : Session :=
  mkSession (currentUserId s) (localStream s) (connections s) (participants s)
    (unsubscribe s) (pcs s) (streams s) (answerListeners s) (candidateListeners s)
    (f (pendingAnswers s)) (room_participants s) (room_offers s) (room_candidates s).

Definition set_room_participants (f : gmap string ParticipantDoc → gmap string ParticipantDoc) (s : Session) : Session :=
  mkSession (currentUserId s) (localStream s) (connections s) (participants s)
    (unsubscribe s) (pcs s) (streams s) (answerListeners s) (candidateListeners s)
    (pendingAnswers s) (f (room_participants s)) (room_offers s) (room_candidates s).

Definition set_room_offers (f : gmap string OfferDoc → gmap string OfferDoc) (s : Session) : Session :=
  mkSession (currentUserId s) (localStream s) (connections s) (participants s)
    (unsubscribe s) (pcs s) (streams s) (answerListeners s) (candidateListeners s)
    (pendingAnswers s) (room_participants s) (f (room_offers s)) (room_candidates s).

Definition set_room_candidates (f : gmap string CandidateDoc → gmap string CandidateDoc) (s : Session) : Session :=
  mkSession (currentUserId s) (localStream s) (connections s) (participants s)
    (unsubscribe s) (pcs s) (streams s) (answerListeners s) (candidateListeners s)
    (pendingAnswers s) (room_participants s) (room_offers s) (f (room_candidates s)).

(** Operations of the browser on one peer connection. *)
Definition pc_log (c : PCCall) (pc : RTCPeerConnection) : RTCPeerConnection :=
  mkPC (pc_participantId pc) (pc_remoteStream pc) (pc_closed pc)
    (localDescription pc) (currentRemoteDescription pc) (iceCandidates pc)
    (connectionState pc) (pc_calls pc ++ [c]).

(** [peerConnection.close()] *)
Definition close (pc : RTCPeerConnection) : RTCPeerConnection :=
  mkPC (pc_participantId pc) (pc_remoteStream pc) true
    (localDescription pc) (currentRemoteDescription pc) (iceCandidates pc)
    "closed" (pc_calls pc ++ [CallClose]).

(** [createOffer()] followed by [setLocalDescription(offer)], both going
    through. *)
Definition setLocalDescription (offer : SDP) (pc : RTCPeerConnection) : RTCPeerConnection :=
  mkPC (pc_participantId pc) (pc_remoteStream pc) (pc_closed pc)
    (Some offer) (currentRemoteDescription pc) (iceCandidates pc)
    (connectionState pc) (pc_calls pc ++ [CallSetLocalDescription offer]).

(** [setRemoteDescription(answer)] is called: the browser takes the answer
    up, and the promise returned settles later; until then nothing of the
    connection changes. *)
Definition setRemoteDescription (answer : SDP) (pc : RTCPeerConnection) : RTCPeerConnection :=
  pc_log (CallSetRemoteDescription answer) pc.

(** The browser has accepted the answer of a [setRemoteDescription] call:
    the answer is the connection's [currentRemoteDescription]. *)
Definition remoteDescriptionSet (answer : SDP) (pc : RTCPeerConnection) : RTCPeerConnection :=
  mkPC (pc_participantId pc) (pc_remoteStream pc) (pc_closed pc)
    (localDescription pc) (Some answer) (iceCandidates pc) (connectionState pc)
    (pc_calls pc).

(** [addIceCandidate(candidate)] *)
Definition addIceCandidate (c : Candidate) (ok : bool) (pc : RTCPeerConnection) : RTCPeerConnection :=
  mkPC (pc_participantId pc) (pc_remoteStream pc) (pc_closed pc)
    (localDescription pc) (currentRemoteDescription pc)
    (if ok then iceCandidates pc ++ [c] else iceCandidates pc)
    (connectionState pc) (pc_calls pc ++ [CallAddIceCandidate c ok]).

Definition set_connectionState (st : string) (pc : RTCPeerConnection) : RTCPeerConnection :=
  mkPC (pc_participantId pc) (pc_remoteStream pc) (pc_closed pc)
    (localDescription pc) (currentRemoteDescription pc) (iceCandidates pc)
    st (pc_calls pc).

Definition set_isConnected (b : bool) (c : ParticipantConnection) : ParticipantConnection :=
  mkConnection (participantId c) (peerConnection c) (remoteStream c) b (isInitiator c).

(** [updateDoc(doc(col, id), data).catch(() => { addDoc(col, data) })]:
    the document [id] is overwritten when it exists; otherwise the data goes
    into a new document under an id generated by the database. *)
Definition updateOrAdd {A} (newId : gset string → string) (id : string) (data : A)
    (col : gmap string A) : gmap string A :=
  match col !! id with
  | Some _ => <[id := data]> col
  | None => <[newId (dom col) := data]> col
  end.

Section Manager.

(** The id the database generates for a document added to a collection whose
    documents are the given set ([addDoc]). *)
Variable autoId : gset string → string.

(** What [createOffer()] and [setLocalDescription(offer)] produce on the peer
    connection with the given reference: the offer, or [None] when one of
    them raises. *)
Variable browserOffer : nat → option SDP.

(** [serverTimestamp()] *)
Variable now : nat.

(** [new WebRTCMeshManager(spaceId, roomId, localStream, currentUserId)],
    for a room whose collections hold the given documents. *)
Definition newManager (currentUserId : string) (localStream : MediaStream)
    (rp : gmap string ParticipantDoc) (ro : gmap string OfferDoc)
    (rc : gmap string CandidateDoc) : Session :=
  mkSession currentUserId localStream ∅ ∅ NotRegistered [] [] [] [] [] rp ro rc.

Definition addParticipant (userId : string) (s : Session) : Session :=
  set_room_participants
    (λ rp, match rp !! userId with
           | Some d => <[userId := mkParticipantDoc userId (Some now) true (p_leftAt d)]> rp
           | None => <[autoId (dom rp) := mkParticipantDoc userId (Some now) true None]> rp
           end) s.

(** [listenForAnswer(participantId)]: registers the snapshot listener on the
    answers addressed from [participantId] to the current user. *)
Definition listenForAnswer (participantId : string) (s : Session) : Session :=
  set_answerListeners (λ l, l ++ [mkAnswerListener participantId true]) s.

Definition createOffer (participantId : string) (s : Session) : Session :=
  match connections s !! participantId with
  | None => s
  | Some connection =>
      match browserOffer (peerConnection connection) with
      | Some offer =>
          let s1 := set_pcs (alter (setLocalDescription offer) (peerConnection connection)) s in
          let s2 := set_room_offers
                      (updateOrAdd autoId
                         (currentUserId s +:+ "_" +:+ participantId)
                         (mkOfferDoc (currentUserId s) participantId offer now)) s1 in
          listenForAnswer participantId s2
      | None => s
      end
  end.

Definition handleParticipantJoined (participantId : string)
    (participantData : ParticipantDoc) (s : Session) : Session :=
  let peerConnection := length (pcs s) in
  let remoteStream := length (streams s) in
  let s1 := set_pcs (λ h, h ++ [mkPC participantId remoteStream false None None []
                                  "new" (CallAddTrack <$> localStream s)]) s in
  let s2 := set_streams (λ h, h ++ [[]]) s1 in
  let s3 := set_connections
              <[participantId := mkConnection participantId peerConnection
                                   remoteStream false true]> s2 in
  let s4 := set_participants <[participantId := participantData]> s3 in
  createOffer participantId s4.

Definition handleParticipantLeft (participantId : string) (s : Session) : Session :=
  let s1 := match connections s !! participantId with
            | Some connection =>
                set_connections (delete participantId)
                  (set_pcs (alter close (peerConnection connection)) s)
            | None => s
            end in
  set_participants (delete participantId) s1.

(** The kinds of [change.type] in [snapshot.docChanges()]. *)
Inductive ChangeType := added | modified | removed.

(** The callback [initialize] registers on the participants collection,
    for one document change. *)
Definition onParticipantChange (type : ChangeType) (participantId : string)
    (participantData : ParticipantDoc) (s : Session) : Session :=
  match type with
  | added =>
      if decide (participantId ≠ currentUserId s)
      then handleParticipantJoined participantId participantData s
      else s
  | removed => handleParticipantLeft participantId s
  | modified => s
  end.

(** [initialize()]: the current user is added to the participants, the
    listener is registered, and its first snapshot reports every document
    of the collection as added. *)
Definition initialize (s : Session) : Session :=
  let s1 := addParticipant (currentUserId s) s in
  let s2 := set_unsubscribe Active s1 in
  foldl (λ s' d, onParticipantChange added d.1 d.2 s') s2
    (map_to_list (room_participants s1)).

(** The callback of a [listenForAnswer] listener for one snapshot [docs]
    (the answers matching the query, newest first), up to its [await]: when
    the connection has no remote description, [setRemoteDescription] is
    called with the newest answer and the callback waits for it.  A listener
    that has unsubscribed is not called any more. *)
Definition onAnswerSnapshot (listener : nat) (docs : list AnswerDoc)
    (s : Session) : Session :=
  match answerListeners s !! listener with
  | Some l =>
      if al_active l then
        match docs with
        | answerData :: _ =>
            match connections s !! al_participantId l with
            | Some connection =>
                match pcs s !! peerConnection connection with
                | Some pc =>
                    match currentRemoteDescription pc with
                    | None =>
                        let s1 := set_pcs
                                    (alter (setRemoteDescription (an_answer answerData))
                                       (peerConnection connection)) s in
                        set_pendingAnswers
                          (λ p, p ++ [mkPendingAnswer listener
                                        (peerConnection connection)
                                        (an_answer answerData)]) s1
                    | Some _ => s
                    end
                | None => s
                end
            | None => s
            end
        | [] => s
        end
      else s
  | None => s
  end.

(** The rest of that callback, for the [i]-th waiting callback, once its
    [setRemoteDescription] call has settled.  When the browser accepted the
    answer ([ok]) the callback goes on to [unsubscribe()]; when the call
    raised, the error is logged and nothing else is done. *)
Definition onAnswerSettled (i : nat) (ok : bool) (s : Session) : Session :=
  match pendingAnswers s !! i with
  | Some waiting =>
      let s1 := set_pendingAnswers (delete i) s in
      if ok
      then set_answerListeners
             (alter (λ l, mkAnswerListener (al_participantId l) false)
                (pa_listener waiting))
             (set_pcs (alter (remoteDescriptionSet (pa_answer waiting))
                         (pa_peerConnection waiting)) s1)
      else s1
  | None => s
  end.

(** [sendIceCandidate(participantId, candidate)] *)
Definition sendIceCandidate (participantId : string) (candidate : Candidate)
    (s : Session) : Session :=
  set_room_candidates
    (λ rc, <[autoId (dom rc) := mkCandidateDoc (currentUserId s) participantId
                                  candidate now]> rc) s.

(** [listenForIceCandidates(participantId)]: registers the snapshot listener
    on the candidates addressed from [participantId] to the current user. *)
Definition listenForIceCandidates (participantId : string) (s : Session) : Session :=
  set_candidateListeners (λ l, l ++ [participantId]) s.

(** The callback of a [listenForIceCandidates] listener for one document
    change. *)
Definition onCandidateChange (participantId : string) (type : ChangeType)
    (candidateData : CandidateDoc) (ok : bool) (s : Session) : Session :=
  match type with
  | added =>
      match connections s !! participantId with
      | Some connection =>
          set_pcs (alter (addIceCandidate (c_candidate candidateData) ok)
                     (peerConnection connection)) s
      | None => s
      end
  | _ => s
  end.

(** A candidate document added to the room's candidates collection reaches
    every registered candidate listener whose query it matches
    ([from == participantId], [to == currentUserId]). *)
Definition deliverCandidate (candidateData : CandidateDoc) (ok : bool)
    (s : Session) : Session :=
  foldl (λ s' participantId,
           if decide (c_from candidateData = participantId
                      ∧ c_to candidateData = currentUserId s)
           then onCandidateChange participantId added candidateData ok s'
           else s')
    s (candidateListeners s).

(** [leave()].  The update of the user's own participant document raises
    when that document does not exist; nothing after it is run then. *)
Definition leave (s : Session) : option Session :=
  match room_participants s !! currentUserId s with
  | Some d =>
      let s1 := set_room_participants
                  <[currentUserId s := mkParticipantDoc (p_userId d) (p_joinedAt d)
                                         false (Some now)]> s in
      let s2 := set_pcs (λ h, foldl (λ h' c, alter close (peerConnection c) h') h
                                (snd <$> map_to_list (connections s1))) s1 in
      let s3 := set_connections (λ _, ∅) s2 in
      let s4 := set_participants (λ _, ∅) s3 in
      Some match unsubscribe s4 with
           | NotRegistered => s4
           | _ => set_unsubscribe Cancelled s4
           end
  | None => None
  end.

Definition getRemoteStreams (s : Session) : list MediaStream :=
  filter (λ stream, 0 < length stream)
    (omap (λ c, streams s !! remoteStream c) (snd <$> map_to_list (connections s))).

Definition getParticipantCount (s : Session) : nat := size (connections s).

Definition isParticipantConnected (participantId : string) (s : Session) : bool :=
  match connections s !! participantId with
  | Some connection => isConnected connection
  | None => false
  end.

(** The event handlers set on a peer connection by
    [handleParticipantJoined]. *)
Definition ontrack (pc : RTCPeerConnection) (tracks : list Track) (s : Session) : Session :=
  set_streams (alter (λ st, st ++ tracks) (pc_remoteStream pc)) s.

Definition onicecandidate (pc : RTCPeerConnection) (candidate : option Candidate)
    (s : Session) : Session :=
  match candidate with
  | Some c => sendIceCandidate (pc_participantId pc) c s
  | None => s
  end.

Definition onconnectionstatechange (pc : RTCPeerConnection) (s : Session) : Session :=
  set_connections
    (alter (set_isConnected (bool_decide (connectionState pc = "connected")))
       (pc_participantId pc)) s.

(** *** The session as a transition system

    What can happen to a session: calls of the public methods, changes of
    the room's collections by other clients, snapshots delivered to the
    registered listeners, calls of [setRemoteDescription] settling, and
    events of the peer connections.  A handler runs up to its end, and the
    callback of an answer listener up to its [await]: other events can be
    taken before the awaited call settles. *)
Inductive Event :=
| EvInitialize
| EvLeave
| EvParticipantWritten (id : string) (data : ParticipantDoc)
| EvParticipantDeleted (id : string)
| EvAnswerSnapshot (listener : nat) (docs : list AnswerDoc)
| EvAnswerSettled (i : nat) (ok : bool)
| EvCandidateWritten (candidateData : CandidateDoc) (ok : bool)
| EvTrack (pc : nat) (tracks : list Track)
| EvIceCandidate (pc : nat) (candidate : option Candidate)
| EvConnectionState (pc : nat) (state : string).

(** A peer connection that has been closed raises no more events and
    settles no more calls. *)
Definition open_pc (s : Session) (r : nat) : option RTCPeerConnection :=
  match pcs s !! r with
  | Some pc => if pc_closed pc then None else Some pc
  | None => None
  end.

Definition step (ev : Event) (s : Session) : Session :=
  match ev with
  | EvInitialize =>
      match unsubscribe s with
      | NotRegistered => initialize s
      | _ => s
      end
  | EvLeave => default s (leave s)
  | EvParticipantWritten id data =>
      let type := if decide (id ∈ dom (room_participants s)) then modified else added in
      let s1 := set_room_participants <[id := data]> s in
      match unsubscribe s with
      | Active => onParticipantChange type id data s1
      | _ => s1
      end
  | EvParticipantDeleted id =>
      match room_participants s !! id with
      | Some data =>
          let s1 := set_room_participants (delete id) s in
          match unsubscribe s with
          | Active => onParticipantChange removed id data s1
          | _ => s1
          end
      | None => s
      end
  | EvAnswerSnapshot listener docs => onAnswerSnapshot listener docs s
  | EvAnswerSettled i ok =>
      match pendingAnswers s !! i with
      | Some waiting =>
          match open_pc s (pa_peerConnection waiting) with
          | Some _ => onAnswerSettled i ok s
          | None => s
          end
      | None => s
      end
  | EvCandidateWritten candidateData ok =>
      deliverCandidate candidateData ok
        (set_room_candidates (λ rc, <[autoId (dom rc) := candidateData]> rc) s)
  | EvTrack r tracks =>
      match open_pc s r with
      | Some pc => ontrack pc tracks s
      | None => s
      end
  | EvIceCandidate r candidate =>
      match open_pc s r with
      | Some pc => onicecandidate pc candidate s
      | None => s
      end
  | EvConnectionState r state =>
      match open_pc s r with
      | Some pc =>
          onconnectionstatechange (set_connectionState state pc)
            (set_pcs (alter (set_connectionState state) r) s)
      | None => s
      end
  end.

Definition run (evs : list Event) (s : Session) : Session :=
  foldl (λ s' ev, step ev s') s evs.

End Manager.

End Mesh.

(** ** [SimpleWebRTCManager] *)

Module Simple.
Import Mesh.

(** One manager instance with the browser objects it created.  The map
    holds the peer connections themselves, [remoteStreams] the streams that
    received a track; both are references into the heaps. *)
Record Session := mkSession {
  currentUserId : string;
  localStream : MediaStream;
  connections : gmap string nat;
  remoteStreams : list nat;
  participants : gmap string ParticipantDoc;
  onStreamsChanged : bool;
  streamsChangedCalls : nat;
  pcs : list RTCPeerConnection;
  streams : list MediaStream
}.

(** [stream.getTracks().length > 0] *)
Definition hasTracks (h : list MediaStream) (stream : nat) : bool :=
  match h !! stream with
  | Some tracks => bool_decide (0 < length tracks)
  | None => false
  end.

Definition handleParticipantLeft (participantId : string) (s : Session) : Session :=
  let '(connections', pcs') :=
    match connections s !! participantId with
    | Some connection =>
        (delete participantId (connections s), alter close connection (pcs s))
    | None => (connections s, pcs s)
    end in
  mkSession (currentUserId s) (localStream s) connections'
    (filter (λ stream, hasTracks (streams s) stream) (remoteStreams s))
    (delete participantId (participants s))
    (onStreamsChanged s)
    (if onStreamsChanged s then S (streamsChangedCalls s) else streamsChangedCalls s)
    pcs' (streams s).

End Simple.

(** ** The [VirtualSpace] component: joining a call *)

Module VirtualSpace.
Import JS Firestore.

(** JavaScript values as far as the call-join flow looks at them. *)
Inductive JSValue :=
| VUndefined
| VString (s : string)
| VNumber (n : nat)
| VStreams (l : list Mesh.MediaStream)
| VObject
| VFunction (result : JSValue).

(** An object: its own properties by name. *)
Definition JSObject := gmap string JSValue.

(** The object [WebRTCMeshManager.initialize()] returns (and
    [createMeshRoom] with it):
    [{ roomId, spaceId, localStream, connections, participants, unsubscribe }]. *)
Definition MeshRoomHandles (spaceId roomId : string) : JSObject :=
  list_to_map
    [("roomId", VString roomId); ("spaceId", VString spaceId);
     ("localStream", VObject); ("connections", VObject);
     ("participants", VObject); ("unsubscribe", VFunction VUndefined)].

(** The object [SimpleWebRTCManager.initialize()] returns:
    [{ roomId, spaceId, localStream, remoteStreams, participants, unsubscribe }]. *)
Definition SimpleRoomHandles (spaceId roomId : string)
    (remoteStreams : list Mesh.MediaStream) : JSObject :=
  list_to_map
    [("roomId", VString roomId); ("spaceId", VString spaceId);
     ("localStream", VObject); ("remoteStreams", VStreams remoteStreams);
     ("participants", VObject); ("unsubscribe", VFunction VUndefined)].

Record Toast := mkToast {
  destructive : bool;
  title : string;
  description : string
}.

Inductive Implementation := MeshImplementation | SimpleImplementation.

(** The state of the component that [startOrJoinCall] reads and writes,
    with the room constructions it has attempted and the toasts it has
    shown, oldest first. *)
Record Component := mkComponent {
  localStream : option Mesh.MediaStream;
  user : option string;
  remoteStreams : list Mesh.MediaStream;
  isInCall : bool;
  meshHandlesRef : option JSObject;
  simpleHandlesRef : option JSObject;
  intervals : nat;
  toasts : list Toast;
  constructions : list Implementation
}.

Definition T (A : Type) : Type := Component → Res A * Component.

Definition ret {A} (a : A) : T A := λ c, (Ok a, c).

Definition bind {A B} (m : T A) (k : A → T B) : T B :=
  λ c, match m c with
       | (Ok a, c') => k a c'
       | (Throw, c') => (Throw, c')
       end.

Definition throw {A} : T A := λ c, (Throw, c).

Declare Scope vs_scope.
Delimit Scope vs_scope with vs.
Notation "'let!' x ':=' m 'in' k" := (bind m (λ x, k))
  (at level 10, x name, m at level 100, k at level 200) : vs_scope.
Notation "'do!' m 'in' k" := (bind m (λ _, k))
  (at level 10, m at level 100, k at level 200) : vs_scope.

Definition modify (f : Component → Component) : T unit := λ c, (Ok tt, f c).

(** [object.name(...)]: a [TypeError] unless the property is a function. *)
Definition callMethod (object : JSObject) (name : string) : T JSValue :=
  match object !! name with
  | Some (VFunction result) => ret result
  | _ => throw
  end.

(** [streams.length]: a [TypeError] on [undefined]. *)
Definition asStreams (v : JSValue) : T (list Mesh.MediaStream) :=
  match v with
  | VStreams l => ret l
  | _ => throw
  end.

(** [`${v}`] *)
Definition toString (v : JSValue) : string :=
  match v with
  | VUndefined => "undefined"
  | VString s => s
  | VNumber n => pretty n
  | VStreams _ => ""
  | VObject => "[object Object]"
  | VFunction _ => "function"
  end.

Definition toast (t : Toast) : T unit :=
  modify (λ c, mkComponent (localStream c) (user c) (remoteStreams c) (isInCall c)
                 (meshHandlesRef c) (simpleHandlesRef c) (intervals c)
                 (toasts c ++ [t]) (constructions c)).

Definition setRemoteStreams (l : list Mesh.MediaStream) : T unit :=
  modify (λ c, mkComponent (localStream c) (user c) l (isInCall c)
                 (meshHandlesRef c) (simpleHandlesRef c) (intervals c)
                 (toasts c) (constructions c)).

Definition setIsInCall (b : bool) : T unit :=
  modify (λ c, mkComponent (localStream c) (user c) (remoteStreams c) b
                 (meshHandlesRef c) (simpleHandlesRef c) (intervals c)
                 (toasts c) (constructions c)).

Definition setMeshHandlesRef (h : JSObject) : T unit :=
  modify (λ c, mkComponent (localStream c) (user c) (remoteStreams c) (isInCall c)
                 (Some h) (simpleHandlesRef c) (intervals c)
                 (toasts c) (constructions c)).

Definition setSimpleHandlesRef (h : JSObject) : T unit :=
  modify (λ c, mkComponent (localStream c) (user c) (remoteStreams c) (isInCall c)
                 (meshHandlesRef c) (Some h) (intervals c)
                 (toasts c) (constructions c)).

Definition setInterval : T unit :=
  modify (λ c, mkComponent (localStream c) (user c) (remoteStreams c) (isInCall c)
                 (meshHandlesRef c) (simpleHandlesRef c) (S (intervals c))
                 (toasts c) (constructions c)).

Open Scope vs_scope.

(** [await createMeshRoom(...)] / [await createSimpleRoom(...)]: the handles
    the construction resolves to, or [None] when it raises. *)
Definition construct (i : Implementation) (outcome : option JSObject) : T JSObject :=
  do! modify (λ c, mkComponent (localStream c) (user c) (remoteStreams c) (isInCall c)
                     (meshHandlesRef c) (simpleHandlesRef c) (intervals c)
                     (toasts c) (constructions c ++ [i])) in
  match outcome with
  | Some handles => ret handles
  | None => throw
  end.

(** The body of the outer [try]. *)
Definition joinMesh (createMeshRoom : option JSObject) : T unit :=
  let! meshHandles := construct MeshImplementation createMeshRoom in
  do! setMeshHandlesRef meshHandles in
  (* updateRemoteStreams() *)
  let! streams := callMethod meshHandles "getRemoteStreams" in
  let! streams := asStreams streams in
  do! setRemoteStreams streams in
  do! setInterval in
  do! setIsInCall true in
  let! count := callMethod meshHandles "getParticipantCount" in
  toast (mkToast false "Joined meeting"
           ("Connected to meeting. " +:+ toString count +:+ " participants.")).

(** The body of the inner [try]. *)
Definition joinSimple (createSimpleRoom : option JSObject) : T unit :=
  let! simpleHandles := construct SimpleImplementation createSimpleRoom in
  do! setSimpleHandlesRef simpleHandles in
  do! callMethod simpleHandles "setOnStreamsChanged" in
  (* updateRemoteStreams() *)
  let! streams := callMethod simpleHandles "getRemoteStreams" in
  let! streams := asStreams streams in
  do! setRemoteStreams streams in
  do! setIsInCall true in
  toast (mkToast false "Joined meeting (Simple Mode)"
           "Connected to meeting. Note: Multi-participant video requires Firebase configuration.").

Definition try_catch (body handler : T unit) : T unit :=
  λ c, match body c with
       | (Ok a, c') => (Ok a, c')
       | (Throw, c') => handler c'
       end.

(** [startOrJoinCall], given what the two room constructions would resolve
    to. *)
Definition startOrJoinCall (createMeshRoom createSimpleRoom : option JSObject)
    (c : Component) : Component :=
  match localStream c, user c with
  | Some _, Some _ =>
      (try_catch (joinMesh createMeshRoom)
         (try_catch (joinSimple createSimpleRoom)
            (toast (mkToast true "Call failed"
                      "Unable to start call. Please check your internet connection and Firebase configuration.")))
         c).2
  | _, _ =>
      (toast (mkToast true "Media not ready"
                "Please ensure camera and microphone are enabled") c).2
  end.

(** ** The [VirtualSpace] component: moving the avatar *)

Open Scope Z_scope.

Definition GRID_SIZE : Z := 32.
Definition STEP : Z := GRID_SIZE.

(** A layer of the tile map.  [l_width], [l_height] and [l_data] are [None]
    when the field is not a number, respectively not an array. *)
Record Layer := mkLayer {
  l_type : string;
  l_name : string;
  l_width : option Z;
  l_height : option Z;
  l_data : option (list Z)
}.

(** [officeMapData], the imported [map.json]. *)
Record MapData := mkMapData {
  map_width : Z;
  map_height : Z;
  layers : list Layer
}.

Record Position := mkPosition { x : Z; y : Z }.

(** The collision layer test of [isPositionValid]: the layer's width, height
    and data when it is a tile layer named ['Tile Layer 8']. *)
Definition collisionLayer (layer : Layer) : option (Z * Z * list Z) :=
  if decide (l_type layer = "tilelayer" ∧ l_name layer = "Tile Layer 8")
  then match l_width layer, l_height layer, l_data layer with
       | Some width, Some height, Some data => Some (width, height, data)
       | _, _, _ => None
       end
  else None.

(** The [for (const layer of officeMapData.layers)] loop. *)
Fixpoint layersAllow (tileX tileY : Z) (ls : list Layer) : bool :=
  match ls with
  | [] => true
  | layer :: rest =>
      match collisionLayer layer with
      | Some (width, height, data) =>
          if (tileX <? 0) || (tileY <? 0) || (tileX >=? width) || (tileY >=? height)
          then false
          else
            let tileIndex := tileY * width + tileX in
            if (tileIndex >=? 0) && (tileIndex <? Z.of_nat (length data))
            then match data !! Z.to_nat tileIndex with
                 | Some tileGid =>
                     if decide (tileGid ≠ 0) then false else layersAllow tileX tileY rest
                 | None => layersAllow tileX tileY rest
                 end
            else layersAllow tileX tileY rest
      | None => layersAllow tileX tileY rest
      end
  end.

Definition isPositionValid (officeMapData : MapData) (pos : Position) : bool :=
  let avatarCenterX := x pos + GRID_SIZE / 2 in
  let avatarCenterY := y pos + GRID_SIZE / 2 in
  let tileX := avatarCenterX / GRID_SIZE in
  let tileY := avatarCenterY / GRID_SIZE in
  layersAllow tileX tileY (layers officeMapData).

(** What [handleKeyDown] reads and writes: the position state, the mode,
    whether the container is mounted, the signed-in user, and the positions
    written to the user's record. *)
Record Avatar := mkAvatar {
  position : Position;
  isTogetherMode : bool;
  containerMounted : bool;
  avatarUser : option string;
  positionsWritten : list (string * Position)
}.

(** [updatePositionInDb(newPos)] *)
Definition updatePositionInDb (newPos : Position) (a : Avatar) : Avatar :=
  match avatarUser a with
  | Some uid =>
      mkAvatar (position a) (isTogetherMode a) (containerMounted a) (avatarUser a)
        (positionsWritten a ++ [(uid, newPos)])
  | None => a
  end.

(** The [switch (e.key)]: the new position, or [None] in the default case. *)
Definition moved (officeMapData : MapData) (key : string) (prev : Position)
    : option Position :=
  let mapWidth := map_width officeMapData * GRID_SIZE in
  let mapHeight := map_height officeMapData * GRID_SIZE in
  let avatarSize := 48 in
  if decide (key = "ArrowUp") then
    Some (mkPosition (x prev) (Z.max 0 (y prev - STEP)))
  else if decide (key = "ArrowDown") then
    Some (mkPosition (x prev) (Z.min (mapHeight - avatarSize) (y prev + STEP)))
  else if decide (key = "ArrowLeft") then
    Some (mkPosition (Z.max 0 (x prev - STEP)) (y prev))
  else if decide (key = "ArrowRight") then
    Some (mkPosition (Z.min (mapWidth - avatarSize) (x prev + STEP)) (y prev))
  else None.

Definition handleKeyDown (officeMapData : MapData) (key : string) (a : Avatar) : Avatar :=
  if isTogetherMode a then a
  else if negb (containerMounted a) then a
  else
    let prev := position a in
    match moved officeMapData key prev with
    | Some newPos =>
        if (bool_decide (x newPos ≠ x prev) || bool_decide (y newPos ≠ y prev))
           && isPositionValid officeMapData newPos
        then
          let a' := updatePositionInDb newPos a in
          mkAvatar newPos (isTogetherMode a') (containerMounted a') (avatarUser a')
            (positionsWritten a')
        else a
    | None => a
    end.

(** [useState({ x: GRID_SIZE * 10, y: GRID_SIZE * 10 })] *)
Definition initialPosition : Position := mkPosition (GRID_SIZE * 10) (GRID_SIZE * 10).

End VirtualSpace.

(** ** The queries of the administrative services *)

Module AdminQueries.
Import JS Firestore.

Section Queries.

Variable fails : Op → bool.

Open Scope fs_scope.

(** [AdminMeetingControlService.getMeetingAdminActions] *)
Definition getMeetingAdminActions (meetingId : string)
    : St → list AdminMeetingAction * St :=
  catching
    (let! meetingSnapshot := getMeeting fails meetingId in
     match meetingSnapshot with
     | None => ret []
     | Some meetingData => ret (m_adminActions meetingData)
     end)
    [].

(** [AdminMeetingControlService.isUserAdmin] *)
Definition isUserAdmin (userId : string) : St → bool * St :=
  catching
    (let! userSnapshot := getUser fails userId in
     match userSnapshot with
     | None => ret false
     | Some userData => ret (bool_decide (u_role userData = "admin"))
     end)
    false.

(** [AdminMeetingClientSimpleService.isCurrentUserAdmin], given
    [auth.currentUser]. *)
Definition isCurrentUserAdmin (currentUser : option string) : St → bool * St :=
  match currentUser with
  | None => λ s, (false, s)
  | Some uid =>
      catching
        (let! userDoc := getUser fails uid in
         match userDoc with
         | None => ret false
         | Some userData => ret (bool_decide (u_role userData = "admin"))
         end)
        false
  end.

End Queries.

End AdminQueries.

(** ** [SimpleWebRTCManager]: streams and cleanup *)

Module SimpleManager.
Import Mesh Simple.

(** [getRemoteStreams()]: the [remoteStreams] array itself. *)
Definition getRemoteStreams (s : Session) : list nat := remoteStreams s.

(** [getParticipantCount()] *)
Definition getParticipantCount (s : Session) : nat := size (participants s).

(** [setOnStreamsChanged(callback)] *)
Definition setOnStreamsChanged (s : Session) : Session :=
  mkSession (currentUserId s) (localStream s) (connections s) (remoteStreams s)
    (participants s) true (streamsChangedCalls s) (pcs s) (streams s).

(** [stream.addTrack(track)]: nothing happens when the stream already holds
    the track. *)
Definition addTrack (track : Track) (stream : MediaStream) : MediaStream :=
  if decide (track ∈ stream) then stream else stream ++ [track].

(** The [ontrack] handler [handleParticipantJoined] sets on a peer
    connection, for an event whose [event.streams[0].getTracks()] is
    [tracks]. *)
Definition ontrack (pc : RTCPeerConnection) (tracks : list Track) (s : Session) : Session :=
  mkSession (currentUserId s) (localStream s) (connections s)
    (remoteStreams s ++ [pc_remoteStream pc])
    (participants s)
    (onStreamsChanged s)
    (if onStreamsChanged s then S (streamsChangedCalls s) else streamsChangedCalls s)
    (pcs s)
    (alter (λ remoteStream, foldl (λ stream track, addTrack track stream) remoteStream tracks)
       (pc_remoteStream pc) (streams s)).

(** [cleanup()], with the value of [this.unsubscribe]. *)
Definition cleanup (s : Session) (unsubscribe : Listener) : Session * Listener :=
  (mkSession (currentUserId s) (localStream s) ∅ [] ∅
     (onStreamsChanged s) (streamsChangedCalls s)
     (foldl (λ h connection, alter close connection h) (pcs s)
        (snd <$> map_to_list (connections s)))
     (streams s),
   match unsubscribe with
   | NotRegistered => NotRegistered
   | _ => Cancelled
   end).

End SimpleManager.

(** ** The [VirtualSpace] component: the list of live participants *)

Module LiveParticipants.
Import JS.









End LiveParticipants.

(** ** The [VirtualSpace] component: leaving the space *)

Module VirtualSpaceLeave.
Import JS Firestore.

(** What [handleLeave] does besides its database calls: the tracks it
    stops and the route it pushes. *)
Record LeaveOutcome := mkLeaveOutcome {
  stoppedTracks : list Mesh.Track;
  pushed : string
}.

Section HandleLeave.

Variable fails : Op → bool.
Variable now : nat.
Variable nowIso : string.

Open Scope fs_scope.

(** The fields written to the user's record, computed from the data
    [userDocSnap.data()] that was read ([None] when the record does not
    exist). *)
Definition leftFields (spaceId : string) (userData : option UserDoc) (u : UserDoc)
    : UserDoc :=
  mkUserDoc (u_email u) (u_role u)
    (filter (λ p, ps_spaceId p ≠ Some spaceId)
       (default [] (u_pendingSpaces <$> userData)))
    (filter (λ hiddenSpaceId, hiddenSpaceId ≠ spaceId)
       (default [] (u_hiddenMeetings <$> userData)))
    (Some now).

(** [{ members: arrayRemove(user.uid), lastActivity: new Date().toISOString() }] *)
Definition withoutMember (uid : string) (sp : SpaceDoc) : SpaceDoc :=
  mkSpaceDoc (s_activeMeeting sp) (s_meetingEndsAt sp) nowIso (s_endedBy sp)
    (s_endedAt sp) (filter (λ member, member ≠ uid) (s_members sp)).

(** [handleLeave], for the component's [spaceId], [localStream] and
    [user].  [getDoc(userDocRef)] is the read [GetUser]. *)
Definition handleLeave (spaceId : string) (localStream : option Mesh.MediaStream)
    (user : option string) (s : St) : LeaveOutcome * St :=
  let s' :=
    match user with
    | Some uid =>
        (try_catch
           (let! userData := getUser fails uid in
            await! updateUser fails uid (leftFields spaceId userData) in
            updateSpace fails spaceId (withoutMember uid))
           (ret tt) s).2
    | None => s
    end in
  (mkLeaveOutcome (default [] localStream) "/dashboard", s').

End HandleLeave.

End VirtualSpaceLeave.

(** ** The meeting page: phases of a meeting and access *)

Module MeetingPage.
Import JS.

(** A [Date]: its time value, or [None] for an invalid date. *)
Definition JSDate := option Z.

(** [a <= b] on dates: false when one of them is invalid. *)
Definition date_le (a b : JSDate) : bool :=
  match a, b with
  | Some x, Some y => (x <=? y)%Z
  | _, _ => false
  end.

Definition date_lt (a b : JSDate) : bool :=
  match a, b with
  | Some x, Some y => (x <? y)%Z
  | _, _ => false
  end.

(** The fields of the meeting document the page reads; the two dates as
    [new Date(...)] makes them. *)
Record MeetingData := mkMeetingData {
  startDateTime : JSDate;
  endDateTime : JSDate;
  attendees : option (list string);
  creatorId : jsstring
}.

Record User := mkUser {
  uid : string;
  email : jsstring
}.

Section Page.

Variable user : option User.
Variable meetingData : option MeetingData.
(** [new Date()] *)
Variable now : Z.

(** [meetingData ? new Date(meetingData.startDateTime) : null] *)
Definition startTime : option JSDate := startDateTime <$> meetingData.
Definition endTime : option JSDate := endDateTime <$> meetingData.

Definition isMeetingActive : bool :=
  match startTime, endTime with
  | Some startTime, Some endTime =>
      date_le startTime (Some now) && date_le (Some now) endTime
  | _, _ => false
  end.

Definition isMeetingUpcoming : bool :=
  match startTime with
  | Some startTime => date_lt (Some now) startTime
  | None => false
  end.

Definition isMeetingPast : bool :=
  match endTime with
  | Some endTime => date_lt endTime (Some now)
  | None => false
  end.

(** [user?.email && meetingData?.attendees?.includes(user.email)] *)
Definition isUserInvited : bool :=
  match user with
  | Some u =>
      match truthy (email u) with
      | Some e =>
          match meetingData ≫= attendees with
          | Some l => bool_decide (e ∈ l)
          | None => false
          end
      | None => false
      end
  | None => false
  end.

(** [user?.uid === meetingData?.creatorId] *)
Definition isCreator : bool :=
  bool_decide (uid <$> user = meetingData ≫= creatorId).

Definition canJoin : bool := isUserInvited || isCreator.

(** The label of the badge. *)
Definition badge : string :=
  if isMeetingActive then "In Progress"
  else if isMeetingUpcoming then "Upcoming"
  else "Completed".

(** [canJoin && (isMeetingActive || isMeetingUpcoming)]: whether the join
    button is rendered. *)
Definition joinButton : bool := canJoin && (isMeetingActive || isMeetingUpcoming).

End Page.

End MeetingPage.

(** ** The [AdminMeetingControls] panel *)

Module AdminMeetingControls.
Import JS Firestore.

(** [auth.currentUser] as far as the panel reads it. *)
Record FirebaseUser := mkFirebaseUser {
  uid : string;
  displayName : jsstring;
  email : jsstring
}.

(** The state of the panel: its two state variables, the toasts shown and
    the calls of [onMeetingUpdate], oldest first. *)
Record Panel := mkPanel {
  adminReason : string;
  loading : option string;
  toasts : list VirtualSpace.Toast;
  meetingUpdates : nat
}.

(** [a || b] on strings *)
Definition or_else (a : jsstring) (b : string) : string := default b (truthy a).

Section Handlers.

Variable fails : Op → bool.
Variable now : nat.
Variable nowIso : string.
(** [auth.currentUser], and whether the [onMeetingUpdate] prop is given. *)
Variable currentUser : option FirebaseUser.
Variable onMeetingUpdate : bool.

(** What both handlers do with the service's answer. *)
Definition report (title : string) (result : AdminMeetingResponse) (p : Panel) : Panel :=
  if success result then
    mkPanel "" None
      (toasts p ++ [VirtualSpace.mkToast false title (message result)])
      (if onMeetingUpdate then S (meetingUpdates p) else meetingUpdates p)
  else
    mkPanel (adminReason p) None
      (toasts p ++ [VirtualSpace.mkToast true "Error" (message result)])
      (meetingUpdates p).

Definition notAuthenticated (p : Panel) : Panel :=
  mkPanel (adminReason p) None
    (toasts p ++ [VirtualSpace.mkToast true "Error" "User not authenticated"])
    (meetingUpdates p).

(** [handleEndMeeting(meetingId)]; [finally] resets [loading]. *)
Definition handleEndMeeting (meetingId : string) (p : Panel) (s : St) : Panel * St :=
  match currentUser with
  | None => (notAuthenticated p, s)
  | Some user =>
      let '(result, s') :=
        AdminMeetingClientSimpleService.endMeetingForAllUsers fails now nowIso
          meetingId (uid user)
          (or_else (displayName user) (or_else (email user) "Admin"))
          (Some (or_else (Some (adminReason p)) "Meeting ended by admin")) s in
      (report "Meeting Ended" result p, s')
  end.

(** [handleDeleteMeeting(meetingId)] *)
Definition handleDeleteMeeting (meetingId : string) (p : Panel) (s : St) : Panel * St :=
  match currentUser with
  | None => (notAuthenticated p, s)
  | Some user =>
      let '(result, s') :=
        AdminMeetingClientSimpleService.deleteMeetingCompletely fails now
          meetingId (uid user)
          (or_else (displayName user) (or_else (email user) "Admin"))
          (Some (or_else (Some (adminReason p)) "Meeting deleted by admin")) s in
      (report "Meeting Deleted" result p, s')
  end.

End Handlers.

End AdminMeetingControls.

(** ** Properties of the administrative actions *)

Module AdminFacts.
Import JS Firestore.

Lemma uniq_elem_of x l : x ∈ uniq l ↔ x ∈ l.
Proof.
  revert x. induction l as [|a l IH]; intros x; simpl; [done|].
  rewrite !elem_of_cons, list_elem_of_filter, IH.
  destruct (decide (x = a)); naive_solver.
Qed.

Lemma uniq_NoDup l : NoDup (uniq l).
Proof.
  induction l as [|a l IH]; simpl; [constructor|].
  constructor.
  - rewrite list_elem_of_filter. naive_solver.
  - by apply NoDup_filter.
Qed.

Definition userUpdateAttempts (l : list Op) : list string :=
  omap (λ o, match o with UpdateUser u => Some u | _ => None end) l.

Definition userReads (l : list Op) : list string :=
  omap (λ o, match o with GetUser u => Some u | _ => None end) l.

Section Loop.

Variable fails : Op → bool.
Variable now : nat.

Definition found (us : gmap string UserDoc) (u : string) : bool :=
  negb (fails (GetUser u)) && bool_decide (is_Some (us !! u)).

Definition updated (us : gmap string UserDoc) (u : string) : bool :=
  found us u && negb (fails (UpdateUser u)).

Definition userOps (us : gmap string UserDoc) (u : string) : list Op :=
  GetUser u :: (if found us u then [UpdateUser u] else []).

Definition hide (spaceId : jsstring) (d : UserDoc) : UserDoc :=
  dashboardFields now spaceId d d.

Lemma found_alter f k us v : found (alter f k us) v = found us v.
Proof.
  unfold found. f_equal. apply bool_decide_ext, lookup_alter_is_Some.
Qed.

Lemma updated_alter f k us v : updated (alter f k us) v = updated us v.
Proof. unfold updated. by rewrite found_alter. Qed.

Lemma removeFromDashboard_spec spaceId u aff s :
  ∃ s',
    removeFromDashboard fails now spaceId u aff s
      = (Ok (if updated (users (db s)) u then aff ++ [u] else aff), s') ∧
    log s' = log s ++ userOps (users (db s)) u ∧
    meetings (db s') = meetings (db s) ∧
    spaces (db s') = spaces (db s) ∧
    users (db s') =
      if updated (users (db s)) u then alter (hide spaceId) u (users (db s))
      else users (db s).
Proof.
  unfold removeFromDashboard, try_catch, bind, getUser, updateUser, call, ret,
    updated, found, userOps, found.
  destruct s as [d lg]; simpl.
  destruct (fails (GetUser u)) eqn:Hg; simpl.
  { eexists; split_and!; by rewrite ?app_nil_r. }
  destruct (users d !! u) as [ud|] eqn:Hu; simpl.
  2:{ eexists; split_and!; by rewrite ?app_nil_r. }
  destruct (fails (UpdateUser u)) eqn:Hw; simpl.
  { eexists; split_and!; try done. by rewrite <-app_assoc. }
  rewrite Hu. simpl.
  eexists; split_and!; try done.
  - by rewrite <-app_assoc.
  - simpl. apply map_eq. intros k. rewrite lookup_alter, lookup_insert.
    case_decide; subst; [by rewrite Hu|done].
Qed.

Lemma userUpdateAttempts_app l1 l2 :
  userUpdateAttempts (l1 ++ l2) = userUpdateAttempts l1 ++ userUpdateAttempts l2.
Proof. apply omap_app. Qed.

Lemma userReads_app l1 l2 : userReads (l1 ++ l2) = userReads l1 ++ userReads l2.
Proof. apply omap_app. Qed.

(** The calls the loop makes over [ids], from the users map [us] it starts
    with. *)
Definition loopOps (us : gmap string UserDoc) (ids : list string) : list Op :=
  ids ≫= userOps us.



Lemma loopOps_alter f k us ids : loopOps (alter f k us) ids = loopOps us ids.
Proof.
  unfold loopOps. induction ids as [|u ids IH]; [done|].
  rewrite !bind_cons, IH. unfold userOps. by rewrite found_alter.
Qed.

Lemma filter_updated_alter f k us (ids : list string) :
  filter (λ u, updated (alter f k us) u) ids = filter (λ u, updated us u) ids.
Proof.
  induction ids as [|u ids IH]; [done|].
  rewrite !filter_cons, IH, updated_alter. done.
Qed.

Lemma forEachUser_spec spaceId ids :
  NoDup ids →
  ∀ aff s, ∃ s',
    forEachUser fails now spaceId ids aff s
      = (Ok (aff ++ filter (λ u, updated (users (db s)) u) ids), s') ∧
    log s' = log s ++ loopOps (users (db s)) ids ∧
    meetings (db s') = meetings (db s) ∧
    spaces (db s') = spaces (db s) ∧
    ∀ k, users (db s') !! k =
         if bool_decide (k ∈ ids) && updated (users (db s)) k
         then hide spaceId <$> users (db s) !! k
         else users (db s) !! k.
Proof.
  induction 1 as [|u ids Hu Hnd IH]; intros aff s.
  { exists s. simpl. unfold ret. rewrite !app_nil_r. split_and!; try done. }
  simpl. unfold bind.
  destruct (removeFromDashboard_spec spaceId u aff s)
    as (s1 & -> & Hlog & Hm & Hs & Hus).
  destruct (IH (if updated (users (db s)) u then aff ++ [u] else aff) s1)
    as (s' & -> & Hlog' & Hm' & Hs' & Hus').
  exists s'. rewrite Hlog', Hlog, Hm', Hs', Hm, Hs.
  assert (Hupd : ∀ v, updated (users (db s1)) v = updated (users (db s)) v).
  { intros v. rewrite Hus. destruct (updated (users (db s)) u); [|done].
    apply updated_alter. }
  assert (Hops : loopOps (users (db s1)) ids = loopOps (users (db s)) ids).
  { rewrite Hus. destruct (updated (users (db s)) u); [|done].
    apply loopOps_alter. }
  split_and!; try done.
  - f_equal. rewrite filter_cons.
    rewrite (list_filter_iff _ (λ u0, updated (users (db s)) u0))
      by (intros v; by rewrite Hupd).
    destruct (updated (users (db s)) u) eqn:Hd; simpl; by rewrite <-?app_assoc.
  - rewrite Hops. unfold loopOps, userOps. by rewrite <-app_assoc.
  - intros k. rewrite Hus', Hupd, Hus.
    destruct (decide (k = u)) as [->|Hne].
    + rewrite (bool_decide_eq_false_2 (u ∈ ids)) by done.
      rewrite (bool_decide_eq_true_2 (u ∈ u :: ids)) by set_solver. simpl.
      destruct (updated (users (db s)) u); [|done].
      by rewrite lookup_alter_eq.
    + assert (bool_decide (k ∈ u :: ids) = bool_decide (k ∈ ids)) as ->.
      { apply bool_decide_ext. set_solver. }
      destruct (updated (users (db s)) u); [|done].
      by rewrite lookup_alter_ne.
Qed.

End Loop.

Section Runs.

Variable fails : Op → bool.

Lemma bind_ok {A B} (m : M A) (k : A → M B) s a s' :
  m s = (Ok a, s') → bind m k s = k a s'.
Proof. unfold bind. by intros ->. Qed.

Lemma bind_throw {A B} (m : M A) (k : A → M B) s s' :
  m s = (Throw, s') → bind m k s = (Throw, s').
Proof. unfold bind. by intros ->. Qed.

Definition logged (op : Op) (d : Db) (s : St) : St := mkSt d (log s ++ [op]).

Lemma call_fails {A} op (run : Db → Res A * Db) s :
  fails op = true → call fails op run s = (Throw, logged op (db s) s).
Proof. unfold call. by intros ->. Qed.

Lemma call_runs {A} op (run : Db → Res A * Db) s r d :
  fails op = false → run (db s) = (r, d) →
  call fails op run s = (r, logged op d s).
Proof. unfold call. by intros -> ->. Qed.

Lemma getMeeting_ok id s :
  fails (GetMeeting id) = false →
  getMeeting fails id s = (Ok (meetings (db s) !! id), logged (GetMeeting id) (db s) s).
Proof. intros. by apply call_runs. Qed.

Lemma deleteMeeting_ok id s :
  fails (DeleteMeeting id) = false →
  deleteMeeting fails id s
    = (Ok tt, logged (DeleteMeeting id) (set_meetings (delete id) (db s)) s).
Proof. intros. by apply call_runs. Qed.

Lemma deleteSpace_ok id s :
  fails (DeleteSpace id) = false →
  deleteSpace fails id s
    = (Ok tt, logged (DeleteSpace id) (set_spaces (delete id) (db s)) s).
Proof. intros. by apply call_runs. Qed.

End Runs.

Inductive Service := Control | ClientSimple.

Definition endMeetingOf (svc : Service) :=
  match svc with
  | Control => AdminMeetingControlService.endMeetingForAllUsers
  | ClientSimple => AdminMeetingClientSimpleService.endMeetingForAllUsers
  end.

Definition deleteMeetingOf (svc : Service) :=
  match svc with
  | Control => AdminMeetingControlService.deleteMeetingCompletely
  | ClientSimple => AdminMeetingClientSimpleService.deleteMeetingCompletely
  end.

Definition uniqueUserIds (m : MeetingDoc) : list string :=
  uniq (m_attendees m ++ [m_creatorId m]).

Lemma updateMeetingUnion_refused fails id fields element s :
  sentinelFree element = false →
  updateMeetingUnion fails id fields element s
    = (Throw, logged (UpdateMeeting id) (db s) s).
Proof. unfold updateMeetingUnion. by intros ->. Qed.

(** The three ways [endMeetingForAllUsers] ends: the read of the meeting
    raises, the meeting is not found, or the meeting update is refused. *)
Lemma endMeeting_spec svc fails now nowIso mid adminId adminName reason s :
  endMeetingOf svc fails now nowIso mid adminId adminName reason s
    = if fails (GetMeeting mid)
      then (mkResponse false "Failed to end meeting" (Some []),
            logged (GetMeeting mid) (db s) s)
      else match meetings (db s) !! mid with
           | None => (mkResponse false "Meeting not found" (Some []),
                      logged (GetMeeting mid) (db s) s)
           | Some _ => (mkResponse false "Failed to end meeting" (Some []),
                        logged (UpdateMeeting mid) (db s)
                          (logged (GetMeeting mid) (db s) s))
           end.
Proof.
  destruct svc; simpl;
    [unfold AdminMeetingControlService.endMeetingForAllUsers
    |unfold AdminMeetingClientSimpleService.endMeetingForAllUsers];
    unfold catching;
    (destruct (fails (GetMeeting mid)) eqn:Hg;
     [by erewrite bind_throw by (by apply call_fails)|]);
    (erewrite bind_ok by (by apply getMeeting_ok));
    (destruct (meetings (db s) !! mid) as [m|]; [|done]);
    by erewrite bind_throw by (by apply updateMeetingUnion_refused).
Qed.

Lemma deleteMeeting_control_spec fails now mid adminId adminName reason s m sid :
  meetings (db s) !! mid = Some m →
  truthy (m_spaceId m) = Some sid →
  fails (GetMeeting mid) = false →
  fails (DeleteMeeting mid) = false →
  fails (DeleteSpace sid) = false →
  ∃ resp s',
    AdminMeetingControlService.deleteMeetingCompletely
      fails now mid adminId adminName reason s = (resp, s') ∧
    success resp = true ∧
    affectedUsers resp
      = Some (filter (λ u, updated fails (users (db s)) u) (uniqueUserIds m)) ∧
    meetings (db s') = delete mid (meetings (db s)) ∧
    spaces (db s') = delete sid (spaces (db s)) ∧
    ∀ k, users (db s') !! k =
         if bool_decide (k ∈ uniqueUserIds m) && updated fails (users (db s)) k
         then hide now (m_spaceId m) <$> users (db s) !! k
         else users (db s) !! k.
Proof.
  intros Hm Hsid Hg Hdm Hds.
  unfold AdminMeetingControlService.deleteMeetingCompletely, catching.
  erewrite bind_ok by (by apply getMeeting_ok).
  rewrite Hm.
  destruct (forEachUser_spec fails now (m_spaceId m) (uniqueUserIds m)
              (uniq_NoDup _) [] (logged (GetMeeting mid) (db s) s))
    as (s1 & Hrun & Hlog & Hms & Hsp & Hus).
  unfold uniqueUserIds in Hrun. erewrite bind_ok by exact Hrun.
  erewrite bind_ok by (by apply deleteMeeting_ok).
  rewrite Hsid.
  erewrite bind_ok by (by apply deleteSpace_ok).
  unfold ret. eexists _, _. split; [done|]. simpl.
  rewrite Hms, Hsp. split_and!; try done.
Qed.

Definition removeAttendeeOf (svc : Service) :=
  match svc with
  | Control => AdminMeetingControlService.removeAttendeeFromMeeting
  | ClientSimple => AdminMeetingClientSimpleService.removeAttendeeFromMeeting
  end.

(** The three ways [removeAttendeeFromMeeting] ends, likewise. *)
Lemma removeAttendee_spec svc fails now mid a adminId adminName reason s :
  removeAttendeeOf svc fails now mid a adminId adminName reason s
    = if fails (GetMeeting mid)
      then (mkResponse false "Failed to remove attendee from meeting" None,
            logged (GetMeeting mid) (db s) s)
      else match meetings (db s) !! mid with
           | None => (mkResponse false "Meeting not found" None,
                      logged (GetMeeting mid) (db s) s)
           | Some _ => (mkResponse false "Failed to remove attendee from meeting" None,
                        logged (UpdateMeeting mid) (db s)
                          (logged (GetMeeting mid) (db s) s))
           end.
Proof.
  destruct svc; simpl;
    [unfold AdminMeetingControlService.removeAttendeeFromMeeting
    |unfold AdminMeetingClientSimpleService.removeAttendeeFromMeeting];
    unfold catching;
    (destruct (fails (GetMeeting mid)) eqn:Hg;
     [by erewrite bind_throw by (by apply call_fails)|]);
    (erewrite bind_ok by (by apply getMeeting_ok));
    (destruct (meetings (db s) !! mid) as [m|]; [|done]);
    by erewrite bind_throw by (by apply updateMeetingUnion_refused).
Qed.

(** *** A sample database

    One meeting with a space; of its attendees ["alice"] and ["bob"] and its
    creator ["carol"], only ["bob"] and ["carol"] have a user record. *)

Definition sample_user (email : string) : UserDoc :=
  mkUserDoc (Some email) "user"
    [mkPendingSpace (Some "s1") "Standup"; mkPendingSpace (Some "s2") "Retro"]
    ["s0"] None.

Definition sample_meeting : MeetingDoc :=
  mkMeetingDoc (Some "s1") ["alice"; "bob"] "carol" "active" None None None [].

Definition sample_db : Db :=
  mkDb {[ "m1" := sample_meeting ]}
       {[ "s1" := mkSpaceDoc true None "" None None ["bob"; "carol"] ]}
       (<["bob" := sample_user "bob"]> {[ "carol" := sample_user "carol" ]}).

Definition sample_state : St := mkSt sample_db [].

Definition no_failure : Op → bool := λ _, false.

(** The environment in which the update of ["bob"]'s record fails. *)
Definition bob_update_fails : Op → bool := λ op, bool_decide (op = UpdateUser "bob").

(** C1 (what the code does).  [endMeetingForAllUsers] (either service) never
    gets to its loop over the users.  The meeting update hands
    [serverTimestamp()] to [arrayUnion], which the database client refuses:
    for a meeting that is read, the call ends in the outer [catch] after the
    read and the refused update, with [success: false], the message "Failed
    to end meeting" and no affected users.  Whatever the input, no user
    record is read, no dashboard-removal update is attempted, and the
    database is left as it was. *)
Theorem endMeeting_never_reaches_the_users
    svc fails now nowIso mid adminId adminName reason s :
  let r := endMeetingOf svc fails now nowIso mid adminId adminName reason s in
  success r.1 = false ∧
  affectedUsers r.1 = Some [] ∧
  db r.2 = db s ∧
  userReads (log r.2) = userReads (log s) ∧
  userUpdateAttempts (log r.2) = userUpdateAttempts (log s) ∧
  (∀ m, meetings (db s) !! mid = Some m → fails (GetMeeting mid) = false →
        message r.1 = "Failed to end meeting" ∧
        log r.2 = log s ++ [GetMeeting mid; UpdateMeeting mid]).
Proof.
  simpl. rewrite endMeeting_spec.
  destruct (fails (GetMeeting mid)) eqn:Hg.
  { simpl. rewrite userReads_app, userUpdateAttempts_app, !app_nil_r.
    split_and!; try done. }
  destruct (meetings (db s) !! mid) as [m|] eqn:Hm; simpl;
    rewrite ?userReads_app, ?userUpdateAttempts_app, ?app_nil_r;
    split_and!; try done.
  intros _ _ _. by rewrite <-app_assoc.
Qed.

(** C1 at a concrete input: no call fails, the meeting has the three unique
    ids ["alice"], ["bob"] and ["carol"], and either service returns the
    failure after the read of the meeting and the refused update, with the
    database as it was. *)
Example endMeeting_sample_is_refused :
  uniqueUserIds sample_meeting = ["alice"; "bob"; "carol"] ∧
  endMeetingOf ClientSimple no_failure 7 "2025" "m1" "root" "Root" None sample_state
    = (mkResponse false "Failed to end meeting" (Some []),
       mkSt sample_db [GetMeeting "m1"; UpdateMeeting "m1"]) ∧
  endMeetingOf Control no_failure 7 "2025" "m1" "root" "Root" None sample_state
    = (mkResponse false "Failed to end meeting" (Some []),
       mkSt sample_db [GetMeeting "m1"; UpdateMeeting "m1"]).
Proof. by vm_compute. Qed.

(** C2.  For a meeting with an associated space, when the meeting is read
    and the two deletions go through, [deleteMeetingCompletely] (either
    service) returns success, the meeting record and the space record are
    absent afterwards, and every affected user -- every unique id of
    attendees and creator whose record was found and updated -- has the
    deleted space's id in [hiddenMeetings]. *)
Theorem deleteMeeting_removes_meeting_space_and_hides
    svc fails now mid adminId adminName reason s m sid :
  meetings (db s) !! mid = Some m →
  truthy (m_spaceId m) = Some sid →
  fails (GetMeeting mid) = false →
  fails (DeleteMeeting mid) = false →
  fails (DeleteSpace sid) = false →
  ∃ resp s' affected,
    deleteMeetingOf svc fails now mid adminId adminName reason s = (resp, s') ∧
    success resp = true ∧
    meetings (db s') !! mid = None ∧
    spaces (db s') !! sid = None ∧
    affectedUsers resp = Some affected ∧
    (∀ u, u ∈ affected ↔ u ∈ uniqueUserIds m ∧ updated fails (users (db s)) u) ∧
    (∀ u, u ∈ affected →
          ∃ d, users (db s') !! u = Some d ∧ sid ∈ u_hiddenMeetings d).
Proof.
  intros Hm Hsid Hg Hdm Hds.
  destruct (deleteMeeting_control_spec fails now mid adminId adminName reason
              s m sid Hm Hsid Hg Hdm Hds)
    as (resp & s' & Hrun & Hok & Haff & Hms & Hsp & Hus).
  exists resp, s', (filter (λ u, updated fails (users (db s)) u) (uniqueUserIds m)).
  split_and!; try done.
  - by destruct svc.
  - rewrite Hms. apply lookup_delete_eq.
  - rewrite Hsp. apply lookup_delete_eq.
  - intros u. rewrite list_elem_of_filter. tauto.
  - intros u [Hupd Hin]%list_elem_of_filter.
    rewrite Hus, (bool_decide_eq_true_2 _ Hin).
    destruct (updated fails (users (db s)) u) eqn:Hu; [|done]. simpl.
    unfold updated, found in Hu.
    apply andb_prop in Hu as [[_ Hex%bool_decide_eq_true]%andb_prop _].
    destruct Hex as [d0 ->]. eexists. split; [done|].
    simpl. rewrite Hsid. set_solver.
Qed.

Lemma deleteMeeting_removes_meeting_space_and_hides_witness :
  meetings (db sample_state) !! "m1" = Some sample_meeting ∧
  truthy (m_spaceId sample_meeting) = Some "s1" ∧
  ∃ resp s' affected,
    deleteMeetingOf ClientSimple bob_update_fails 7 "m1" "root" "Root" None
      sample_state = (resp, s') ∧
    success resp = true ∧
    meetings (db s') !! "m1" = None ∧
    spaces (db s') !! "s1" = None ∧
    affectedUsers resp = Some affected ∧
    (∀ u, u ∈ affected ↔ u ∈ uniqueUserIds sample_meeting
                         ∧ updated bob_update_fails (users (db sample_state)) u) ∧
    (∀ u, u ∈ affected →
          ∃ d, users (db s') !! u = Some d ∧ "s1" ∈ u_hiddenMeetings d).
Proof.
  assert (H1 : meetings (db sample_state) !! "m1" = Some sample_meeting)
    by reflexivity.
  assert (H2 : truthy (m_spaceId sample_meeting) = Some "s1") by reflexivity.
  split_and!; try done.
  exact (deleteMeeting_removes_meeting_space_and_hides ClientSimple
           bob_update_fails 7 "m1" "root" "Root" None sample_state
           sample_meeting "s1" H1 H2 eq_refl eq_refl eq_refl).
Defined.

(** C5 (what the code does).  [removeAttendeeFromMeeting] (either service)
    never removes anyone.  Its meeting update hands [serverTimestamp()] to
    [arrayUnion] as well and is refused: for a meeting that is read, the call
    ends in the outer [catch] with [success: false] and the message "Failed
    to remove attendee from meeting", the attendee list of the meeting is
    the original one, and the attendee's user record is neither looked up
    nor updated.  Whatever the input, the database is left as it was. *)
Theorem removeAttendee_never_changes_the_meeting
    svc fails now mid a adminId adminName reason s :
  let r := removeAttendeeOf svc fails now mid a adminId adminName reason s in
  success r.1 = false ∧
  db r.2 = db s ∧
  userUpdateAttempts (log r.2) = userUpdateAttempts (log s) ∧
  (∀ m, meetings (db s) !! mid = Some m → fails (GetMeeting mid) = false →
        message r.1 = "Failed to remove attendee from meeting" ∧
        log r.2 = log s ++ [GetMeeting mid; UpdateMeeting mid] ∧
        (m_attendees <$> meetings (db r.2) !! mid) = Some (m_attendees m)).
Proof.
  simpl. rewrite removeAttendee_spec.
  destruct (fails (GetMeeting mid)) eqn:Hg.
  { simpl. rewrite userUpdateAttempts_app, !app_nil_r. split_and!; try done. }
  destruct (meetings (db s) !! mid) as [m|] eqn:Hm; simpl;
    rewrite ?userUpdateAttempts_app, ?app_nil_r; split_and!; try done.
  intros m' [= <-] _. rewrite Hm. by rewrite <-app_assoc.
Qed.

(** C5 at a concrete input: ["bob"] is an attendee of the sample meeting and
    no call fails; either service returns the failure, ["bob"] is still an
    attendee and his user record is as before. *)
Example removeAttendee_sample_is_refused :
  removeAttendeeOf ClientSimple no_failure 7 "m1" "bob" "root" "Root" None
    sample_state
    = (mkResponse false "Failed to remove attendee from meeting" None,
       mkSt sample_db [GetMeeting "m1"; UpdateMeeting "m1"]) ∧
  removeAttendeeOf Control no_failure 7 "m1" "bob" "root" "Root" None sample_state
    = (mkResponse false "Failed to remove attendee from meeting" None,
       mkSt sample_db [GetMeeting "m1"; UpdateMeeting "m1"]) ∧
  (m_attendees <$> meetings sample_db !! "m1") = Some ["alice"; "bob"] ∧
  users sample_db !! "bob" = Some (sample_user "bob").
Proof. by vm_compute. Qed.

End AdminFacts.

(** ** Properties of the mesh session *)

Module MeshFacts.
Import JS Mesh.

#[global] Instance Listener_eq_dec : EqDecision Listener.
Proof. solve_decision. Defined.

(** What links a peer connection to the connections map: the participant it
    was created for, and whether it has been closed. *)
Definition link (pc : RTCPeerConnection) : string * bool :=
  (pc_participantId pc, pc_closed pc).

Definition links (s : Session) : list (string * bool) := link <$> pcs s.

(** The candidates handed to the browser, among the calls made on a peer
    connection. *)
Definition isAddIceCandidate (c : PCCall) : bool :=
  match c with
  | CallAddIceCandidate _ _ => true
  | _ => false
  end.

Definition isClose (c : PCCall) : bool :=
  match c with
  | CallClose => true
  | _ => false
  end.

(** What holds of every peer connection of a session: no candidate was ever
    added to it, and it is closed exactly when [close()] was called on it. *)
Definition pc_ok (pc : RTCPeerConnection) : Prop :=
  iceCandidates pc = [] ∧
  filter (λ c, isAddIceCandidate c) (pc_calls pc) = [] ∧
  (pc_closed pc = true ↔ CallClose ∈ pc_calls pc).

(** The part of the invariant that does not mention the room. *)
Record Core (s : Session) : Prop := mkCore {
  core_conn : ∀ p c, connections s !! p = Some c →
                participantId c = p ∧ links s !! peerConnection c = Some (p, false);
  core_open : ∀ r q, links s !! r = Some (q, false) →
                ∃ c, connections s !! q = Some c ∧ peerConnection c = r;
  core_dom : dom (connections s) = dom (participants s);
  core_cand : candidateListeners s = [];
  core_pcs : Forall pc_ok (pcs s)
}.

(** The invariant of a session. *)
Record Inv (s : Session) : Prop := mkInv {
  inv_core : Core s;
  inv_active : unsubscribe s = Active →
               dom (connections s) = dom (room_participants s) ∖ {[currentUserId s]};
  inv_inactive : unsubscribe s ≠ Active → connections s = ∅
}.

Lemma links_alter_same f r s :
  (∀ pc, link (f pc) = link pc) → links (set_pcs (alter f r) s) = links s.
Proof.
  intros Hf. unfold links. simpl.
  rewrite (list_fmap_alter link f id).
  - by apply list_alter_id.
  - apply Forall_forall. intros pc _. apply Hf.
Qed.

Lemma links_close r s :
  links (set_pcs (alter close r) s) = alter (λ l, (l.1, true)) r (links s).
Proof.
  unfold links. simpl. apply list_fmap_alter, Forall_forall. by intros pc _.
Qed.

Lemma pc_ok_new p st tracks :
  pc_ok (mkPC p st false None None [] "new" (CallAddTrack <$> tracks)).
Proof.
  assert (H : ∀ P `{∀ c, Decision (P c)}, (∀ t, ¬ P (CallAddTrack t)) →
              filter P (CallAddTrack <$> tracks) = []).
  { intros P ? HP. induction tracks as [|t l IH]; [done|]. simpl.
    rewrite filter_cons, decide_False by apply HP. done. }
  split_and!; simpl; try done.
  - apply H. intros t. simpl. tauto.
  - split; [done|]. intros (t & ? & _)%list_elem_of_fmap. done.
Qed.

Lemma pc_ok_setLocalDescription offer pc :
  pc_ok pc → pc_ok (setLocalDescription offer pc).
Proof.
  intros (H1 & H2 & H4). unfold pc_ok in *. simpl.
  rewrite !filter_app, H2, H4, elem_of_app. simpl.
  rewrite !filter_cons, !filter_nil. simpl.
  split_and!; try done. set_solver.
Qed.

Lemma pc_ok_setRemoteDescription answer pc :
  pc_ok pc → pc_ok (setRemoteDescription answer pc).
Proof.
  intros (H1 & H2 & H4). unfold pc_ok in *. simpl.
  rewrite !filter_app, H2, H4, elem_of_app. simpl.
  rewrite !filter_cons, !filter_nil. simpl.
  split_and!; try done. set_solver.
Qed.

Lemma pc_ok_remoteDescriptionSet answer pc :
  pc_ok pc → pc_ok (remoteDescriptionSet answer pc).
Proof. done. Qed.

Lemma pc_ok_close pc : pc_ok pc → pc_ok (close pc).
Proof.
  intros (H1 & H2 & H4). unfold pc_ok in *. simpl.
  rewrite !filter_app, H2, elem_of_app. simpl.
  rewrite !filter_cons, !filter_nil. simpl.
  split_and!; try done. set_solver.
Qed.

Lemma pc_ok_set_connectionState st pc : pc_ok pc → pc_ok (set_connectionState st pc).
Proof. done. Qed.

(** The open peer connections created for participant [p]: the active
    PeerLinks between the local user and [p]. *)
Definition activeLink (s : Session) (p : string) (r : nat) : Prop :=
  ∃ pc, pcs s !! r = Some pc ∧ pc_participantId pc = p ∧ pc_closed pc = false.

Definition atMostOnePeerLink (s : Session) (p : string) : Prop :=
  ∀ r r', activeLink s p r → activeLink s p r' → r = r'.

Definition exactlyOnePeerLink (s : Session) (p : string) : Prop :=
  ∃ c, connections s !! p = Some c ∧ participantId c = p ∧
       ∀ r, activeLink s p r ↔ r = peerConnection c.

Lemma activeLink_links s p r : activeLink s p r ↔ links s !! r = Some (p, false).
Proof.
  unfold activeLink, links. rewrite list_lookup_fmap. split.
  - intros (pc & -> & <- & <-). done.
  - destruct (pcs s !! r) as [pc|]; [|done]. intros [= <- Hc]. by exists pc.
Qed.

Lemma Core_atMostOne s p : Core s → atMostOnePeerLink s p.
Proof.
  intros [_ H2 _ _ _] r r' Hr%activeLink_links Hr'%activeLink_links.
  destruct (H2 r p Hr) as (c & Hc & <-), (H2 r' p Hr') as (c' & Hc' & <-).
  congruence.
Qed.

Lemma Core_exactlyOne s p :
  Core s → p ∈ dom (connections s) → exactlyOnePeerLink s p.
Proof.
  intros [H1 H2 _ _ _] [c Hc]%elem_of_dom. destruct (H1 p c Hc) as [Hid Hl].
  exists c. split_and!; [done..|]. intros r. rewrite activeLink_links. split.
  - intros Hr. destruct (H2 r p Hr) as (c' & Hc' & <-). congruence.
  - by intros ->.
Qed.

(** [close()] on each of the peer connections [refs]. *)
Definition closeAll (refs : list nat) (h : list RTCPeerConnection) : list RTCPeerConnection :=
  foldl (λ h' r, alter close r h') h refs.

Lemma closeAll_link refs h r :
  (link <$> closeAll refs h) !! r
    = (λ l, if bool_decide (r ∈ refs) then (l.1, true) else l) <$> (link <$> h) !! r.
Proof.
  revert h. induction refs as [|a refs IH]; intros h; simpl.
  { by destruct ((link <$> h) !! r). }
  rewrite IH. rewrite (list_fmap_alter link close (λ l, (l.1, true)))
    by (apply Forall_forall; by intros pc _).
  rewrite list_lookup_alter.
  destruct (decide (a = r)) as [->|Hne].
  - rewrite (bool_decide_eq_true_2 (r ∈ r :: refs)) by set_solver.
    destruct ((link <$> h) !! r) as [[q b]|]; simpl; [|done].
    by case_bool_decide.
  - assert (bool_decide (r ∈ a :: refs) = bool_decide (r ∈ refs)) as ->; [|done].
    apply bool_decide_ext. set_solver.
Qed.

Lemma closeAll_notin refs h r : r ∉ refs → closeAll refs h !! r = h !! r.
Proof.
  revert h. induction refs as [|a refs IH]; intros h Hr; simpl; [done|].
  rewrite IH by set_solver. apply list_lookup_alter_ne. set_solver.
Qed.

Lemma closeAll_ok refs h : Forall pc_ok h → Forall pc_ok (closeAll refs h).
Proof.
  revert h. induction refs as [|a refs IH]; intros h Hh; simpl; [done|].
  apply IH, Forall_alter; [done|]. intros pc _. apply pc_ok_close.
Qed.

(** The peer connections held in the connections map. *)
Definition heldConnections (s : Session) : list nat :=
  peerConnection <$> (map_to_list (connections s)).*2.

Lemma elem_of_heldConnections s p c :
  connections s !! p = Some c → peerConnection c ∈ heldConnections s.
Proof.
  intros H. apply list_elem_of_fmap. exists c. split; [done|].
  apply list_elem_of_fmap. exists (p, c). split; [done|].
  by apply elem_of_map_to_list.
Qed.

Section Handlers.

Variable autoId : gset string → string.
Variable browserOffer : nat → option SDP.
Variable now : nat.

Abbreviation createOffer := (createOffer autoId browserOffer now).
Abbreviation handleParticipantJoined := (handleParticipantJoined autoId browserOffer now).
Abbreviation onParticipantChange := (onParticipantChange autoId browserOffer now).
Abbreviation initialize := (initialize autoId browserOffer now).
Abbreviation step := (step autoId browserOffer now).
Abbreviation run := (run autoId browserOffer now).

(** The fields a handler leaves as they are. *)
Definition same_manager (s s' : Session) : Prop :=
  currentUserId s' = currentUserId s ∧
  localStream s' = localStream s ∧
  unsubscribe s' = unsubscribe s ∧
  candidateListeners s' = candidateListeners s ∧
  room_participants s' = room_participants s.

Lemma createOffer_frame p s :
  same_manager s (createOffer p s) ∧
  connections (createOffer p s) = connections s ∧
  participants (createOffer p s) = participants s ∧
  links (createOffer p s) = links s ∧
  (Forall pc_ok (pcs s) → Forall pc_ok (pcs (createOffer p s))).
Proof.
  unfold createOffer, same_manager.
  destruct (connections s !! p) as [c|]; [|done].
  destruct (browserOffer (peerConnection c)) as [offer|]; [|done].
  split_and!; try done.
  - by apply (links_alter_same (setLocalDescription offer) (peerConnection c) s).
  - intros H. simpl. apply Forall_alter; [done|].
    intros pc _. apply pc_ok_setLocalDescription.
Qed.

Lemma createOffer_Core p s : Core s → Core (createOffer p s).
Proof.
  intros [H1 H2 H3 H4 H5].
  destruct (createOffer_frame p s) as ((_ & _ & _ & Hc & _) & Hcon & Hpar & Hl & Hok).
  constructor; rewrite ?Hcon, ?Hpar, ?Hl, ?Hc; auto.
Qed.

Lemma links_length s : length (links s) = length (pcs s).
Proof. apply length_fmap. Qed.

Lemma handleParticipantJoined_spec p d s :
  Core s → connections s !! p = None →
  Core (handleParticipantJoined p d s) ∧
  same_manager s (handleParticipantJoined p d s) ∧
  connections (handleParticipantJoined p d s)
    = <[p := mkConnection p (length (pcs s)) (length (streams s)) false true]>
        (connections s) ∧
  participants (handleParticipantJoined p d s) = <[p := d]> (participants s) ∧
  links (handleParticipantJoined p d s) = links s ++ [(p, false)].
Proof.
  intros [H1 H2 H3 H4 H5] Hp. unfold handleParticipantJoined.
  set (s4 := set_participants _ _).
  assert (Hl4 : links s4 = links s ++ [(p, false)]).
  { unfold links, s4. simpl. by rewrite fmap_app. }
  assert (Core s4) as HC.
  { constructor; simpl; rewrite ?Hl4.
    - intros q c [[-> <-]|[Hne Hq]]%lookup_insert_Some.
      + split; [done|]. simpl. rewrite <-links_length. by apply list_lookup_middle.
      + destruct (H1 q c Hq) as [? Hr]. split; [done|].
        rewrite lookup_app_l; [done|]. by eapply lookup_lt_Some.
    - intros r q [Hr|[Hr1 Hr2]]%lookup_app_Some.
      + destruct (H2 r q Hr) as (c & Hc & <-). exists c. split; [|done].
        rewrite lookup_insert_ne; [done|]. congruence.
      + apply list_lookup_singleton_Some in Hr2 as [Hr2 [= <-]].
        eexists. rewrite lookup_insert_eq. split; [done|]. simpl.
        rewrite links_length in *. lia.
    - by rewrite !dom_insert_L, H3.
    - done.
    - apply Forall_app. split; [done|]. apply Forall_singleton, pc_ok_new. }
  destruct (createOffer_frame p s4) as (Hm & Hcon & Hpar & Hl & _).
  split_and!.
  - by apply createOffer_Core.
  - done.
  - by rewrite Hcon.
  - by rewrite Hpar.
  - by rewrite Hl.
Qed.

Lemma handleParticipantLeft_spec p s :
  Core s →
  Core (handleParticipantLeft p s) ∧
  same_manager s (handleParticipantLeft p s) ∧
  connections (handleParticipantLeft p s) = delete p (connections s) ∧
  participants (handleParticipantLeft p s) = delete p (participants s).
Proof.
  intros [H1 H2 H3 H4 H5]. unfold handleParticipantLeft.
  destruct (connections s !! p) as [c|] eqn:Hp.
  - destruct (H1 p c Hp) as [Hid Hr].
    set (s' := set_participants _ _).
    assert (Hl : links s' = alter (λ l, (l.1, true)) (peerConnection c) (links s))
      by exact (links_close _ s).
    split_and!; try done.
    constructor; simpl; rewrite ?Hl.
    + intros q c' [Hne Hq]%lookup_delete_Some.
      destruct (H1 q c' Hq) as [? Hr']. split; [done|].
      rewrite list_lookup_alter_ne; [done|].
      intros Heq. rewrite Heq in Hr. congruence.
    + intros r q. rewrite list_lookup_alter.
      case_decide as Hd.
      * subst r. rewrite Hr. simpl. congruence.
      * intros Hq. destruct (H2 r q Hq) as (c' & Hc' & <-).
        exists c'. split; [|done]. rewrite lookup_delete_ne; [done|].
        intros <-. congruence.
    + by rewrite !dom_delete_L, H3.
    + done.
    + apply Forall_alter; [done|]. intros pc _. apply pc_ok_close.
  - split_and!; try done.
    + constructor; simpl; auto.
      rewrite H3, dom_delete_L.
      apply not_elem_of_dom in Hp. rewrite H3 in Hp. set_solver.
    + by rewrite delete_id.
Qed.

Lemma onAnswerSnapshot_frame l docs s :
  same_manager s (onAnswerSnapshot l docs s) ∧
  connections (onAnswerSnapshot l docs s) = connections s ∧
  participants (onAnswerSnapshot l docs s) = participants s ∧
  links (onAnswerSnapshot l docs s) = links s ∧
  (Forall pc_ok (pcs s) → Forall pc_ok (pcs (onAnswerSnapshot l docs s))).
Proof.
  unfold onAnswerSnapshot, same_manager.
  destruct (answerListeners s !! l) as [al|]; [|done].
  destruct (al_active al); [|done].
  destruct docs as [|answerData docs]; [done|].
  destruct (connections s !! al_participantId al) as [c|]; [|done].
  destruct (pcs s !! peerConnection c) as [pc|] eqn:Hpc; [|done].
  destruct (currentRemoteDescription pc) eqn:Hrd; [done|].
  split_and!; try done.
  - by apply (links_alter_same (setRemoteDescription (an_answer answerData))
                (peerConnection c) s).
  - intros H. simpl. apply Forall_alter; [done|]. intros pc' _.
    apply pc_ok_setRemoteDescription.
Qed.

Lemma onAnswerSnapshot_Core l docs s : Core s → Core (onAnswerSnapshot l docs s).
Proof.
  intros [H1 H2 H3 H4 H5].
  destruct (onAnswerSnapshot_frame l docs s)
    as ((_ & _ & _ & Hc & _) & Hcon & Hpar & Hl & Hok).
  constructor; rewrite ?Hcon, ?Hpar, ?Hl, ?Hc; auto.
Qed.

Lemma onAnswerSettled_frame i ok s :
  same_manager s (onAnswerSettled i ok s) ∧
  connections (onAnswerSettled i ok s) = connections s ∧
  participants (onAnswerSettled i ok s) = participants s ∧
  links (onAnswerSettled i ok s) = links s ∧
  (Forall pc_ok (pcs s) → Forall pc_ok (pcs (onAnswerSettled i ok s))).
Proof.
  unfold onAnswerSettled, same_manager.
  destruct (pendingAnswers s !! i) as [w|]; [|done].
  destruct ok; [|done].
  split_and!; try done.
  - by apply (links_alter_same (remoteDescriptionSet (pa_answer w))
                (pa_peerConnection w) (set_pendingAnswers (delete i) s)).
  - intros H. simpl. apply Forall_alter; [done|]. intros pc' _.
    apply pc_ok_remoteDescriptionSet.
Qed.

Lemma onAnswerSettled_Core i ok s : Core s → Core (onAnswerSettled i ok s).
Proof.
  intros [H1 H2 H3 H4 H5].
  destruct (onAnswerSettled_frame i ok s)
    as ((_ & _ & _ & Hc & _) & Hcon & Hpar & Hl & Hok).
  constructor; rewrite ?Hcon, ?Hpar, ?Hl, ?Hc; auto.
Qed.

Lemma leave_spec s s' :
  leave now s = Some s' →
  currentUserId s' = currentUserId s ∧
  candidateListeners s' = candidateListeners s ∧
  answerListeners s' = answerListeners s ∧
  streams s' = streams s ∧
  connections s' = ∅ ∧
  participants s' = ∅ ∧
  pcs s' = closeAll (heldConnections s) (pcs s) ∧
  unsubscribe s' = match unsubscribe s with
                   | NotRegistered => NotRegistered
                   | _ => Cancelled
                   end ∧
  dom (room_participants s') = dom (room_participants s).
Proof using now.
  clear autoId browserOffer.
  unfold leave. destruct (room_participants s !! currentUserId s) as [d|] eqn:Hd; [|done].
  intros [= <-].
  assert (Hdom : dom (<[currentUserId s := mkParticipantDoc (p_userId d) (p_joinedAt d)
                                            false (Some now)]> (room_participants s))
                 = dom (room_participants s)).
  { rewrite dom_insert_L. apply elem_of_dom_2 in Hd. set_solver. }
  assert (Hpcs : foldl (λ h' c, alter close (peerConnection c) h') (pcs s)
                   (map_to_list (connections s)).*2
                 = closeAll (heldConnections s) (pcs s)).
  { unfold closeAll, heldConnections. symmetry.
    apply (foldl_fmap (λ h' r, alter close r h') (pcs s) _ peerConnection). }
  destruct (unsubscribe s) eqn:Hu; simpl; rewrite ?Hu; simpl; by split_and!.
Qed.

Lemma leave_Core s s' : Core s → leave now s = Some s' → Core s'.
Proof.
  intros [H1 H2 H3 H4 H5] Hl.
  destruct (leave_spec s s' Hl) as (Hme & Hc & _ & _ & Hcon & Hpar & Hpcs & _).
  constructor; rewrite ?Hcon, ?Hpar, ?Hc; try done.
  - intros r q. unfold links. rewrite Hpcs, closeAll_link.
    fold (links s). destruct (links s !! r) as [[q' b]|] eqn:Hr; simpl; [|done].
    case_bool_decide as Hin; [done|]. intros [= -> ->].
    destruct (H2 r q Hr) as (c & Hc' & <-).
    destruct Hin. by eapply elem_of_heldConnections.
  - rewrite Hpcs. by apply closeAll_ok.
Qed.

Lemma deliverCandidate_none candidateData ok s :
  candidateListeners s = [] → deliverCandidate candidateData ok s = s.
Proof. unfold deliverCandidate. by intros ->. Qed.

Lemma onconnectionstatechange_Core r pc st s :
  Core s →
  Core (onconnectionstatechange pc (set_pcs (alter (set_connectionState st) r) s)).
Proof.
  intros [H1 H2 H3 H4 H5].
  set (s' := onconnectionstatechange _ _).
  assert (Hl : links s' = links s)
    by by apply (links_alter_same (set_connectionState st) r s).
  constructor; simpl; rewrite ?Hl.
  - intros p c [[Heq (c' & Hc' & ->)]|[Hne Hc]]%lookup_alter_Some; simpl.
    + subst p. by apply H1.
    + by apply H1.
  - intros r' q Hq. destruct (H2 r' q Hq) as (c & Hc & <-).
    destruct (decide (pc_participantId pc = q)) as [<-|Hne].
    + eexists. rewrite lookup_alter_eq, Hc. simpl. done.
    + exists c. by rewrite lookup_alter_ne.
  - by rewrite dom_alter_L.
  - done.
  - apply Forall_alter; [done|]. by intros pc' _ ?.
Qed.

Lemma Core_same s s' :
  connections s' = connections s → participants s' = participants s →
  pcs s' = pcs s → candidateListeners s' = candidateListeners s →
  Core s → Core s'.
Proof.
  intros Hc Hp Hh Hl [H1 H2 H3 H4 H5].
  constructor; unfold links; rewrite ?Hc, ?Hp, ?Hh, ?Hl; done.
Qed.

(** A peer connection that is closed stays as it is. *)
Definition frozen (s s' : Session) : Prop :=
  ∀ r pc, pcs s !! r = Some pc → pc_closed pc = true → pcs s' !! r = Some pc.

Lemma frozen_refl s : frozen s s.
Proof. by intros r pc. Qed.

Lemma frozen_trans s1 s2 s3 : frozen s1 s2 → frozen s2 s3 → frozen s1 s3.
Proof. intros H12 H23 r pc Hr Hc. apply H23; [by apply H12|done]. Qed.

Lemma frozen_same s s' : pcs s' = pcs s → frozen s s'.
Proof. intros H r pc. by rewrite H. Qed.

Lemma frozen_alter_open f r s s' :
  pcs s' = alter f r (pcs s) →
  (∀ pc, pcs s !! r = Some pc → pc_closed pc = false) →
  frozen s s'.
Proof.
  intros Hs Hopen r' pc Hr Hc. rewrite Hs, list_lookup_alter_ne; [done|].
  intros ->. specialize (Hopen pc Hr). congruence.
Qed.

Lemma Core_held_open s p c pc :
  Core s → connections s !! p = Some c → pcs s !! peerConnection c = Some pc →
  pc_participantId pc = p ∧ pc_closed pc = false.
Proof.
  intros [H1 _ _ _ _] Hc Hpc. destruct (H1 p c Hc) as [_ Hl].
  unfold links in Hl. rewrite list_lookup_fmap, Hpc in Hl. simpl in Hl.
  by injection Hl.
Qed.

Lemma createOffer_frozen p s : Core s → frozen s (createOffer p s).
Proof.
  intros HC. unfold createOffer.
  destruct (connections s !! p) as [c|] eqn:Hc; [|apply frozen_refl].
  destruct (browserOffer (peerConnection c)) as [offer|]; [|apply frozen_refl].
  eapply frozen_alter_open; [done|]. intros pc Hpc.
  by eapply Core_held_open.
Qed.

Lemma handleParticipantJoined_frozen p d s :
  Core s → connections s !! p = None → frozen s (handleParticipantJoined p d s).
Proof.
  intros HC Hp r pc Hr Hcl.
  destruct (handleParticipantJoined_spec p d s HC Hp) as (_ & _ & _ & _ & Hl).
  assert (Hlk : links (handleParticipantJoined p d s) !! r = Some (link pc)).
  { rewrite Hl, lookup_app_l by (rewrite links_length; by eapply lookup_lt_Some).
    unfold links. by rewrite list_lookup_fmap, Hr. }
  unfold handleParticipantJoined, createOffer in *. simpl in *.
  rewrite lookup_insert_eq in *. simpl in *.
  assert (Hlt : r < length (pcs s)) by by eapply lookup_lt_Some.
  destruct (browserOffer (length (pcs s))); simpl.
  - rewrite list_lookup_alter_ne by lia. by rewrite lookup_app_l.
  - by rewrite lookup_app_l.
Qed.

Lemma handleParticipantLeft_frozen p s : Core s → frozen s (handleParticipantLeft p s).
Proof.
  intros HC. unfold handleParticipantLeft.
  destruct (connections s !! p) as [c|] eqn:Hc; [|by apply frozen_same].
  eapply frozen_alter_open; [done|]. intros pc Hpc. by eapply Core_held_open.
Qed.

Lemma onAnswerSnapshot_frozen l docs s :
  Core s → frozen s (onAnswerSnapshot l docs s).
Proof.
  intros HC. unfold onAnswerSnapshot.
  destruct (answerListeners s !! l) as [al|]; [|apply frozen_refl].
  destruct (al_active al); [|apply frozen_refl].
  destruct docs as [|answerData docs]; [apply frozen_refl|].
  destruct (connections s !! al_participantId al) as [c|] eqn:Hc; [|apply frozen_refl].
  destruct (pcs s !! peerConnection c) as [pc|] eqn:Hpc; [|apply frozen_refl].
  destruct (currentRemoteDescription pc) eqn:Hrd; [apply frozen_refl|].
  apply (frozen_alter_open (setRemoteDescription (an_answer answerData))
           (peerConnection c) s); [done|].
  intros pc' Hpc'. by eapply Core_held_open.
Qed.

Lemma onAnswerSettled_frozen i ok w s :
  pendingAnswers s !! i = Some w →
  is_Some (open_pc s (pa_peerConnection w)) →
  frozen s (onAnswerSettled i ok s).
Proof.
  intros Hw [pc Hpc]. unfold onAnswerSettled. rewrite Hw.
  destruct ok; [|by apply frozen_same].
  apply (frozen_alter_open (remoteDescriptionSet (pa_answer w))
           (pa_peerConnection w) s); [done|].
  intros pc' Hpc'. unfold open_pc in Hpc. rewrite Hpc' in Hpc.
  by destruct (pc_closed pc').
Qed.

Lemma elem_of_heldConnections_inv s r :
  r ∈ heldConnections s → ∃ p c, connections s !! p = Some c ∧ peerConnection c = r.
Proof.
  intros (c & -> & ([p c'] & -> & H%elem_of_map_to_list)%list_elem_of_fmap)%list_elem_of_fmap.
  by exists p, c'.
Qed.

Lemma leave_frozen s s' : Core s → leave now s = Some s' → frozen s s'.
Proof.
  intros HC Hl r pc Hr Hcl.
  destruct (leave_spec s s' Hl) as (_ & _ & _ & _ & _ & _ & -> & _).
  rewrite closeAll_notin; [done|].
  intros (p & c & Hc & <-)%elem_of_heldConnections_inv.
  destruct (Core_held_open s p c pc HC Hc Hr). congruence.
Qed.

(** The first snapshot of the participants listener: every document of the
    collection is reported as added. *)
Definition joinAll (l : list (string * ParticipantDoc)) (s : Session) : Session :=
  foldl (λ s' d, onParticipantChange added d.1 d.2 s') s l.

Lemma joinAll_spec l :
  NoDup l.*1 → ∀ s,
  Core s → (∀ id, id ∈ l.*1 → connections s !! id = None) →
  Core (joinAll l s) ∧ same_manager s (joinAll l s) ∧ frozen s (joinAll l s) ∧
  dom (connections (joinAll l s))
    = dom (connections s) ∪ list_to_set (filter (λ id, id ≠ currentUserId s) l.*1).
Proof.
  induction l as [|[id d] l IH]; intros Hnd s HC Hnew.
  { split_and!; [done|done|apply frozen_refl|set_solver]. }
  apply NoDup_cons in Hnd as [Hid Hnd].
  change (joinAll ((id, d) :: l) s) with (joinAll l (onParticipantChange added id d s)).
  rewrite fmap_cons, filter_cons. unfold onParticipantChange. simpl.
  destruct (decide (id ≠ currentUserId s)) as [Hne|Heq].
  - destruct (handleParticipantJoined_spec id d s HC) as (HC1 & Hm1 & Hc1 & _ & _).
    { apply Hnew. set_solver. }
    destruct (IH Hnd (handleParticipantJoined id d s) HC1) as (HC' & Hm' & Hf' & Hd').
    { intros id' Hin. rewrite Hc1, lookup_insert_ne by set_solver.
      apply Hnew. set_solver. }
    destruct Hm1 as (Hme & ? & ? & ? & ?), Hm' as (Hme' & ? & ? & ? & ?).
    split; [done|]. split; [unfold same_manager; split_and!; congruence|]. split.
    + eapply frozen_trans; [|done]. apply handleParticipantJoined_frozen; [done|].
      apply Hnew. set_solver.
    + rewrite Hd', Hc1, dom_insert_L, Hme. set_solver.
  - destruct (IH Hnd s HC) as (HC' & Hm' & Hf' & Hd').
    { intros id' Hin. apply Hnew. set_solver. }
    split_and!; try done.
Qed.

Lemma initialize_spec s :
  Core s → connections s = ∅ →
  Core (initialize s) ∧ frozen s (initialize s) ∧
  unsubscribe (initialize s) = Active ∧
  currentUserId (initialize s) = currentUserId s ∧
  dom (connections (initialize s))
    = dom (room_participants (initialize s)) ∖ {[currentUserId s]} ∧
  dom (room_participants s) ⊆ dom (room_participants (initialize s)).
Proof.
  intros HC Hempty. unfold initialize.
  set (s2 := set_unsubscribe Active _).
  fold (joinAll (map_to_list (room_participants (addParticipant autoId now (currentUserId s) s))) s2).
  destruct (joinAll_spec (map_to_list (room_participants s2))
              (NoDup_fst_map_to_list _) s2) as (HC' & Hm' & Hf' & Hd').
  { by apply (Core_same s). }
  { intros id _. change (connections s2) with (connections s). by rewrite Hempty. }
  destruct Hm' as (Hme & _ & Hu & _ & Hrp).
  split_and!; try done.
  - change (room_participants (addParticipant autoId now (currentUserId s) s))
      with (room_participants s2).
    rewrite Hd', Hrp. change (connections s2) with (connections s). rewrite Hempty.
    apply set_eq. intros x.
    rewrite elem_of_union, elem_of_list_to_set, list_elem_of_filter,
      elem_of_difference, dom_empty_L, (dom_alt (room_participants s2)),
      elem_of_list_to_set.
    change (currentUserId s2) with (currentUserId s). set_solver.
  - change (room_participants (addParticipant autoId now (currentUserId s) s))
      with (room_participants s2).
    rewrite Hrp. simpl.
    destruct (room_participants s !! currentUserId s); rewrite dom_insert_L; set_solver.
Qed.

Lemma open_pc_Some s r pc :
  open_pc s r = Some pc → pcs s !! r = Some pc ∧ pc_closed pc = false.
Proof.
  unfold open_pc. destruct (pcs s !! r) as [pc'|]; [|done].
  destruct (pc_closed pc') eqn:Hc; [done|]. by intros [= <-].
Qed.

Lemma step_Inv ev s :
  Inv s →
  Inv (step ev s) ∧ frozen s (step ev s) ∧
  currentUserId (step ev s) = currentUserId s.
Proof.
  intros [HC Ha Hi].
  destruct ev as [| |id data|id|l docs|i ok|cd ok|r tracks|r cand|r st]; simpl.
  - (* initialize *)
    destruct (unsubscribe s) eqn:Hu;
      try (split_and!; [by constructor; rewrite ?Hu|apply frozen_refl|done]).
    destruct (initialize_spec s HC) as (HC' & Hf & Hu' & Hme & Hd & _).
    { apply Hi. congruence. }
    split_and!; [constructor|..]; try done.
    intros _. by rewrite Hme.
  - (* leave *)
    destruct (leave now s) as [s'|] eqn:Hl; simpl;
      [|split_and!; [by constructor|apply frozen_refl|done]].
    destruct (leave_spec s s' Hl) as (Hme & _ & _ & _ & Hcon & _ & _ & Hu & _).
    split_and!; [constructor|..]; try done.
    + by eapply leave_Core.
    + rewrite Hu. by destruct (unsubscribe s).
    + by eapply leave_frozen.
  - (* a participant document is written *)
    set (s1 := set_room_participants _ s).
    assert (HC1 : Core s1) by by apply (Core_same s).
    destruct (unsubscribe s) eqn:Hu;
      try (split_and!; [constructor; simpl; rewrite ?Hu; try done; intros _; by apply Hi
                       |by apply frozen_same|done]).
    specialize (Ha eq_refl).
    destruct (decide (id ∈ dom (room_participants s))) as [Hin|Hnin]; simpl.
    + split_and!; [constructor; simpl; rewrite ?Hu; try done|by apply frozen_same|done].
      intros _. rewrite Ha, dom_insert_L. set_solver.
    + destruct (decide (id ≠ currentUserId s)) as [Hne|Heq].
      * assert (Hnone : connections s1 !! id = None).
        { apply not_elem_of_dom. change (connections s1) with (connections s).
          rewrite Ha. set_solver. }
        destruct (handleParticipantJoined_spec id data s1 HC1 Hnone)
          as (HC' & (Hme & _ & Hu' & _ & Hrp) & Hcon & _ & _).
        split_and!; [constructor|..]; try done.
        -- intros _. rewrite Hcon, Hrp, Hme, !dom_insert_L.
           change (connections s1) with (connections s). rewrite Ha.
           change (currentUserId s1) with (currentUserId s). set_solver.
        -- rewrite Hu'. simpl. by rewrite Hu.
        -- by apply (handleParticipantJoined_frozen id data s1).
      * split_and!; [constructor; simpl; rewrite ?Hu; try done|by apply frozen_same|done].
        intros _. rewrite Ha, dom_insert_L. apply dec_stable in Heq. set_solver.
  - (* a participant document is deleted *)
    destruct (room_participants s !! id) as [data|] eqn:Hrp;
      [|split_and!; [by constructor|apply frozen_refl|done]].
    set (s1 := set_room_participants _ s).
    assert (HC1 : Core s1) by by apply (Core_same s).
    destruct (unsubscribe s) eqn:Hu;
      try (split_and!; [constructor; simpl; rewrite ?Hu; try done; intros _; by apply Hi
                       |by apply frozen_same|done]).
    specialize (Ha eq_refl). simpl.
    destruct (handleParticipantLeft_spec id s1 HC1)
      as (HC' & (Hme & _ & Hu' & _ & Hrp') & Hcon & _).
    split_and!; [constructor|..]; try done.
    + intros _. rewrite Hcon, Hrp', Hme, !dom_delete_L.
      change (connections s1) with (connections s). rewrite Ha.
      change (currentUserId s1) with (currentUserId s). set_solver.
    + rewrite Hu'. simpl. by rewrite Hu.
    + by apply (handleParticipantLeft_frozen id s1).
  - (* an answer snapshot *)
    destruct (onAnswerSnapshot_frame l docs s)
      as ((Hme & _ & Hu & _ & Hrp) & Hcon & _ & _ & _).
    split_and!; [constructor|..]; rewrite ?Hcon, ?Hu, ?Hrp, ?Hme; try done.
    + by apply onAnswerSnapshot_Core.
    + by apply onAnswerSnapshot_frozen.
  - (* an awaited setRemoteDescription settles *)
    destruct (pendingAnswers s !! i) as [w|] eqn:Hw;
      [|split_and!; [by constructor|apply frozen_refl|done]].
    destruct (open_pc s (pa_peerConnection w)) as [pc|] eqn:Hpc;
      [|split_and!; [by constructor|apply frozen_refl|done]].
    destruct (onAnswerSettled_frame i ok s)
      as ((Hme & _ & Hu & _ & Hrp) & Hcon & _ & _ & _).
    split_and!; [constructor|..]; rewrite ?Hcon, ?Hu, ?Hrp, ?Hme; try done.
    + by apply onAnswerSettled_Core.
    + by eapply onAnswerSettled_frozen.
  - (* a candidate document is written *)
    rewrite deliverCandidate_none by (by destruct HC).
    split_and!; [constructor|by apply frozen_same|done]; try done.
    by apply (Core_same s).
  - (* ontrack *)
    destruct (open_pc s r) as [pc|];
      [|split_and!; [by constructor|apply frozen_refl|done]].
    split_and!; [constructor|by apply frozen_same|done]; try done.
    by apply (Core_same s).
  - (* onicecandidate *)
    destruct (open_pc s r) as [pc|];
      [|split_and!; [by constructor|apply frozen_refl|done]].
    destruct cand as [c|]; simpl;
      [|split_and!; [by constructor|apply frozen_refl|done]].
    split_and!; [constructor|by apply frozen_same|done]; try done.
    by apply (Core_same s).
  - (* onconnectionstatechange *)
    destruct (open_pc s r) as [pc|] eqn:Hpc;
      [|split_and!; [by constructor|apply frozen_refl|done]].
    apply open_pc_Some in Hpc as [Hpc Hopen].
    split_and!; [constructor|..]; try done.
    + by apply onconnectionstatechange_Core.
    + intros Hu. simpl. rewrite dom_alter_L. by apply Ha.
    + intros Hu. simpl. apply dom_empty_inv_L. rewrite dom_alter_L, (Hi Hu).
      apply dom_empty_L.
    + apply (frozen_alter_open (set_connectionState st) r); [done|].
      intros pc' Hpc'. congruence.
Qed.

Lemma newManager_Inv me ls rp ro rc : Inv (newManager me ls rp ro rc).
Proof.
  constructor; [constructor|..]; simpl; done.
Qed.

Lemma run_Inv evs s :
  Inv s →
  Inv (run evs s) ∧ frozen s (run evs s) ∧ currentUserId (run evs s) = currentUserId s.
Proof.
  revert s. induction evs as [|ev evs IH]; intros s HI; simpl.
  { split_and!; [done|apply frozen_refl|done]. }
  destruct (step_Inv ev s HI) as (HI1 & Hf1 & Hme1).
  destruct (IH _ HI1) as (HI' & Hf' & Hme').
  split_and!; [done|by eapply frozen_trans|congruence].
Qed.

Lemma handleParticipantJoined_same p d s :
  same_manager s (handleParticipantJoined p d s).
Proof.
  unfold handleParticipantJoined.
  set (s4 := set_participants _ _).
  destruct (createOffer_frame p s4) as (H & _). exact H.
Qed.

Lemma written_frame b data s :
  unsubscribe (step (EvParticipantWritten b data) s) = unsubscribe s ∧
  b ∈ dom (room_participants (step (EvParticipantWritten b data) s)).
Proof.
  simpl. set (s1 := set_room_participants _ s).
  assert (H1 : b ∈ dom (room_participants s1)).
  { simpl. rewrite dom_insert_L. set_solver. }
  destruct (unsubscribe s) eqn:Hu; try done.
  destruct (decide (b ∈ dom (room_participants s))); simpl; [done|].
  destruct (decide (b ≠ currentUserId s)); [|done].
  destruct (handleParticipantJoined_same b data s1) as (_ & _ & Hu' & _ & Hrp).
  rewrite Hu', Hrp. done.
Qed.

(** C4.  In every state a session reaches, the connections map has one
    entry per participant id at most, and the open peer connections are
    exactly those the map refers to, so that no participant has two active
    PeerLinks; while the participants listener is active, the map has an
    entry for every other participant document of the room.  In particular,
    whether the local manager is initialized before or after the other
    participant's document is written, it ends up with exactly one PeerLink
    to that participant, and none keyed by its own user id. *)
Theorem one_PeerLink_per_participant me ls rp ro rc :
  let s0 := newManager me ls rp ro rc in
  (∀ evs p,
     let s := run evs s0 in
     NoDup (map_to_list (connections s)).*1 ∧
     atMostOnePeerLink s p ∧
     (p ∈ dom (connections s) ↔ ∃ r, activeLink s p r) ∧
     (unsubscribe s = Active → p ≠ me → p ∈ dom (room_participants s) →
      exactlyOnePeerLink s p)) ∧
  (∀ evs, me ∉ dom (connections (run evs s0))) ∧
  (∀ b data, b ≠ me →
     exactlyOnePeerLink (run [EvInitialize; EvParticipantWritten b data] s0) b ∧
     exactlyOnePeerLink (run [EvParticipantWritten b data; EvInitialize] s0) b).
Proof.
  intros s0. subst s0.
  assert (Hgen : ∀ evs p,
    let s := run evs (newManager me ls rp ro rc) in
    unsubscribe s = Active → p ≠ me → p ∈ dom (room_participants s) →
    exactlyOnePeerLink s p).
  { intros evs p s Hu Hp Hin.
    destruct (run_Inv evs _ (newManager_Inv me ls rp ro rc)) as ([HC Ha _] & _ & Hme).
    apply Core_exactlyOne; [done|]. fold s in Ha, Hme.
    rewrite (Ha Hu), Hme. simpl. set_solver. }
  split_and!.
  - intros evs p s. subst s.
    destruct (run_Inv evs _ (newManager_Inv me ls rp ro rc)) as ([HC Ha _] & _ & Hme).
    split_and!.
    + apply NoDup_fst_map_to_list.
    + by apply Core_atMostOne.
    + split.
      * intros Hin. destruct (Core_exactlyOne _ p HC Hin) as (c & _ & _ & Hr).
        exists (peerConnection c). by apply Hr.
      * intros [r Hr%activeLink_links]. destruct HC as [_ H2 _ _ _].
        destruct (H2 r p Hr) as (c & Hc & _). by eapply elem_of_dom_2.
    + apply Hgen.
  - intros evs.
    destruct (run_Inv evs _ (newManager_Inv me ls rp ro rc)) as ([HC Ha Hi] & _ & Hme).
    destruct (decide (unsubscribe (run evs (newManager me ls rp ro rc)) = Active)) as [Hu|Hu].
    + rewrite (Ha Hu), Hme. simpl. set_solver.
    + rewrite (Hi Hu). set_solver.
  - intros b data Hb.
    set (s0 := newManager me ls rp ro rc).
    destruct (initialize_spec s0) as (_ & _ & Hu1 & _ & _ & _);
      [by destruct (newManager_Inv me ls rp ro rc)|done|].
    set (s1 := set_room_participants <[b := data]> s0).
    destruct (initialize_spec s1) as (_ & _ & Hu2 & _ & _ & Hsub2);
      [by apply (Core_same s0); [..|destruct (newManager_Inv me ls rp ro rc)]|done|].
    split.
    + destruct (written_frame b data (initialize s0)) as [Hu Hin].
      apply (Hgen [EvInitialize; EvParticipantWritten b data]); [|done|].
      * change (unsubscribe (step (EvParticipantWritten b data) (initialize s0)) = Active).
        by rewrite Hu.
      * exact Hin.
    + apply (Hgen [EvParticipantWritten b data; EvInitialize]); [|done|].
      * exact Hu2.
      * change (b ∈ dom (room_participants (initialize s1))).
        apply Hsub2. simpl. rewrite dom_insert_L. set_solver.
Qed.

(** C10.  When [leave()] completes, every peer connection that was held in
    the connections map has been closed, both maps are empty, the
    participant count is 0 and there are no remote streams; and
    [isParticipantConnected] answers [false] for an id that is not in the
    map (of any session). *)
Theorem leave_closes_and_clears s s' :
  leave now s = Some s' →
  (∀ p c pc, connections s !! p = Some c → pcs s !! peerConnection c = Some pc →
             ∃ pc', pcs s' !! peerConnection c = Some pc' ∧ pc_closed pc' = true) ∧
  connections s' = ∅ ∧
  participants s' = ∅ ∧
  getParticipantCount s' = 0 ∧
  getRemoteStreams s' = [] ∧
  (∀ s0 id, connections s0 !! id = None → isParticipantConnected id s0 = false).
Proof using now.
  clear autoId browserOffer.
  intros Hl.
  destruct (leave_spec s s' Hl) as (_ & _ & _ & _ & Hcon & Hpar & Hpcs & _).
  split_and!; try done.
  - intros p c pc Hc Hpc.
    pose proof (closeAll_link (heldConnections s) (pcs s) (peerConnection c)) as H.
    rewrite !list_lookup_fmap, Hpc, <-Hpcs in H. simpl in H.
    rewrite bool_decide_eq_true_2 in H by by eapply elem_of_heldConnections.
    destruct (pcs s' !! peerConnection c) as [pc'|]; [|done].
    exists pc'. split; [done|]. by injection H.
  - unfold getParticipantCount. rewrite Hcon. apply map_size_empty.
  - unfold getRemoteStreams. rewrite Hcon, map_to_list_empty. done.
  - intros s0 id H0. unfold isParticipantConnected. by rewrite H0.
Qed.

(** The calls of [setRemoteDescription] made on a peer connection. *)
Definition isSetRemoteDescription (c : PCCall) : bool :=
  match c with
  | CallSetRemoteDescription _ => true
  | _ => false
  end.

Definition setRemoteDescriptionCalls (pc : RTCPeerConnection) : list PCCall :=
  filter (λ c, isSetRemoteDescription c) (pc_calls pc).

(** The snapshot [docs] is delivered to [listener] [n] times before any of
    the calls made for it settles. *)
Definition overlapping (listener : nat) (docs : list AnswerDoc) (n : nat) : list Event :=
  replicate n (EvAnswerSnapshot listener docs).

(** The snapshot [docs] is delivered to [listener] once for each element of
    [oks], and the call made for it -- the one of the [i]-th waiting
    callback -- settles with that outcome before the next delivery. *)
Definition oneByOne (listener i : nat) (docs : list AnswerDoc) (oks : list bool)
    : list Event :=
  oks ≫= λ ok, [EvAnswerSnapshot listener docs; EvAnswerSettled i ok].

(** Of the outcomes the browser would give to successive applications of an
    answer, those that are asked for: up to the first one that goes through. *)
Fixpoint attempts (oks : list bool) : list bool :=
  match oks with
  | [] => []
  | true :: _ => [true]
  | false :: oks' => false :: attempts oks'
  end.

Lemma onAnswerSnapshot_unsubscribed l p docs s :
  answerListeners s !! l = Some (mkAnswerListener p false) →
  onAnswerSnapshot l docs s = s.
Proof. unfold onAnswerSnapshot. by intros ->. Qed.

Lemma onAnswerSnapshot_guard l al c pc docs s :
  answerListeners s !! l = Some al →
  connections s !! al_participantId al = Some c →
  pcs s !! peerConnection c = Some pc →
  is_Some (currentRemoteDescription pc) →
  onAnswerSnapshot l docs s = s.
Proof.
  unfold onAnswerSnapshot. intros -> -> -> [sdp ->].
  destruct (al_active al); [|done]. by destruct docs.
Qed.

Lemma onAnswerSnapshot_ready l p c pc answerData docs s :
  answerListeners s !! l = Some (mkAnswerListener p true) →
  connections s !! p = Some c →
  pcs s !! peerConnection c = Some pc →
  currentRemoteDescription pc = None →
  onAnswerSnapshot l (answerData :: docs) s
    = set_pendingAnswers
        (λ w, w ++ [mkPendingAnswer l (peerConnection c) (an_answer answerData)])
        (set_pcs (alter (setRemoteDescription (an_answer answerData))
                    (peerConnection c)) s).
Proof.
  intros Hl Hc Hpc Hrd. unfold onAnswerSnapshot.
  rewrite Hl. simpl. by rewrite Hc, Hpc, Hrd.
Qed.

Lemma step_settled i ok w pc s :
  pendingAnswers s !! i = Some w →
  pcs s !! pa_peerConnection w = Some pc →
  pc_closed pc = false →
  step (EvAnswerSettled i ok) s = onAnswerSettled i ok s.
Proof. intros Hw Hpc Hcl. simpl. unfold open_pc. by rewrite Hw, Hpc, Hcl. Qed.


Lemma run_cons ev evs s : run (ev :: evs) s = run evs (step ev s).
Proof. done. Qed.

Lemma run_two ev ev' evs s :
  run ([ev; ev'] ++ evs) s = run evs (step ev' (step ev s)).
Proof. done. Qed.

Lemma step_not_waiting i ok s :
  (length (pendingAnswers s) ≤ i)%nat → step (EvAnswerSettled i ok) s = s.
Proof. intros Hi. simpl. by rewrite lookup_ge_None_2. Qed.

(** Snapshots that overlap: each one finds the connection without a remote
    description and calls [setRemoteDescription]. *)
Lemma overlapping_spec l p c answerData docs n : ∀ pc s,
  answerListeners s !! l = Some (mkAnswerListener p true) →
  connections s !! p = Some c →
  pcs s !! peerConnection c = Some pc →
  currentRemoteDescription pc = None →
  let s' := run (overlapping l (answerData :: docs) n) s in
  ∃ pc', pcs s' !! peerConnection c = Some pc' ∧
         pc_calls pc' = pc_calls pc
                          ++ replicate n (CallSetRemoteDescription (an_answer answerData)) ∧
         currentRemoteDescription pc' = None ∧
         pc_closed pc' = pc_closed pc ∧
         answerListeners s' = answerListeners s ∧
         pendingAnswers s'
           = pendingAnswers s
               ++ replicate n (mkPendingAnswer l (peerConnection c) (an_answer answerData)).
Proof.
  induction n as [|n IH]; intros pc s Hl Hc Hpc Hrd; cbv zeta in *.
  { exists pc. simpl. by rewrite !app_nil_r. }
  unfold overlapping in *. rewrite replicate_S, run_cons.
  change (step (EvAnswerSnapshot l (answerData :: docs)) s)
    with (onAnswerSnapshot l (answerData :: docs) s).
  rewrite (onAnswerSnapshot_ready l p c pc) by done.
  set (s1 := set_pendingAnswers _ _).
  destruct (IH (setRemoteDescription (an_answer answerData) pc) s1)
    as (pc' & Hpc' & Hcalls & Hrd' & Hcl & Hal & Hw); try done.
  { simpl. by rewrite list_lookup_alter_eq, Hpc. }
  exists pc'. split_and!; try done.
  - rewrite Hcalls. simpl. by rewrite <-app_assoc.
  - rewrite Hw. simpl. by rewrite <-app_assoc.
Qed.

Lemma oneByOne_unsubscribed l p i docs oks s :
  answerListeners s !! l = Some (mkAnswerListener p false) →
  length (pendingAnswers s) = i →
  run (oneByOne l i docs oks) s = s.
Proof.
  intros Hl Hi. induction oks as [|ok oks IH]; [done|].
  unfold oneByOne in *. rewrite bind_cons, run_two.
  change (step (EvAnswerSnapshot l docs) s) with (onAnswerSnapshot l docs s).
  rewrite (onAnswerSnapshot_unsubscribed l p) by done.
  rewrite step_not_waiting by lia. exact IH.
Qed.

(** Snapshots that do not overlap: [setRemoteDescription] is called until
    one call goes through, the listener then unsubscribes, and later
    snapshots are not seen. *)
Lemma oneByOne_spec l p c answerData docs oks : ∀ pc s,
  answerListeners s !! l = Some (mkAnswerListener p true) →
  connections s !! p = Some c →
  pcs s !! peerConnection c = Some pc →
  currentRemoteDescription pc = None →
  pc_closed pc = false →
  let s' := run (oneByOne l (length (pendingAnswers s)) (answerData :: docs) oks) s in
  ∃ pc', pcs s' !! peerConnection c = Some pc' ∧
         pc_calls pc'
           = pc_calls pc
               ++ replicate (length (attempts oks))
                    (CallSetRemoteDescription (an_answer answerData)) ∧
         currentRemoteDescription pc'
           = (if existsb id oks then Some (an_answer answerData) else None) ∧
         answerListeners s' !! l = Some (mkAnswerListener p (negb (existsb id oks))).
Proof.
  induction oks as [|ok oks IH]; intros pc s Hl Hc Hpc Hrd Hcl; cbv zeta in *.
  { exists pc. simpl. by rewrite app_nil_r. }
  unfold oneByOne. rewrite bind_cons, run_two.
  change (step (EvAnswerSnapshot l (answerData :: docs)) s)
    with (onAnswerSnapshot l (answerData :: docs) s).
  rewrite (onAnswerSnapshot_ready l p c pc) by done.
  set (w := mkPendingAnswer l (peerConnection c) (an_answer answerData)).
  set (s1 := set_pendingAnswers _ _).
  assert (Hw : pendingAnswers s1 !! length (pendingAnswers s) = Some w).
  { simpl. by apply list_lookup_middle. }
  assert (Hpc1 : pcs s1 !! peerConnection c
                 = Some (setRemoteDescription (an_answer answerData) pc)).
  { simpl. by rewrite list_lookup_alter_eq, Hpc. }
  rewrite (step_settled _ ok w _ s1 Hw Hpc1) by done.
  unfold onAnswerSettled. rewrite Hw.
  assert (Hdel : delete (length (pendingAnswers s)) (pendingAnswers s1)
                 = pendingAnswers s).
  { simpl. rewrite delete_middle. apply app_nil_r. }
  destruct ok.
  - set (s2 := set_answerListeners _ _).
    fold (oneByOne l (length (pendingAnswers s)) (answerData :: docs) oks).
    rewrite (oneByOne_unsubscribed l p).
    + simpl. rewrite !list_lookup_alter_eq, Hl, Hpc. simpl.
      eexists. split_and!; done.
    + simpl. by rewrite list_lookup_alter_eq, Hl.
    + simpl. rewrite delete_middle, app_nil_r. done.
  - set (s2 := set_pendingAnswers (delete _) s1).
    assert (Hlen : length (pendingAnswers s2) = length (pendingAnswers s)).
    { unfold s2. simpl. by rewrite delete_middle, app_nil_r. }
    fold (oneByOne l (length (pendingAnswers s)) (answerData :: docs) oks).
    rewrite <-Hlen.
    destruct (IH (setRemoteDescription (an_answer answerData) pc) s2)
      as (pc' & Hpc' & Hcalls & Hrd' & Hl'); try done.
    exists pc'. split_and!; try done.
    rewrite Hcalls. simpl. by rewrite <-app_assoc.
Qed.

Lemma filter_addTrack (P : PCCall → bool) (tracks : list Track) :
  (∀ t, P (CallAddTrack t) = false) →
  filter (λ c, P c) (CallAddTrack <$> tracks) = [].
Proof.
  intros HP. induction tracks as [|t l IH]; [done|].
  rewrite fmap_cons, filter_cons, HP. simpl. exact IH.
Qed.

Lemma filter_isSetRemoteDescription_replicate answer n :
  filter (λ c, isSetRemoteDescription c) (replicate n (CallSetRemoteDescription answer))
    = replicate n (CallSetRemoteDescription answer).
Proof.
  induction n as [|n IH]; [done|].
  rewrite replicate_S, filter_cons. simpl. by rewrite IH.
Qed.

(** C6 (what the code does).  After [handleParticipantJoined(B)] has
    produced an offer, an offer document tagged (from = current user, to = B)
    is in the room and the answer listener for B is registered.  The
    callback of that listener reads [currentRemoteDescription] before it
    awaits [setRemoteDescription], and the description is set and
    [unsubscribe()] called only after the call has settled.  So when the
    snapshot holding B's answer is delivered [n] times before a call
    settles, every delivery passes the guard: [setRemoteDescription] is
    called [n] times for the one answer, and the listener is still
    subscribed.  Only when each call settles before the next delivery is
    [setRemoteDescription] called until one call goes through and never
    again -- once, when the first call goes through --, with the listener
    unsubscribed from then on. *)
Theorem answer_applied_once_per_overlapping_snapshot
    s B data offer answer t docs n oks :
  browserOffer (length (pcs s)) = Some offer →
  let s1 := handleParticipantJoined B data s in
  let l := length (answerListeners s) in
  let r := length (pcs s) in
  let snapshot := mkAnswerDoc B (currentUserId s) answer t :: docs in
  let overlap := run (overlapping l snapshot n) s1 in
  let inTurn := run (oneByOne l (length (pendingAnswers s)) snapshot oks) s1 in
  (∃ id, room_offers s1 !! id = Some (mkOfferDoc (currentUserId s) B offer now)) ∧
  answerListeners s1 !! l = Some (mkAnswerListener B true) ∧
  (∃ pc,
     pcs overlap !! r = Some pc ∧
     setRemoteDescriptionCalls pc = replicate n (CallSetRemoteDescription answer) ∧
     currentRemoteDescription pc = None ∧
     answerListeners overlap !! l = Some (mkAnswerListener B true)) ∧
  (∃ pc,
     pcs inTurn !! r = Some pc ∧
     setRemoteDescriptionCalls pc
       = replicate (length (attempts oks)) (CallSetRemoteDescription answer) ∧
     currentRemoteDescription pc = (if existsb id oks then Some answer else None) ∧
     answerListeners inTurn !! l = Some (mkAnswerListener B (negb (existsb id oks))) ∧
     (head oks = Some true →
      setRemoteDescriptionCalls pc = [CallSetRemoteDescription answer])).
Proof.
  intros Hoffer s1 l r snapshot overlap inTurn.
  set (new := mkPC B (length (streams s)) false None None [] "new"
                (CallAddTrack <$> localStream s)).
  assert (Hs1 : connections s1 !! B
                = Some (mkConnection B (length (pcs s)) (length (streams s)) false true)
              ∧ pcs s1 !! length (pcs s) = Some (setLocalDescription offer new)
              ∧ answerListeners s1 = answerListeners s ++ [mkAnswerListener B true]
              ∧ pendingAnswers s1 = pendingAnswers s
              ∧ room_offers s1
                = updateOrAdd autoId (currentUserId s +:+ "_" +:+ B)
                    (mkOfferDoc (currentUserId s) B offer now) (room_offers s)).
  { unfold s1, handleParticipantJoined, createOffer. simpl.
    rewrite lookup_insert_eq. simpl. rewrite Hoffer. simpl.
    rewrite lookup_insert_eq, list_lookup_alter_eq, list_lookup_middle by done.
    done. }
  destruct Hs1 as (Hc & Hpc & Hal & Hw & Hro).
  assert (Hl : answerListeners s1 !! l = Some (mkAnswerListener B true)).
  { rewrite Hal. by apply list_lookup_middle. }
  assert (Hcalls : ∀ k,
            filter (λ c, isSetRemoteDescription c)
              (pc_calls (setLocalDescription offer new)
                 ++ replicate k (CallSetRemoteDescription answer))
            = replicate k (CallSetRemoteDescription answer)).
  { intros k. simpl.
    rewrite !filter_app, filter_isSetRemoteDescription_replicate.
    rewrite filter_cons, filter_nil. simpl.
    by rewrite (filter_addTrack isSetRemoteDescription). }
  split_and!.
  - rewrite Hro. unfold updateOrAdd.
    destruct (room_offers s !! _); eexists; apply lookup_insert_eq.
  - done.
  - destruct (overlapping_spec l B _ (mkAnswerDoc B (currentUserId s) answer t)
                docs n _ s1 Hl Hc Hpc)
      as (pc & Hpc' & Hcs & Hrd & _ & Hal' & _); [done|].
    simpl in Hpc', Hcs. exists pc. split_and!; try done.
    + unfold setRemoteDescriptionCalls. rewrite Hcs. apply Hcalls.
    + unfold overlap, snapshot. by rewrite Hal'.
  - destruct (oneByOne_spec l B _ (mkAnswerDoc B (currentUserId s) answer t)
                docs oks _ s1 Hl Hc Hpc)
      as (pc & Hpc' & Hcs & Hrd & Hal'); [done..|].
    rewrite Hw in Hpc', Hal'. simpl in Hpc', Hcs, Hrd, Hal'.
    assert (Hsrd : setRemoteDescriptionCalls pc
                   = replicate (length (attempts oks))
                       (CallSetRemoteDescription answer)).
    { unfold setRemoteDescriptionCalls. rewrite Hcs. apply Hcalls. }
    exists pc. split_and!; try done.
    rewrite Hsrd. by destruct oks as [|[] oks].
Qed.

(** C3 (what the code does).  In no state a session reaches is a candidate
    listener registered -- [listenForIceCandidates] is never called --, so no
    candidate document written to the room is ever handed to a peer
    connection: every peer connection has an empty candidate list and no
    [addIceCandidate] call. *)
Theorem candidates_never_applied me ls rp ro rc evs :
  candidateListeners (run evs (newManager me ls rp ro rc)) = [] ∧
  ∀ r pc, pcs (run evs (newManager me ls rp ro rc)) !! r = Some pc →
          iceCandidates pc = [] ∧
          ∀ c ok, CallAddIceCandidate c ok ∉ pc_calls pc.
Proof.
  destruct (run_Inv evs _ (newManager_Inv me ls rp ro rc)) as ([HC _ _] & _).
  destruct HC as [_ _ _ Hcand Hpcs]. split; [done|].
  intros r pc Hpc. destruct (Forall_lookup_1 _ _ _ _ Hpcs Hpc) as (Hice & Hcalls & _).
  split; [done|]. intros c ok Hin.
  assert (CallAddIceCandidate c ok ∈ filter (λ c, isAddIceCandidate c) (pc_calls pc))
    by (apply list_elem_of_filter; by split).
  rewrite Hcalls in *. set_solver.
Qed.

(** Had the listener been registered, its callback would hand a matching
    candidate to the peer connection of the sender. *)
Lemma candidate_listener_applies s p c pc candidateData :
  connections s !! p = Some c →
  pcs s !! peerConnection c = Some pc →
  c_from candidateData = p →
  c_to candidateData = currentUserId s →
  candidateListeners s = [] →
  pcs (deliverCandidate candidateData true (listenForIceCandidates p s))
    !! peerConnection c
    = Some (addIceCandidate (c_candidate candidateData) true pc).
Proof.
  intros Hc Hpc Hf Ht Hl. unfold deliverCandidate, listenForIceCandidates. simpl.
  rewrite Hl. simpl. rewrite decide_True by done.
  unfold onCandidateChange. simpl. rewrite Hc. simpl.
  by rewrite list_lookup_alter_eq, Hpc.
Qed.




End Handlers.

(** *** A sample session

    ["alice"], whose participant document exists in the room, has
    initialized her manager and has then seen ["bob"]'s document appear. *)

Definition sample_autoId (ids : gset string) : string := "auto" +:+ pretty (size ids).

Definition sample_browserOffer (r : nat) : option SDP := Some ("offer " +:+ pretty r).

Definition alice_doc : ParticipantDoc := mkParticipantDoc "alice" (Some 1) true None.

Definition bob_doc : ParticipantDoc := mkParticipantDoc "bob" (Some 2) true None.

Definition alice_manager : Session :=
  newManager "alice" ["audio"; "video"] {[ "alice" := alice_doc ]} ∅ ∅.

Definition alice_alone : Session :=
  run sample_autoId sample_browserOffer 3 [EvInitialize] alice_manager.

Definition sample_session : Session :=
  run sample_autoId sample_browserOffer 3
    [EvInitialize; EvParticipantWritten "bob" bob_doc] alice_manager.

Definition sample_left : Session := default sample_session (leave 4 sample_session).

Lemma leave_closes_and_clears_witness :
  leave 4 sample_session = Some sample_left ∧
  (∀ p c pc, connections sample_session !! p = Some c →
             pcs sample_session !! peerConnection c = Some pc →
             ∃ pc', pcs sample_left !! peerConnection c = Some pc' ∧ pc_closed pc' = true) ∧
  connections sample_left = ∅ ∧
  participants sample_left = ∅ ∧
  getParticipantCount sample_left = 0 ∧
  getRemoteStreams sample_left = [] ∧
  (∀ s0 id, connections s0 !! id = None → isParticipantConnected id s0 = false).
Proof.
  assert (H : leave 4 sample_session = Some sample_left) by (vm_compute; reflexivity).
  split; [exact H|].
  exact (leave_closes_and_clears 4 sample_session sample_left H).
Defined.

(** In the sample session ["alice"] holds one connection, to ["bob"]; after
    [leave()] its peer connection is closed. *)
Example leave_sample :
  dom (connections sample_session) = {[ "bob" ]} ∧
  (pc_closed <$> pcs sample_session) = [false] ∧
  (pc_closed <$> pcs sample_left) = [true] ∧
  unsubscribe sample_left = Cancelled.
Proof. by vm_compute. Qed.

Lemma answer_applied_once_per_overlapping_snapshot_witness :
  sample_browserOffer (length (pcs alice_alone)) = Some "offer 0" ∧
  ∃ pc,
    pcs (run sample_autoId sample_browserOffer 3
           (overlapping (length (answerListeners alice_alone))
              [mkAnswerDoc "bob" (currentUserId alice_alone) "answer of bob" 7] 2)
           (handleParticipantJoined sample_autoId sample_browserOffer 3
              "bob" bob_doc alice_alone))
      !! length (pcs alice_alone) = Some pc ∧
    setRemoteDescriptionCalls pc
      = [CallSetRemoteDescription "answer of bob";
         CallSetRemoteDescription "answer of bob"].
Proof.
  assert (H : sample_browserOffer (length (pcs alice_alone)) = Some "offer 0")
    by reflexivity.
  split; [exact H|].
  destruct (answer_applied_once_per_overlapping_snapshot sample_autoId
              sample_browserOffer 3 alice_alone "bob" bob_doc "offer 0"
              "answer of bob" 7 [] 2 [true; true; false; true] H)
    as (_ & _ & (pc & Hpc & Hcalls & _) & _).
  exists pc. split; [exact Hpc|exact Hcalls].
Defined.

(** C6 at a concrete input: the snapshot with ["bob"]'s answer reaches
    ["alice"]'s listener twice before the first call settles.  Both
    deliveries call [setRemoteDescription]; the browser then accepts the
    first call and, the connection being stable by then, refuses the
    second. *)
Example answer_applied_twice_when_snapshots_overlap :
  let s := run sample_autoId sample_browserOffer 3
             [EvAnswerSnapshot 0 [mkAnswerDoc "bob" "alice" "answer of bob" 7];
              EvAnswerSnapshot 0 [mkAnswerDoc "bob" "alice" "answer of bob" 7];
              EvAnswerSettled 0 true;
              EvAnswerSettled 0 false]
             sample_session in
  (pc_calls <$> pcs s)
    = [[CallAddTrack "audio"; CallAddTrack "video";
        CallSetLocalDescription "offer 0";
        CallSetRemoteDescription "answer of bob";
        CallSetRemoteDescription "answer of bob"]] ∧
  (currentRemoteDescription <$> pcs s) = [Some "answer of bob"] ∧
  answerListeners s = [mkAnswerListener "bob" false] ∧
  pendingAnswers s = [].
Proof. by vm_compute. Qed.

(** When each call settles before the next delivery and the browser refuses
    the first one, the next snapshot is applied, and later ones are not. *)
Example answer_retried_then_applied_once :
  (pc_calls <$> pcs (run sample_autoId sample_browserOffer 3
                       (oneByOne 0 0 [mkAnswerDoc "bob" "alice" "answer of bob" 7]
                          [false; true; true])
                       sample_session))
    = [[CallAddTrack "audio"; CallAddTrack "video";
        CallSetLocalDescription "offer 0";
        CallSetRemoteDescription "answer of bob";
        CallSetRemoteDescription "answer of bob"]].
Proof. by vm_compute. Qed.

(** C3 at a concrete input: ["bob"] writes a candidate addressed to
    ["alice"]; the document is in the room, ["alice"] holds an open
    connection to ["bob"], and the candidate is not handed to it. *)
Example candidate_for_alice_is_not_applied :
  let s := run sample_autoId sample_browserOffer 3
             [EvInitialize; EvParticipantWritten "bob" bob_doc;
              EvCandidateWritten (mkCandidateDoc "bob" "alice" "candidate:1" 5) true]
             alice_manager in
  map_to_list (room_candidates s)
    = [("auto0", mkCandidateDoc "bob" "alice" "candidate:1" 5)] ∧
  (peerConnection <$> connections s !! "bob") = Some 0%nat ∧
  (pc_closed <$> pcs s !! 0%nat) = Some false ∧
  (iceCandidates <$> pcs s !! 0%nat) = Some [] ∧
  candidateListeners s = [].
Proof. by vm_compute. Qed.

(** C4 at a concrete input: in both orders ["alice"] ends up with the one
    connection to ["bob"]. *)
Example two_participants_either_order :
  dom (connections (run sample_autoId sample_browserOffer 3
                      [EvInitialize; EvParticipantWritten "bob" bob_doc] alice_manager))
    = {[ "bob" ]} ∧
  dom (connections (run sample_autoId sample_browserOffer 3
                      [EvParticipantWritten "bob" bob_doc; EvInitialize] alice_manager))
    = {[ "bob" ]} ∧
  length (pcs (run sample_autoId sample_browserOffer 3
                 [EvInitialize; EvParticipantWritten "bob" bob_doc] alice_manager)) = 1%nat ∧
  length (pcs (run sample_autoId sample_browserOffer 3
                 [EvParticipantWritten "bob" bob_doc; EvInitialize] alice_manager)) = 1%nat.
Proof. by vm_compute. Qed.

End MeshFacts.

(** ** Properties of the call-join flow and of the avatar movement *)

Module VirtualSpaceFacts.
Import JS Firestore VirtualSpace.

(** A component whose media and user are ready and which has done nothing
    yet. *)
Definition readyComponent (ls : Mesh.MediaStream) (uid : string) : Component :=
  mkComponent (Some ls) (Some uid) [] false None None 0 [] [].

Definition callFailed : Toast :=
  mkToast true "Call failed"
    "Unable to start call. Please check your internet connection and Firebase configuration.".

(** What a room construction resolves to: the handles object the manager's
    [initialize] builds, or nothing when it raises. *)
Definition meshOutcome (resolves : bool) (spaceId roomId : string) : option JSObject :=
  if resolves then Some (MeshRoomHandles spaceId roomId) else None.

Definition simpleOutcome (resolves : bool) (spaceId roomId : string)
    (rs : list Mesh.MediaStream) : option JSObject :=
  if resolves then Some (SimpleRoomHandles spaceId roomId rs) else None.

(** C8 (what the code does).  With media and user ready, whatever the two
    room constructions do, [startOrJoinCall] attempts the mesh construction
    and then the simple construction and ends with the ['Call failed']
    toast, not in a call: the handles objects have no [getRemoteStreams],
    [getParticipantCount] or [setOnStreamsChanged] method, so the first use
    of the handles raises inside the [try]. *)
Theorem startOrJoinCall_ends_in_call_failed
    ls uid spaceId roomId rs meshResolves simpleResolves :
  let c := startOrJoinCall (meshOutcome meshResolves spaceId roomId)
             (simpleOutcome simpleResolves spaceId roomId rs)
             (readyComponent ls uid) in
  toasts c = [callFailed] ∧
  constructions c = [MeshImplementation; SimpleImplementation] ∧
  isInCall c = false.
Proof. by destruct meshResolves, simpleResolves. Qed.

(** Handles that also carry the manager's methods. *)
Definition withManagerMethods (streams : list Mesh.MediaStream) (count : nat)
    (handles : JSObject) : JSObject :=
  <["getRemoteStreams" := VFunction (VStreams streams)]>
    (<["getParticipantCount" := VFunction (VNumber count)]>
       (<["setOnStreamsChanged" := VFunction VUndefined]> handles)).

(** With such handles the flow is the one the toasts announce: the mesh
    construction alone when it resolves, the simple one exactly when the
    mesh one raises, and ['Call failed'] when both raise. *)
Lemma startOrJoinCall_with_manager_methods ls uid spaceId roomId streams count :
  (toasts (startOrJoinCall
             (Some (withManagerMethods streams count (MeshRoomHandles spaceId roomId)))
             None (readyComponent ls uid))
     = [mkToast false "Joined meeting"
          ("Connected to meeting. " +:+ pretty count +:+ " participants.")] ∧
   constructions (startOrJoinCall
             (Some (withManagerMethods streams count (MeshRoomHandles spaceId roomId)))
             None (readyComponent ls uid)) = [MeshImplementation]) ∧
  (toasts (startOrJoinCall None
             (Some (withManagerMethods streams count
                      (SimpleRoomHandles spaceId roomId streams)))
             (readyComponent ls uid))
     = [mkToast false "Joined meeting (Simple Mode)"
          "Connected to meeting. Note: Multi-participant video requires Firebase configuration."] ∧
   constructions (startOrJoinCall None
             (Some (withManagerMethods streams count
                      (SimpleRoomHandles spaceId roomId streams)))
             (readyComponent ls uid))
     = [MeshImplementation; SimpleImplementation]) ∧
  toasts (startOrJoinCall None None (readyComponent ls uid)) = [callFailed].
Proof. done. Qed.

Open Scope Z_scope.

Definition inBounds (m : MapData) (p : Position) : Prop :=
  0 ≤ x p ≤ map_width m * GRID_SIZE - 48 ∧ 0 ≤ y p ≤ map_height m * GRID_SIZE - 48.

(** The tile under the centre of the avatar. *)
Definition tileX (p : Position) : Z := (x p + GRID_SIZE / 2) / GRID_SIZE.
Definition tileY (p : Position) : Z := (y p + GRID_SIZE / 2) / GRID_SIZE.

(** The centre tile lies inside every collision layer and is not a nonzero
    tile of any. *)
Definition freeTile (m : MapData) (p : Position) : Prop :=
  ∀ layer width height data,
    layer ∈ layers m →
    collisionLayer layer = Some (width, height, data) →
    0 ≤ tileX p < width ∧ 0 ≤ tileY p < height ∧
    ∀ tileGid, data !! Z.to_nat (tileY p * width + tileX p) = Some tileGid →
               tileGid = 0.

Lemma layersAllow_free tx ty ls :
  layersAllow tx ty ls = true →
  ∀ layer width height data,
    layer ∈ ls → collisionLayer layer = Some (width, height, data) →
    0 ≤ tx < width ∧ 0 ≤ ty < height ∧
    ∀ tileGid, data !! Z.to_nat (ty * width + tx) = Some tileGid → tileGid = 0.
Proof.
  induction ls as [|l ls IH]; simpl; intros Hall layer w h data Hin Hcol.
  { by apply elem_of_nil in Hin. }
  apply elem_of_cons in Hin as [->|Hin].
  - rewrite Hcol in Hall.
    destruct ((tx <? 0) || (ty <? 0) || (tx >=? w) || (ty >=? h)) eqn:Hout; [done|].
    apply orb_false_elim in Hout as [Hout H4].
    apply orb_false_elim in Hout as [Hout H3].
    apply orb_false_elim in Hout as [H1 H2].
    split; [lia|]. split; [lia|]. intros gid Hgid.
    assert (Hidx : (ty * w + tx >=? 0) && (ty * w + tx <? Z.of_nat (length data)) = true).
    { apply lookup_lt_Some in Hgid. apply andb_true_intro. split; [nia|].
      apply Z.ltb_lt. assert (0 ≤ ty * w + tx) by nia. lia. }
    rewrite Hidx, Hgid in Hall. by destruct (decide (gid ≠ 0)); [|apply dec_stable].
  - apply (IH (ltac:(
      destruct (collisionLayer l) as [[[w' h'] data']|]; [|exact Hall];
      destruct ((tx <? 0) || (ty <? 0) || (tx >=? w') || (ty >=? h')); [done|];
      destruct ((ty * w' + tx >=? 0) && (ty * w' + tx <? Z.of_nat (length data')));
        [|exact Hall];
      destruct (data' !! Z.to_nat (ty * w' + tx)) as [g|]; [|exact Hall];
      by destruct (decide (g ≠ 0)))) layer w h data Hin Hcol).
Qed.

Lemma isPositionValid_free m p : isPositionValid m p = true → freeTile m p.
Proof. intros H layer w h data. by apply layersAllow_free. Qed.

(** The keys pressed one after the other. *)
Definition pressKeys (m : MapData) (keys : list string) (a : Avatar) : Avatar :=
  foldl (λ a' key, handleKeyDown m key a') a keys.

(** A map of 20 by 20 tiles without a collision layer. *)
Definition openMap : MapData := mkMapData 20 20 [].

Definition initialAvatar : Avatar := mkAvatar initialPosition false true (Some "uid") [].

(** C9, as stated, fails: on a 20 by 20 map, eight steps down from the
    initial position the avatar is at y = 576; the ninth is cut short at
    the bound 20 * 32 - 48 = 592, a move of 16 px, and is written to the
    database. *)
Lemma keyboard_move_shorter_than_a_step :
  position (pressKeys openMap (replicate 8 "ArrowDown") initialAvatar)
    = mkPosition 320 576 ∧
  position (pressKeys openMap (replicate 9 "ArrowDown") initialAvatar)
    = mkPosition 320 592 ∧
  last (positionsWritten (pressKeys openMap (replicate 9 "ArrowDown") initialAvatar))
    = Some ("uid", mkPosition 320 592) ∧
  592 - 576 ≠ STEP.
Proof. by vm_compute. Qed.

(** C9 (amended).  From a position within the map bounds, a keyboard event
    either leaves position and database as they are, or moves the avatar
    along exactly one axis by at most one grid step -- by exactly 32 px
    unless the move is cut short at the bound it runs into -- to a position
    within the bounds that [isPositionValid] accepts, whose centre tile is
    inside the collision layer and not a nonzero tile of it; the database
    is written then and only then, with the new position, for the signed-in
    user. *)
Theorem keyboard_move_at_most_one_step m key a :
  inBounds m (position a) →
  (position (handleKeyDown m key a) = position a ∧
   positionsWritten (handleKeyDown m key a) = positionsWritten a) ∨
  (((x (position (handleKeyDown m key a)) ≠ x (position a) ∧
     y (position (handleKeyDown m key a)) = y (position a) ∧
     Z.abs (x (position (handleKeyDown m key a)) - x (position a)) ≤ STEP ∧
     (Z.abs (x (position (handleKeyDown m key a)) - x (position a)) = STEP ∨
      x (position (handleKeyDown m key a)) = 0 ∨
      x (position (handleKeyDown m key a)) = map_width m * GRID_SIZE - 48)) ∨
    (y (position (handleKeyDown m key a)) ≠ y (position a) ∧
     x (position (handleKeyDown m key a)) = x (position a) ∧
     Z.abs (y (position (handleKeyDown m key a)) - y (position a)) ≤ STEP ∧
     (Z.abs (y (position (handleKeyDown m key a)) - y (position a)) = STEP ∨
      y (position (handleKeyDown m key a)) = 0 ∨
      y (position (handleKeyDown m key a)) = map_height m * GRID_SIZE - 48))) ∧
   inBounds m (position (handleKeyDown m key a)) ∧
   isPositionValid m (position (handleKeyDown m key a)) = true ∧
   freeTile m (position (handleKeyDown m key a)) ∧
   positionsWritten (handleKeyDown m key a)
     = positionsWritten a
         ++ match avatarUser a with
            | Some uid => [(uid, position (handleKeyDown m key a))]
            | None => []
            end).
Proof.
  intros [Hx Hy]. unfold handleKeyDown.
  destruct (isTogetherMode a); [by left|].
  destruct (containerMounted a); simpl; [|by left].
  destruct (moved m key (position a)) as [newPos|] eqn:Hmv; [|by left].
  destruct ((bool_decide (x newPos ≠ x (position a))
             || bool_decide (y newPos ≠ y (position a)))
            && isPositionValid m newPos) eqn:Hgo; [|by left].
  apply andb_prop in Hgo as [Hch Hvalid]. right.
  assert (Hw : positionsWritten (updatePositionInDb newPos a)
               = positionsWritten a
                   ++ match avatarUser a with
                      | Some uid => [(uid, newPos)]
                      | None => []
                      end).
  { unfold updatePositionInDb. destruct (avatarUser a); simpl; [done|].
    by rewrite app_nil_r. }
  assert (Hne : x newPos ≠ x (position a) ∨ y newPos ≠ y (position a)).
  { apply orb_prop in Hch as [H|H]; apply bool_decide_eq_true in H; auto. }
  clear Hch.
  simpl. split_and!; [|..|done|by apply isPositionValid_free|exact Hw].
  - unfold moved, STEP, GRID_SIZE in *.
    repeat case_decide; simplify_eq; simpl in *;
      [right|right|left|left]; split_and!; lia.
  - unfold inBounds, moved, STEP, GRID_SIZE in *.
    repeat case_decide; simplify_eq; simpl in *; lia.
Qed.

Lemma keyboard_move_at_most_one_step_witness :
  inBounds openMap (mkPosition 320 576) ∧
  position (handleKeyDown openMap "ArrowDown"
              (mkAvatar (mkPosition 320 576) false true (Some "uid") []))
    = mkPosition 320 592.
Proof.
  assert (H : inBounds openMap (mkPosition 320 576)) by (vm_compute; intuition congruence).
  split; [exact H|].
  destruct (keyboard_move_at_most_one_step openMap "ArrowDown"
              (mkAvatar (mkPosition 320 576) false true (Some "uid") []) H)
    as [[Hsame _]|_]; [|reflexivity].
  vm_compute in Hsame. congruence.
Defined.

End VirtualSpaceFacts.

(** ** More on the administrative actions: deletion, audit trail, accounts *)

Module AdminExtras.
Import JS Firestore AdminFacts AdminQueries.

Lemma catching_throw {A} (body : M A) (failure : A) s s' :
  body s = (Throw, s') → catching body failure s = (failure, s').
Proof. unfold catching. by intros ->. Qed.

Lemma catching_ok {A} (body : M A) (failure : A) s r s' :
  body s = (Ok r, s') → catching body failure s = (r, s').
Proof. unfold catching. by intros ->. Qed.

Lemma hide_fields now spaceId d :
  u_email (hide now spaceId d) = u_email d ∧
  u_role (hide now spaceId d) = u_role d ∧
  u_pendingSpaces (hide now spaceId d)
    = filter (λ p, ps_spaceId p ≠ spaceId) (u_pendingSpaces d) ∧
  u_hiddenMeetings (hide now spaceId d)
    = match truthy spaceId with
      | Some sid => u_hiddenMeetings d ++ [sid]
      | None => u_hiddenMeetings d
      end.
Proof. done. Qed.

Lemma updated_Some fails us u :
  updated fails us u = true → ∃ d, us !! u = Some d.
Proof.
  unfold updated, found. intros H.
  apply andb_prop in H as [[_ H%bool_decide_eq_true]%andb_prop _]. exact H.
Qed.

Lemma deleteMeeting_db_spec svc fails now mid adminId adminName reason s m :
  meetings (db s) !! mid = Some m →
  fails (GetMeeting mid) = false →
  fails (DeleteMeeting mid) = false →
  (∀ sid, truthy (m_spaceId m) = Some sid → fails (DeleteSpace sid) = false) →
  ∃ resp s',
    deleteMeetingOf svc fails now mid adminId adminName reason s = (resp, s') ∧
    success resp = true ∧
    meetings (db s') = delete mid (meetings (db s)) ∧
    spaces (db s')
      = match truthy (m_spaceId m) with
        | Some sid => delete sid (spaces (db s))
        | None => spaces (db s)
        end ∧
    ∀ k, users (db s') !! k =
         if bool_decide (k ∈ uniqueUserIds m) && updated fails (users (db s)) k
         then hide now (m_spaceId m) <$> users (db s) !! k
         else users (db s) !! k.
Proof.
  intros Hm Hg Hdm Hds.
  assert (∃ resp s',
    AdminMeetingControlService.deleteMeetingCompletely
      fails now mid adminId adminName reason s = (resp, s') ∧
    success resp = true ∧
    meetings (db s') = delete mid (meetings (db s)) ∧
    spaces (db s')
      = match truthy (m_spaceId m) with
        | Some sid => delete sid (spaces (db s))
        | None => spaces (db s)
        end ∧
    ∀ k, users (db s') !! k =
         if bool_decide (k ∈ uniqueUserIds m) && updated fails (users (db s)) k
         then hide now (m_spaceId m) <$> users (db s) !! k
         else users (db s) !! k) as H; [|by destruct svc].
  unfold AdminMeetingControlService.deleteMeetingCompletely, catching.
  erewrite bind_ok by (by apply getMeeting_ok).
  rewrite Hm.
  destruct (forEachUser_spec fails now (m_spaceId m) (uniqueUserIds m)
              (uniq_NoDup _) [] (logged (GetMeeting mid) (db s) s))
    as (s1 & Hrun & _ & Hms & Hsp & Hus).
  unfold uniqueUserIds in Hrun. erewrite bind_ok by exact Hrun.
  erewrite bind_ok by (by apply deleteMeeting_ok).
  destruct (truthy (m_spaceId m)) as [sid|] eqn:Hsid.
  - erewrite bind_ok by (apply deleteSpace_ok; by apply Hds).
    unfold ret. eexists _, _. split; [done|]. simpl.
    rewrite Hms, Hsp. split_and!; done.
  - unfold bind, ret. eexists _, _. split; [done|]. simpl.
    rewrite Hms, Hsp. split_and!; done.
Qed.


(** X2.  [deleteMeetingCompletely] is not transactional: when the meeting is
    read and the deletion of the meeting record raises, the call returns the
    failure "Failed to delete meeting" with no affected users, the meetings
    and the spaces are as before, and yet every user whose update went
    through has been rewritten -- the space is hidden on the dashboards of
    the users of a meeting that still exists. *)
Theorem deleteMeeting_failure_keeps_meeting_but_hides
    svc fails now mid adminId adminName reason s m :
  meetings (db s) !! mid = Some m →
  fails (GetMeeting mid) = false →
  fails (DeleteMeeting mid) = true →
  ∃ s',
    deleteMeetingOf svc fails now mid adminId adminName reason s
      = (mkResponse false "Failed to delete meeting" (Some []), s') ∧
    meetings (db s') = meetings (db s) ∧
    spaces (db s') = spaces (db s) ∧
    (∀ k, users (db s') !! k =
          if bool_decide (k ∈ uniqueUserIds m) && updated fails (users (db s)) k
          then hide now (m_spaceId m) <$> users (db s) !! k
          else users (db s) !! k) ∧
    (∀ u sid, u ∈ uniqueUserIds m → updated fails (users (db s)) u = true →
              truthy (m_spaceId m) = Some sid →
              ∃ d', users (db s') !! u = Some d' ∧ sid ∈ u_hiddenMeetings d').
Proof.
  intros Hm Hg Hdm.
  destruct (forEachUser_spec fails now (m_spaceId m) (uniqueUserIds m)
              (uniq_NoDup _) [] (logged (GetMeeting mid) (db s) s))
    as (s1 & Hrun & _ & Hms & Hsp & Hus).
  exists (logged (DeleteMeeting mid) (db s1) s1).
  split_and!; try done.
  - assert (AdminMeetingControlService.deleteMeetingCompletely
              fails now mid adminId adminName reason s
            = (mkResponse false "Failed to delete meeting" (Some []),
               logged (DeleteMeeting mid) (db s1) s1)) as H; [|by destruct svc].
    unfold AdminMeetingControlService.deleteMeetingCompletely.
    apply catching_throw.
    erewrite bind_ok by (by apply getMeeting_ok). rewrite Hm.
    unfold uniqueUserIds in Hrun. erewrite bind_ok by exact Hrun.
    apply bind_throw. by apply call_fails.
  - intros u sid Hin Hupd Hsid. simpl. rewrite Hus. simpl.
    rewrite (bool_decide_eq_true_2 _ Hin), Hupd. simpl.
    destruct (updated_Some _ _ _ Hupd) as [d ->]. eexists. split; [done|].
    simpl. rewrite Hsid. set_solver.
Qed.

Lemma getMeetingAdminActions_ok fails mid s :
  fails (GetMeeting mid) = false →
  getMeetingAdminActions fails mid s
    = (default [] (m_adminActions <$> meetings (db s) !! mid),
       logged (GetMeeting mid) (db s) s).
Proof.
  intros Hg. unfold getMeetingAdminActions.
  apply catching_ok. erewrite bind_ok by (by apply getMeeting_ok).
  by destruct (meetings (db s) !! mid).
Qed.

(** X3.  The administrator and the reason passed to
    [deleteMeetingCompletely] are recorded nowhere: after a successful
    deletion the meeting record is absent, so that [getMeetingAdminActions]
    returns the empty list for it, whatever the record held; the other
    meeting records are as before. *)
Theorem deleteMeeting_leaves_no_audit_trail
    svc fails fails' now mid adminId adminName reason s m :
  meetings (db s) !! mid = Some m →
  fails (GetMeeting mid) = false →
  fails (DeleteMeeting mid) = false →
  (∀ sid, truthy (m_spaceId m) = Some sid → fails (DeleteSpace sid) = false) →
  ∃ resp s',
    deleteMeetingOf svc fails now mid adminId adminName reason s = (resp, s') ∧
    success resp = true ∧
    meetings (db s') !! mid = None ∧
    (getMeetingAdminActions fails' mid s').1 = [] ∧
    (∀ k, k ≠ mid → meetings (db s') !! k = meetings (db s) !! k).
Proof.
  intros Hm Hg Hdm Hds.
  destruct (deleteMeeting_db_spec svc fails now mid adminId adminName reason
              s m Hm Hg Hdm Hds) as (resp & s' & Hrun & Hok & Hms & _).
  exists resp, s'. rewrite Hms. split_and!; try done.
  - apply lookup_delete_eq.
  - unfold getMeetingAdminActions, catching, bind, getMeeting, call.
    destruct (fails' (GetMeeting mid)); [done|]. simpl.
    by rewrite Hms, lookup_delete_eq.
  - intros k Hk. by apply lookup_delete_ne.
Qed.

(** X4.  For a meeting without a space id (absent or empty), a successful
    [deleteMeetingCompletely] deletes the meeting record only: no space
    record changes, and the [hiddenMeetings] of every user are as before. *)
Theorem deleteMeeting_without_space_hides_nothing
    svc fails now mid adminId adminName reason s m :
  meetings (db s) !! mid = Some m →
  truthy (m_spaceId m) = None →
  fails (GetMeeting mid) = false →
  fails (DeleteMeeting mid) = false →
  ∃ resp s',
    deleteMeetingOf svc fails now mid adminId adminName reason s = (resp, s') ∧
    success resp = true ∧
    meetings (db s') = delete mid (meetings (db s)) ∧
    spaces (db s') = spaces (db s) ∧
    ∀ k, (u_hiddenMeetings <$> users (db s') !! k)
         = (u_hiddenMeetings <$> users (db s) !! k).
Proof.
  intros Hm Hsid Hg Hdm.
  destruct (deleteMeeting_db_spec svc fails now mid adminId adminName reason
              s m Hm Hg Hdm) as (resp & s' & Hrun & Hok & Hms & Hsp & Hus).
  { intros sid. by rewrite Hsid. }
  rewrite Hsid in Hsp. exists resp, s'. split_and!; try done.
  intros k. rewrite Hus.
  destruct (bool_decide (k ∈ uniqueUserIds m) && updated fails (users (db s)) k);
    [|done].
  destruct (users (db s) !! k) as [d|]; [|done].
  rewrite <-option_fmap_compose. simpl. by rewrite Hsid.
Qed.

Definition account (u : UserDoc) : jsstring * string := (u_email u, u_role u).

(** Two databases hold the same user records with the same accounts. *)
Definition sameAccounts (d d' : Db) : Prop :=
  ∀ k, account <$> users d' !! k = account <$> users d !! k.

Lemma sameAccounts_refl d : sameAccounts d d.
Proof. done. Qed.

Lemma sameAccounts_trans d1 d2 d3 :
  sameAccounts d1 d2 → sameAccounts d2 d3 → sameAccounts d1 d3.
Proof. intros H12 H23 k. by rewrite H23. Qed.

(** A database computation that keeps the accounts, whatever it returns. *)
Definition keeps {A} (m : M A) : Prop := ∀ s, sameAccounts (db s) (db (m s).2).

Lemma keeps_ret {A} (a : A) : keeps (ret a).
Proof. by intros s. Qed.

Lemma keeps_bind {A B} (m : M A) (k : A → M B) :
  keeps m → (∀ a, keeps (k a)) → keeps (bind m k).
Proof.
  intros Hm Hk s. unfold bind. specialize (Hm s).
  destruct (m s) as [[a|] s1]; simpl in *; [|done].
  eapply sameAccounts_trans; [done|]. apply Hk.
Qed.

Lemma keeps_try_catch {A} (m h : M A) : keeps m → keeps h → keeps (try_catch m h).
Proof.
  intros Hm Hh s. unfold try_catch. specialize (Hm s).
  destruct (m s) as [[a|] s1]; simpl in *; [done|].
  eapply sameAccounts_trans; [done|]. apply Hh.
Qed.

Lemma keeps_call {A} fails op (run : Db → Res A * Db) :
  (∀ d, sameAccounts d (run d).2) → keeps (call fails op run).
Proof.
  intros Hrun s. unfold call. destruct (fails op); [done|].
  specialize (Hrun (db s)). by destruct (run (db s)).
Qed.

Lemma keeps_updateUser fails id f :
  (∀ u, account (f u) = account u) → keeps (updateUser fails id f).
Proof.
  intros Hf. apply keeps_call. intros d.
  destruct (users d !! id) as [u|] eqn:Hu; [|done].
  intros k. simpl. destruct (decide (k = id)) as [->|Hne].
  - rewrite lookup_insert_eq, Hu. simpl. by rewrite Hf.
  - by rewrite lookup_insert_ne.
Qed.

Lemma keeps_forEachUser fails now spaceId ids aff :
  keeps (forEachUser fails now spaceId ids aff).
Proof.
  revert aff. induction ids as [|u ids IH]; intros aff; [apply keeps_ret|].
  apply keeps_bind; [|done].
  apply keeps_try_catch; [|apply keeps_ret].
  apply keeps_bind; [by apply keeps_call|].
  intros [ud|]; [|apply keeps_ret].
  apply keeps_bind; [by apply keeps_updateUser|]. intros _. apply keeps_ret.
Qed.

Lemma keeps_catching {A} (body : M A) (failure : A) s :
  keeps body → sameAccounts (db s) (db (catching body failure s).2).
Proof.
  intros H. unfold catching. specialize (H s). by destruct (body s) as [[a|] s1].
Qed.

Lemma isUserAdmin_sameAccounts fails u s s' :
  sameAccounts (db s) (db s') → (isUserAdmin fails u s').1 = (isUserAdmin fails u s).1.
Proof.
  intros H. unfold isUserAdmin, catching, bind, getUser, call.
  destruct (fails (GetUser u)); [done|]. simpl.
  specialize (H u). unfold account in H.
  destruct (users (db s') !! u) as [d'|], (users (db s) !! u) as [d|];
    simpl in *; try done.
  injection H as _ Hr. by rewrite Hr.
Qed.

(** No user record is created or deleted, none changes its e-mail address
    or role, and the administrator checks answer as before. *)
Definition accountsKept (s s' : St) : Prop :=
  dom (users (db s')) = dom (users (db s)) ∧
  (∀ k d', users (db s') !! k = Some d' →
     ∃ d, users (db s) !! k = Some d ∧
          u_email d' = u_email d ∧ u_role d' = u_role d) ∧
  (∀ fails' u, (isUserAdmin fails' u s').1 = (isUserAdmin fails' u s).1) ∧
  (∀ fails' u, (isCurrentUserAdmin fails' u s').1
               = (isCurrentUserAdmin fails' u s).1).

Lemma sameAccounts_kept s s' : sameAccounts (db s) (db s') → accountsKept s s'.
Proof.
  intros H. split_and!.
  - apply set_eq. intros k. rewrite !elem_of_dom. specialize (H k).
    destruct (users (db s') !! k), (users (db s) !! k); simpl in H; try done;
      split; intros []; done.
  - intros k d' Hd'. specialize (H k). rewrite Hd' in H.
    destruct (users (db s) !! k) as [d|]; [|done].
    injection H as He Hr. by exists d.
  - intros fails' u. by apply isUserAdmin_sameAccounts.
  - intros fails' [u|]; [|done]. by apply (isUserAdmin_sameAccounts fails' u).
Qed.

(** X5.  Whatever fails, [deleteMeetingCompletely] creates and deletes no
    user record and changes no e-mail address and no role; so [isUserAdmin]
    and [isCurrentUserAdmin] answer after it as they did before. *)
Theorem deleteMeeting_keeps_accounts
    svc fails now mid adminId adminName reason s :
  accountsKept s (deleteMeetingOf svc fails now mid adminId adminName reason s).2.
Proof.
  assert (Hmeet : ∀ X, keeps (getMeeting fails X)) by (intros; by apply keeps_call).
  apply sameAccounts_kept.
  destruct svc; apply keeps_catching;
    (apply keeps_bind; [done|]); (intros [m|]; [|apply keeps_ret]);
    (apply keeps_bind; [apply keeps_forEachUser|]); intros ?;
    (apply keeps_bind; [by apply keeps_call|]); intros _;
    (apply keeps_bind; [destruct (truthy _); [by apply keeps_call|apply keeps_ret]|]);
    intros _; apply keeps_ret.
Qed.

(** *** Sample environments *)

(** The environment in which the deletion of the meeting ["m1"] fails. *)
Definition meeting_delete_fails : Op → bool :=
  λ op, bool_decide (op = DeleteMeeting "m1").

(** A meeting without a space, attended by ["bob"]. *)
Definition meeting_without_space : MeetingDoc :=
  mkMeetingDoc None ["bob"] "carol" "active" None None None [].

Definition sample_state_no_space : St :=
  mkSt (set_meetings <["m2" := meeting_without_space]> sample_db) [].


Lemma deleteMeeting_failure_keeps_meeting_but_hides_witness :
  meetings (db sample_state) !! "m1" = Some sample_meeting ∧
  meeting_delete_fails (GetMeeting "m1") = false ∧
  meeting_delete_fails (DeleteMeeting "m1") = true ∧
  ∃ s',
    deleteMeetingOf ClientSimple meeting_delete_fails 7 "m1" "root" "Root" None
      sample_state
      = (mkResponse false "Failed to delete meeting" (Some []), s') ∧
    meetings (db s') = meetings (db sample_state) ∧
    ∃ d', users (db s') !! "bob" = Some d' ∧ "s1" ∈ u_hiddenMeetings d'.
Proof.
  assert (H1 : meetings (db sample_state) !! "m1" = Some sample_meeting)
    by reflexivity.
  assert (H2 : meeting_delete_fails (GetMeeting "m1") = false) by reflexivity.
  assert (H3 : meeting_delete_fails (DeleteMeeting "m1") = true) by reflexivity.
  split; [exact H1|]. split; [exact H2|]. split; [exact H3|].
  destruct (deleteMeeting_failure_keeps_meeting_but_hides ClientSimple
              meeting_delete_fails 7 "m1" "root" "Root" None sample_state
              sample_meeting H1 H2 H3)
    as (s' & Hrun & Hms & _ & _ & Hhid).
  exists s'. split; [exact Hrun|]. split; [exact Hms|].
  apply (Hhid "bob" "s1"); [|reflexivity..].
  apply list_elem_of_further, list_elem_of_here.
Defined.

Lemma deleteMeeting_leaves_no_audit_trail_witness :
  meetings (db sample_state) !! "m1" = Some sample_meeting ∧
  no_failure (GetMeeting "m1") = false ∧
  no_failure (DeleteMeeting "m1") = false ∧
  (∀ sid, truthy (m_spaceId sample_meeting) = Some sid →
          no_failure (DeleteSpace sid) = false) ∧
  ∃ resp s',
    deleteMeetingOf ClientSimple no_failure 7 "m1" "root" "Root" None sample_state
      = (resp, s') ∧
    (getMeetingAdminActions no_failure "m1" s').1 = [].
Proof.
  assert (H1 : meetings (db sample_state) !! "m1" = Some sample_meeting)
    by reflexivity.
  assert (H2 : no_failure (GetMeeting "m1") = false) by reflexivity.
  assert (H3 : no_failure (DeleteMeeting "m1") = false) by reflexivity.
  assert (H4 : ∀ sid, truthy (m_spaceId sample_meeting) = Some sid →
                      no_failure (DeleteSpace sid) = false)
    by (intros sid _; reflexivity).
  split; [exact H1|]. split; [exact H2|]. split; [exact H3|]. split; [exact H4|].
  destruct (deleteMeeting_leaves_no_audit_trail ClientSimple no_failure no_failure
              7 "m1" "root" "Root" None sample_state sample_meeting H1 H2 H3 H4)
    as (resp & s' & Hrun & _ & _ & Htrail & _).
  exists resp, s'. split; [exact Hrun|exact Htrail].
Defined.

Lemma deleteMeeting_without_space_hides_nothing_witness :
  meetings (db sample_state_no_space) !! "m2" = Some meeting_without_space ∧
  truthy (m_spaceId meeting_without_space) = None ∧
  no_failure (GetMeeting "m2") = false ∧
  no_failure (DeleteMeeting "m2") = false ∧
  ∃ resp s',
    deleteMeetingOf ClientSimple no_failure 7 "m2" "root" "Root" None
      sample_state_no_space = (resp, s') ∧
    success resp = true ∧
    spaces (db s') = spaces (db sample_state_no_space) ∧
    (u_hiddenMeetings <$> users (db s') !! "bob") = Some ["s0"].
Proof.
  assert (H1 : meetings (db sample_state_no_space) !! "m2"
               = Some meeting_without_space) by reflexivity.
  assert (H2 : truthy (m_spaceId meeting_without_space) = None) by reflexivity.
  assert (H3 : no_failure (GetMeeting "m2") = false) by reflexivity.
  assert (H4 : no_failure (DeleteMeeting "m2") = false) by reflexivity.
  split; [exact H1|]. split; [exact H2|]. split; [exact H3|]. split; [exact H4|].
  destruct (deleteMeeting_without_space_hides_nothing ClientSimple no_failure 7
              "m2" "root" "Root" None sample_state_no_space
              meeting_without_space H1 H2 H3 H4)
    as (resp & s' & Hrun & Hok & _ & Hsp & Hhid).
  exists resp, s'. split; [exact Hrun|]. split; [exact Hok|]. split; [exact Hsp|].
  rewrite Hhid. reflexivity.
Defined.

End AdminExtras.

(** ** Properties of leaving the space *)

Module VirtualSpaceLeaveFacts.
Import JS Firestore AdminFacts AdminExtras VirtualSpaceLeave.

Lemma handleLeave_spec fails now nowIso spaceId ls uid s :
  let s' := (handleLeave fails now nowIso spaceId ls (Some uid) s).2 in
  let userWritten :=
    negb (fails (GetUser uid)) && negb (fails (UpdateUser uid))
    && bool_decide (is_Some (users (db s) !! uid)) in
  let spaceWritten :=
    userWritten && negb (fails (UpdateSpace spaceId))
    && bool_decide (is_Some (spaces (db s) !! spaceId)) in
  meetings (db s') = meetings (db s) ∧
  users (db s')
    = (if userWritten
       then alter (λ u, leftFields now spaceId (Some u) u) uid (users (db s))
       else users (db s)) ∧
  spaces (db s')
    = (if spaceWritten
       then alter (withoutMember nowIso uid) spaceId (spaces (db s))
       else spaces (db s)).
Proof.
  simpl. unfold handleLeave, try_catch, bind, getUser, updateUser, updateSpace, call, ret.
  destruct s as [d lg]. simpl.
  destruct (fails (GetUser uid)); simpl; [done|].
  destruct (fails (UpdateUser uid)); simpl; [done|].
  destruct (users d !! uid) as [u|] eqn:Hu; simpl; [|done].
  assert (Hus : <[uid := leftFields now spaceId (Some u) u]> (users d)
                = alter (λ u, leftFields now spaceId (Some u) u) uid (users d)).
  { apply map_eq. intros k. rewrite lookup_alter.
    destruct (decide (k = uid)) as [->|Hne].
    - by rewrite lookup_insert_eq, decide_True, Hu.
    - by rewrite lookup_insert_ne, decide_False. }
  destruct (fails (UpdateSpace spaceId)); simpl; [by rewrite Hus|].
  destruct (spaces d !! spaceId) as [sp|] eqn:Hsp; simpl; [|by rewrite Hus].
  split_and!; try done.
  apply map_eq. intros k. rewrite lookup_alter.
  destruct (decide (k = spaceId)) as [->|Hne].
  - by rewrite lookup_insert_eq, decide_True, Hsp.
  - by rewrite lookup_insert_ne, decide_False.
Qed.

(** X6.  When the user's record and the space exist and the three calls go
    through, [handleLeave] stops the tracks of the local stream, pushes the
    dashboard route, rewrites the user's record without the pending entries
    and the hidden-meeting marks of this space (e-mail address and role as
    before), removes the user from the members of the space, and leaves
    every other user record, every other space and the meetings as they
    were. *)
Theorem handleLeave_removes_the_user_from_the_space
    fails now nowIso spaceId ls uid s d sp :
  users (db s) !! uid = Some d →
  spaces (db s) !! spaceId = Some sp →
  fails (GetUser uid) = false →
  fails (UpdateUser uid) = false →
  fails (UpdateSpace spaceId) = false →
  let r := handleLeave fails now nowIso spaceId ls (Some uid) s in
  pushed r.1 = "/dashboard" ∧
  stoppedTracks r.1 = default [] ls ∧
  (∃ d', users (db r.2) !! uid = Some d' ∧
         u_pendingSpaces d'
           = filter (λ p, ps_spaceId p ≠ Some spaceId) (u_pendingSpaces d) ∧
         u_hiddenMeetings d' = filter (λ h, h ≠ spaceId) (u_hiddenMeetings d) ∧
         (spaceId ∉ u_hiddenMeetings d') ∧
         u_email d' = u_email d ∧ u_role d' = u_role d) ∧
  (∃ sp', spaces (db r.2) !! spaceId = Some sp' ∧
          s_members sp' = filter (λ member, member ≠ uid) (s_members sp) ∧
          (uid ∉ s_members sp') ∧
          s_activeMeeting sp' = s_activeMeeting sp) ∧
  (∀ k, k ≠ uid → users (db r.2) !! k = users (db s) !! k) ∧
  (∀ k, k ≠ spaceId → spaces (db r.2) !! k = spaces (db s) !! k) ∧
  meetings (db r.2) = meetings (db s).
Proof.
  intros Hd Hsp Hg Hu Hs.
  destruct (handleLeave_spec fails now nowIso spaceId ls uid s) as (Hm & Hus & Hsps).
  rewrite Hg, Hu, Hs, Hd, Hsp in *. simpl in *.
  rewrite ?bool_decide_eq_true_2 in * by done. simpl in *.
  rewrite Hus, Hsps. split_and!; try done.
  - eexists. rewrite lookup_alter_eq, Hd. simpl. split_and!; try done.
    intros [Hne _]%list_elem_of_filter. done.
  - eexists. rewrite lookup_alter_eq, Hsp. simpl. split_and!; try done.
    intros [Hne _]%list_elem_of_filter. done.
  - intros k Hk. by rewrite lookup_alter_ne.
  - intros k Hk. by rewrite lookup_alter_ne.
Qed.

(** X7.  When the user's record does not exist, or its read or its update
    raises, [handleLeave] still pushes the dashboard route, and the database
    is as before: in particular the user is still a member of the space. *)
Theorem handleLeave_failure_keeps_membership
    fails now nowIso spaceId ls uid s :
  users (db s) !! uid = None ∨ fails (GetUser uid) = true
    ∨ fails (UpdateUser uid) = true →
  let r := handleLeave fails now nowIso spaceId ls (Some uid) s in
  pushed r.1 = "/dashboard" ∧
  users (db r.2) = users (db s) ∧
  spaces (db r.2) = spaces (db s) ∧
  meetings (db r.2) = meetings (db s).
Proof.
  intros H.
  destruct (handleLeave_spec fails now nowIso spaceId ls uid s) as (Hm & Hus & Hsps).
  assert (negb (fails (GetUser uid)) && negb (fails (UpdateUser uid))
          && bool_decide (is_Some (users (db s) !! uid)) = false) as Hw.
  { destruct H as [H|[H|H]]; rewrite H; simpl; by rewrite ?andb_false_r. }
  rewrite Hw in *. simpl in *. by rewrite Hus, Hsps.
Qed.

Lemma filter_ne_app_this (sid : string) (l : list string) :
  filter (λ h, h ≠ sid) (l ++ [sid]) = filter (λ h, h ≠ sid) l.
Proof.
  rewrite filter_app, filter_cons, decide_False, filter_nil, app_nil_r; [done|].
  intros H. by apply H.
Qed.

(** X8.  [deleteMeetingCompletely] followed by [handleLeave]: a user of the
    deleted meeting whose record was updated has the space id appended to
    [hiddenMeetings]; when that user then leaves the space, the id is
    filtered out again -- the list is the original one without the id --,
    and the space record stays absent. *)
Theorem handleLeave_undoes_the_admin_hide
    svc fails now nowIso mid adminId adminName reason ls s m sid u d :
  meetings (db s) !! mid = Some m →
  fails (GetMeeting mid) = false →
  fails (DeleteMeeting mid) = false →
  truthy (m_spaceId m) = Some sid →
  fails (DeleteSpace sid) = false →
  u ∈ m_attendees m ∨ u = m_creatorId m →
  users (db s) !! u = Some d →
  fails (GetUser u) = false →
  fails (UpdateUser u) = false →
  let deleted := (deleteMeetingOf svc fails now mid adminId adminName reason s).2 in
  let left := (handleLeave fails now nowIso sid ls (Some u) deleted).2 in
  (u_hiddenMeetings <$> users (db deleted) !! u) = Some (u_hiddenMeetings d ++ [sid]) ∧
  (u_hiddenMeetings <$> users (db left) !! u)
    = Some (filter (λ h, h ≠ sid) (u_hiddenMeetings d)) ∧
  spaces (db left) !! sid = None.
Proof.
  intros Hm Hg Hdm Hsid Hds Hin Hd Hgu Huu deleted left. subst left deleted.
  assert (Hin' : u ∈ uniqueUserIds m).
  { unfold uniqueUserIds. rewrite uniq_elem_of. set_solver. }
  assert (Hupd : updated fails (users (db s)) u = true).
  { unfold updated, found. rewrite Hgu, Huu, Hd. simpl. done. }
  destruct (deleteMeeting_db_spec svc fails now mid adminId adminName reason
              s m Hm Hg Hdm) as (resp & s1 & Hrun & _ & _ & Hsps & Hu1).
  { intros sid'. rewrite Hsid. by intros [= <-]. }
  rewrite Hrun. cbn [snd].
  assert (Hd1 : users (db s1) !! u = Some (hide now (m_spaceId m) d)).
  { by rewrite Hu1, (bool_decide_eq_true_2 _ Hin'), Hupd, Hd. }
  rewrite Hsid in Hsps.
  destruct (handleLeave_spec fails now nowIso sid ls u s1) as (_ & Hus' & Hsps').
  assert (Hgone : spaces (db s1) !! sid = None).
  { rewrite Hsps. apply lookup_delete_eq. }
  rewrite Hgu, Huu, Hd1 in Hus', Hsps'. rewrite Hgone in Hsps'.
  rewrite (bool_decide_eq_true_2 (is_Some (Some _))) in Hus' by done.
  rewrite (bool_decide_eq_false_2 (is_Some None)), andb_false_r in Hsps'
    by (by intros [? ?]).
  cbn [negb andb] in Hus'.
  rewrite Hd1, Hus', Hsps', lookup_alter_eq, Hd1. simpl. rewrite Hsid.
  by rewrite filter_ne_app_this.
Qed.

Lemma handleLeave_removes_the_user_from_the_space_witness :
  users (db sample_state) !! "bob" = Some (sample_user "bob") ∧
  spaces (db sample_state) !! "s1"
    = Some (mkSpaceDoc true None "" None None ["bob"; "carol"]) ∧
  ∃ d' sp',
    users (db (handleLeave no_failure 7 "2025" "s1" (Some ["audio"]) (Some "bob")
                 sample_state).2) !! "bob" = Some d' ∧
    u_pendingSpaces d'
      = filter (λ p, ps_spaceId p ≠ Some "s1") (u_pendingSpaces (sample_user "bob")) ∧
    spaces (db (handleLeave no_failure 7 "2025" "s1" (Some ["audio"]) (Some "bob")
                  sample_state).2) !! "s1" = Some sp' ∧
    ("bob" ∉ s_members sp').
Proof.
  assert (H1 : users (db sample_state) !! "bob" = Some (sample_user "bob"))
    by reflexivity.
  assert (H2 : spaces (db sample_state) !! "s1"
               = Some (mkSpaceDoc true None "" None None ["bob"; "carol"]))
    by reflexivity.
  split; [exact H1|]. split; [exact H2|].
  destruct (handleLeave_removes_the_user_from_the_space no_failure 7 "2025" "s1"
              (Some ["audio"]) "bob" sample_state _ _ H1 H2 eq_refl eq_refl eq_refl)
    as (_ & _ & (d' & Hd' & Hp & _) & (sp' & Hsp' & _ & Hnin & _) & _).
  exists d', sp'. split; [exact Hd'|]. split; [exact Hp|]. split; [exact Hsp'|].
  exact Hnin.
Defined.

Lemma handleLeave_failure_keeps_membership_witness :
  (users (db sample_state) !! "alice" = None
   ∨ no_failure (GetUser "alice") = true
   ∨ no_failure (UpdateUser "alice") = true) ∧
  users (db (handleLeave no_failure 7 "2025" "s1" None (Some "alice")
               sample_state).2) = users (db sample_state) ∧
  spaces (db (handleLeave no_failure 7 "2025" "s1" None (Some "alice")
                sample_state).2) = spaces (db sample_state).
Proof.
  assert (H : users (db sample_state) !! "alice" = None
              ∨ no_failure (GetUser "alice") = true
              ∨ no_failure (UpdateUser "alice") = true) by (left; reflexivity).
  split; [exact H|].
  destruct (handleLeave_failure_keeps_membership no_failure 7 "2025" "s1" None
              "alice" sample_state H) as (_ & Hus & Hsp & _).
  split; [exact Hus|exact Hsp].
Defined.

Lemma handleLeave_undoes_the_admin_hide_witness :
  meetings (db sample_state) !! "m1" = Some sample_meeting ∧
  truthy (m_spaceId sample_meeting) = Some "s1" ∧
  ("bob" ∈ m_attendees sample_meeting ∨ "bob" = m_creatorId sample_meeting) ∧
  users (db sample_state) !! "bob" = Some (sample_user "bob") ∧
  (u_hiddenMeetings
     <$> users (db (handleLeave no_failure 8 "2025" "s1" None (Some "bob")
                      (deleteMeetingOf ClientSimple no_failure 8 "m1" "root" "Root"
                         None sample_state).2).2) !! "bob")
    = Some (filter (λ h, h ≠ "s1") (u_hiddenMeetings (sample_user "bob"))).
Proof.
  assert (H1 : meetings (db sample_state) !! "m1" = Some sample_meeting)
    by reflexivity.
  assert (H2 : truthy (m_spaceId sample_meeting) = Some "s1") by reflexivity.
  assert (H3 : "bob" ∈ m_attendees sample_meeting ∨ "bob" = m_creatorId sample_meeting).
  { left. apply list_elem_of_further, list_elem_of_here. }
  assert (H4 : users (db sample_state) !! "bob" = Some (sample_user "bob"))
    by reflexivity.
  split; [exact H1|]. split; [exact H2|]. split; [exact H3|]. split; [exact H4|].
  destruct (handleLeave_undoes_the_admin_hide ClientSimple no_failure 8 "2025" "m1"
              "root" "Root" None None sample_state sample_meeting "s1" "bob"
              (sample_user "bob") H1 eq_refl eq_refl H2 eq_refl H3 H4 eq_refl eq_refl)
    as (_ & Hleft & _).
  exact Hleft.
Defined.

End VirtualSpaceLeaveFacts.

(** ** Properties of the panel *)

Module AdminMeetingControlsFacts.
Import JS Firestore AdminFacts AdminExtras AdminMeetingControls.

Lemma or_else_nonempty a b : b ≠ "" → or_else a b ≠ "".
Proof.
  intros Hb. unfold or_else, truthy. destruct a as [s|]; [|done].
  by destruct (decide (s = "")).
Qed.

(** X9.  The handlers of the panel, when nobody is signed in, or the meeting
    does not exist or cannot be read: both show one destructive "Error"
    toast ("User not authenticated", or "Meeting not found" when the read
    goes through), reset [loading], keep the reason typed in, do not call
    [onMeetingUpdate], and leave the database as it was; without a
    signed-in user no database call is made. *)
Theorem panel_keeps_the_database_without_user_or_meeting
    fails now nowIso currentUser onMeetingUpdate mid p s :
  currentUser = None ∨ meetings (db s) !! mid = None
    ∨ fails (GetMeeting mid) = true →
  let ended := handleEndMeeting fails now nowIso currentUser onMeetingUpdate mid p s in
  let deleted := handleDeleteMeeting fails now currentUser onMeetingUpdate mid p s in
  (db ended.2 = db s ∧ db deleted.2 = db s) ∧
  (loading ended.1 = None ∧ loading deleted.1 = None) ∧
  (adminReason ended.1 = adminReason p ∧ adminReason deleted.1 = adminReason p) ∧
  (meetingUpdates ended.1 = meetingUpdates p ∧
   meetingUpdates deleted.1 = meetingUpdates p) ∧
  (∃ d1 d2,
     toasts ended.1 = toasts p ++ [VirtualSpace.mkToast true "Error" d1] ∧
     toasts deleted.1 = toasts p ++ [VirtualSpace.mkToast true "Error" d2] ∧
     (currentUser = None → d1 = "User not authenticated" ∧ d2 = d1 ∧
                           ended.2 = s ∧ deleted.2 = s) ∧
     (is_Some currentUser → fails (GetMeeting mid) = false →
      d1 = "Meeting not found" ∧ d2 = d1)).
Proof.
  intros H. simpl. unfold handleEndMeeting, handleDeleteMeeting.
  destruct currentUser as [user|].
  - destruct H as [?|H]; [done|].
    unfold AdminMeetingClientSimpleService.endMeetingForAllUsers,
      AdminMeetingClientSimpleService.deleteMeetingCompletely,
      catching, bind, getMeeting, call.
    destruct (fails (GetMeeting mid)) eqn:Hf; simpl.
    + split_and!; try done. eexists _, _. split_and!; done.
    + destruct H as [H|?]; [|done]. rewrite H. simpl.
      split_and!; try done. eexists _, _. split_and!; done.
  - simpl. split_and!; try done. eexists _, _. split_and!; try done.
Qed.

(** X10.  [handleDeleteMeeting] for a signed-in user, when the meeting is
    read and the deletions go through: the "Meeting Deleted" toast is shown,
    the reason is cleared, [loading] is reset, [onMeetingUpdate] is called
    once when it is given, and the meeting record and the record of its
    space are absent. *)
Theorem panel_delete_meeting_reports_success
    fails now user onMeetingUpdate mid p s m :
  meetings (db s) !! mid = Some m →
  fails (GetMeeting mid) = false →
  fails (DeleteMeeting mid) = false →
  (∀ sid, truthy (m_spaceId m) = Some sid → fails (DeleteSpace sid) = false) →
  let r := handleDeleteMeeting fails now (Some user) onMeetingUpdate mid p s in
  loading r.1 = None ∧ adminReason r.1 = "" ∧
  meetingUpdates r.1
    = (if onMeetingUpdate then S (meetingUpdates p) else meetingUpdates p) ∧
  (∃ d, toasts r.1 = toasts p ++ [VirtualSpace.mkToast false "Meeting Deleted" d]) ∧
  meetings (db r.2) !! mid = None ∧
  (∀ sid, truthy (m_spaceId m) = Some sid → spaces (db r.2) !! sid = None).
Proof.
  intros Hm Hg Hdm Hds. simpl. unfold handleDeleteMeeting.
  destruct (deleteMeeting_db_spec ClientSimple fails now mid (uid user)
              (or_else (displayName user) (or_else (email user) "Admin"))
              (Some (or_else (Some (adminReason p)) "Meeting deleted by admin"))
              s m Hm Hg Hdm Hds) as (resp & s' & Hrun & Hok & Hms & Hsp & _).
  simpl in Hrun. rewrite Hrun. unfold report. rewrite Hok. simpl.
  split_and!; try done.
  - by eexists.
  - rewrite Hms. apply lookup_delete_eq.
  - intros sid Hsid. rewrite Hsp, Hsid. apply lookup_delete_eq.
Qed.

(** *** A sample panel *)

Definition sample_admin : FirebaseUser := mkFirebaseUser "root" None (Some "root@x.org").

Definition sample_panel : Panel := mkPanel "duplicate" None [] 0.

Lemma panel_keeps_the_database_without_user_or_meeting_witness :
  (@None FirebaseUser = None ∨ meetings (db sample_state) !! "m1" = None
   ∨ no_failure (GetMeeting "m1") = true) ∧
  db (handleDeleteMeeting no_failure 7 None true "m1" sample_panel sample_state).2
    = db sample_state ∧
  meetingUpdates
    (handleDeleteMeeting no_failure 7 None true "m1" sample_panel sample_state).1
    = meetingUpdates sample_panel.
Proof.
  assert (H : @None FirebaseUser = None ∨ meetings (db sample_state) !! "m1" = None
              ∨ no_failure (GetMeeting "m1") = true) by (left; reflexivity).
  split; [exact H|].
  destruct (panel_keeps_the_database_without_user_or_meeting no_failure 7 "2025"
              None true "m1" sample_panel sample_state H)
    as ((_ & Hdb) & _ & _ & (_ & Hup) & _).
  split; [exact Hdb|exact Hup].
Defined.

Lemma panel_delete_meeting_reports_success_witness :
  meetings (db sample_state) !! "m1" = Some sample_meeting ∧
  no_failure (GetMeeting "m1") = false ∧
  no_failure (DeleteMeeting "m1") = false ∧
  (∀ sid, truthy (m_spaceId sample_meeting) = Some sid →
          no_failure (DeleteSpace sid) = false) ∧
  adminReason
    (handleDeleteMeeting no_failure 7 (Some sample_admin) true "m1" sample_panel
       sample_state).1 = "" ∧
  meetings
    (db (handleDeleteMeeting no_failure 7 (Some sample_admin) true "m1" sample_panel
           sample_state).2) !! "m1" = None.
Proof.
  assert (H1 : meetings (db sample_state) !! "m1" = Some sample_meeting)
    by reflexivity.
  assert (H2 : no_failure (GetMeeting "m1") = false) by reflexivity.
  assert (H3 : no_failure (DeleteMeeting "m1") = false) by reflexivity.
  assert (H4 : ∀ sid, truthy (m_spaceId sample_meeting) = Some sid →
                      no_failure (DeleteSpace sid) = false)
    by (intros sid _; reflexivity).
  split; [exact H1|]. split; [exact H2|]. split; [exact H3|]. split; [exact H4|].
  destruct (panel_delete_meeting_reports_success no_failure 7 sample_admin true
              "m1" sample_panel sample_state sample_meeting H1 H2 H3 H4)
    as (_ & Hreason & _ & _ & Hgone & _).
  split; [exact Hreason|exact Hgone].
Defined.

End AdminMeetingControlsFacts.

(** ** More on the mesh session *)

Module MeshExtras.
Import JS Mesh MeshFacts.

(** What a connection entry records about its peer connection: the stream
    its [ontrack] handler fills and the state [isConnected] follows. *)
Definition view (pc : RTCPeerConnection) : nat * string :=
  (pc_remoteStream pc, connectionState pc).

Record Linked (s : Session) : Prop := mkLinked {
  linked_pc : ∀ p c, connections s !! p = Some c →
    ∃ pc, pcs s !! peerConnection c = Some pc ∧
          pc_remoteStream pc = remoteStream c ∧
          isConnected c = bool_decide (connectionState pc = "connected");
  linked_stream : ∀ p c, connections s !! p = Some c →
    remoteStream c < length (streams s);
  linked_inj : ∀ p p' c c',
    connections s !! p = Some c → connections s !! p' = Some c' →
    remoteStream c = remoteStream c' → p = p'
}.

Lemma view_alter f r (h : list RTCPeerConnection) :
  (∀ pc, view (f pc) = view pc) → view <$> alter f r h = view <$> h.
Proof.
  intros Hf. rewrite (list_fmap_alter view f id).
  - by apply list_alter_id.
  - apply Forall_forall. intros pc _. apply Hf.
Qed.

Lemma Linked_frame s s' :
  connections s' = connections s →
  view <$> pcs s' = view <$> pcs s →
  length (streams s') = length (streams s) →
  Linked s → Linked s'.
Proof.
  intros Hc Hv Hl [H1 H2 H3]. constructor; rewrite ?Hc, ?Hl; try done.
  intros p c Hp. destruct (H1 p c Hp) as (pc & Hpc & Hrs & Hic).
  assert ((view <$> pcs s') !! peerConnection c = Some (view pc)) as Hv'.
  { by rewrite Hv, list_lookup_fmap, Hpc. }
  rewrite list_lookup_fmap in Hv'.
  destruct (pcs s' !! peerConnection c) as [pc'|]; [|done].
  injection Hv' as Hrs' Hcs'. exists pc'. split; [done|].
  by rewrite Hrs', Hcs'.
Qed.

Section Session.

Variable autoId : gset string → string.
Variable browserOffer : nat → option SDP.
Variable now : nat.

Abbreviation createOffer := (Mesh.createOffer autoId browserOffer now).
Abbreviation handleParticipantJoined := (Mesh.handleParticipantJoined autoId browserOffer now).
Abbreviation onParticipantChange := (Mesh.onParticipantChange autoId browserOffer now).
Abbreviation initialize := (Mesh.initialize autoId browserOffer now).
Abbreviation step := (Mesh.step autoId browserOffer now).
Abbreviation run := (Mesh.run autoId browserOffer now).
Abbreviation joinAll := (MeshFacts.joinAll autoId browserOffer now).

Lemma createOffer_view p s :
  view <$> pcs (createOffer p s) = view <$> pcs s ∧
  streams (createOffer p s) = streams s.
Proof.
  unfold Mesh.createOffer.
  destruct (connections s !! p) as [c|]; [|done].
  destruct (browserOffer (peerConnection c)) as [offer|]; [|done].
  split; [|done]. simpl. by apply view_alter.
Qed.

Lemma handleParticipantJoined_Linked p d s :
  Core s → connections s !! p = None → Linked s →
  Linked (handleParticipantJoined p d s).
Proof.
  intros HC Hp [H1 H2 H3]. unfold Mesh.handleParticipantJoined.
  set (s4 := set_participants _ _).
  destruct (createOffer_frame autoId browserOffer now p s4) as (_ & Hcon & _).
  destruct (createOffer_view p s4) as [Hv Hs].
  apply (Linked_frame s4); [done|done|by rewrite Hs|].
  constructor; simpl.
  - intros q c [[<- <-]|[Hne Hq]]%lookup_insert_Some; simpl.
    + eexists. split; [by apply list_lookup_middle|]. done.
    + destruct (H1 q c Hq) as (pc & Hpc & ?). exists pc.
      split; [|done]. rewrite lookup_app_l; [done|]. by eapply lookup_lt_Some.
  - intros q c [[<- <-]|[Hne Hq]]%lookup_insert_Some; simpl;
      rewrite length_app; simpl; [lia|].
    specialize (H2 q c Hq). lia.
  - intros q q' c c' [[<- <-]|[Hne Hq]]%lookup_insert_Some
      [[<- <-]|[Hne' Hq']]%lookup_insert_Some; simpl; try done.
    + intros Heq. specialize (H2 q' c' Hq'). lia.
    + intros Heq. specialize (H2 q c Hq). lia.
    + by apply H3.
Qed.

Lemma handleParticipantLeft_Linked p s :
  Core s → Linked s → Linked (Mesh.handleParticipantLeft p s).
Proof.
  intros HC [H1 H2 H3]. unfold Mesh.handleParticipantLeft.
  destruct (connections s !! p) as [c0|] eqn:Hp.
  - constructor; simpl.
    + intros q c [Hne Hq]%lookup_delete_Some.
      destruct (H1 q c Hq) as (pc & Hpc & ?). exists pc. split; [|done].
      rewrite list_lookup_alter_ne; [done|]. intros Heq.
      destruct HC as [HC1 _ _ _ _].
      destruct (HC1 p c0 Hp) as [_ Hl0], (HC1 q c Hq) as [_ Hl].
      rewrite Heq in Hl0. congruence.
    + intros q c [Hne Hq]%lookup_delete_Some. by eapply H2.
    + intros q q' c c' [_ Hq]%lookup_delete_Some [_ Hq']%lookup_delete_Some.
      by apply H3.
  - constructor; simpl; done.
Qed.

Lemma onAnswerSnapshot_Linked l docs s :
  Linked s → Linked (onAnswerSnapshot l docs s).
Proof.
  intros HL. unfold onAnswerSnapshot.
  destruct (answerListeners s !! l) as [al|]; [|done].
  destruct (al_active al); [|done].
  destruct docs as [|answerData docs]; [done|].
  destruct (connections s !! al_participantId al) as [c|]; [|done].
  destruct (pcs s !! peerConnection c) as [pc|]; [|done].
  destruct (currentRemoteDescription pc); [done|].
  apply (Linked_frame s); [done| |done|done]. simpl. by apply view_alter.
Qed.

Lemma onAnswerSettled_Linked i ok s :
  Linked s → Linked (onAnswerSettled i ok s).
Proof.
  intros HL. unfold onAnswerSettled.
  destruct (pendingAnswers s !! i) as [w|]; [|done].
  destruct ok; (apply (Linked_frame s); [done| |done|done]); simpl; [|done].
  by apply view_alter.
Qed.

Lemma Linked_empty s : connections s = ∅ → Linked s.
Proof. intros H. constructor; rewrite H; intros; by simplify_map_eq. Qed.

Lemma joinAll_Linked l :
  NoDup l.*1 → ∀ s,
  Core s → (∀ id, id ∈ l.*1 → connections s !! id = None) → Linked s →
  Linked (joinAll l s).
Proof.
  induction l as [|[id d] l IH]; intros Hnd s HC Hnew HL; [done|].
  apply NoDup_cons in Hnd as [Hid Hnd].
  change (joinAll ((id, d) :: l) s) with (joinAll l (onParticipantChange added id d s)).
  unfold Mesh.onParticipantChange. simpl.
  destruct (decide (id ≠ currentUserId s)) as [Hne|Heq].
  - destruct (handleParticipantJoined_spec autoId browserOffer now id d s HC)
      as (HC1 & _ & Hc1 & _ & _).
    { apply Hnew. set_solver. }
    apply IH; try done.
    + intros id' Hin. rewrite Hc1, lookup_insert_ne by set_solver.
      apply Hnew. set_solver.
    + apply handleParticipantJoined_Linked; [done| |done]. apply Hnew. set_solver.
  - apply IH; try done. intros id' Hin. apply Hnew. set_solver.
Qed.

Lemma initialize_Linked s :
  Core s → connections s = ∅ → Linked (initialize s).
Proof.
  intros HC Hempty. unfold Mesh.initialize.
  set (s2 := set_unsubscribe Active _).
  apply (joinAll_Linked (map_to_list (room_participants s2))).
  - apply NoDup_fst_map_to_list.
  - by apply (Core_same s).
  - intros id _. change (connections s2) with (connections s). by rewrite Hempty.
  - by apply Linked_empty.
Qed.

Lemma step_Linked ev s : Inv s → Linked s → Linked (step ev s).
Proof.
  intros [HC Ha Hi] HL.
  destruct ev as [| |id data|id|l docs|i ok|cd ok|r tracks|r cand|r st]; simpl.
  - destruct (unsubscribe s) eqn:Hu; try done.
    apply initialize_Linked; [done|]. apply Hi. congruence.
  - destruct (leave now s) as [s'|] eqn:Hl; simpl; [|done].
    apply Linked_empty.
    by destruct (leave_spec now s s' Hl) as (_ & _ & _ & _ & Hcon & _).
  - set (s1 := set_room_participants _ s).
    assert (HL1 : Linked s1) by by apply (Linked_frame s).
    destruct (unsubscribe s) eqn:Hu; try done.
    destruct (decide (id ∈ dom (room_participants s))) as [Hin|Hnin]; simpl; [done|].
    destruct (decide (id ≠ currentUserId s)) as [Hne|Heq]; [|done].
    apply handleParticipantJoined_Linked; [by apply (Core_same s)| |done].
    apply not_elem_of_dom. change (connections s1) with (connections s).
    rewrite (Ha eq_refl). set_solver.
  - destruct (room_participants s !! id) as [data|]; [|done].
    set (s1 := set_room_participants _ s).
    assert (HL1 : Linked s1) by by apply (Linked_frame s).
    destruct (unsubscribe s) eqn:Hu; try done. simpl.
    apply handleParticipantLeft_Linked; [by apply (Core_same s)|done].
  - by apply onAnswerSnapshot_Linked.
  - destruct (pendingAnswers s !! i) as [w|]; [|done].
    destruct (open_pc s (pa_peerConnection w)); [|done].
    by apply onAnswerSettled_Linked.
  - rewrite deliverCandidate_none by (by destruct HC).
    by apply (Linked_frame s).
  - destruct (open_pc s r) as [pc|]; [|done].
    apply (Linked_frame s); try done. simpl. by rewrite length_alter.
  - destruct (open_pc s r) as [pc|]; [|done].
    destruct cand; [|done]. by apply (Linked_frame s).
  - destruct (open_pc s r) as [pc|] eqn:Hpc; [|done].
    apply open_pc_Some in Hpc as [Hpc Hopen].
    destruct HL as [H1 H2 H3], HC as [HC1 HC2 _ _ _].
    assert (Hl : links s !! r = Some (pc_participantId pc, false)).
    { unfold links. rewrite list_lookup_fmap, Hpc. simpl. unfold link. by rewrite Hopen. }
    destruct (HC2 r _ Hl) as (c0 & Hc0 & Hr0).
    constructor; simpl.
    + intros q c [[<- (c' & Hc' & ->)]|[Hne Hq]]%lookup_alter_Some; simpl.
      * assert (c' = c0) as -> by congruence. rewrite Hr0.
        eexists. rewrite list_lookup_alter_eq, Hpc. simpl. split; [done|].
        destruct (H1 _ _ Hc0) as (pc' & Hpc' & Hrs & _).
        rewrite Hr0, Hpc in Hpc'. injection Hpc' as <-. done.
      * destruct (H1 q c Hq) as (pc' & Hpc' & ?). exists pc'. split; [|done].
        rewrite list_lookup_alter_ne; [done|]. intros Heq.
        destruct (HC1 q c Hq) as [_ Hl']. rewrite <-Heq in Hl'. congruence.
    + intros q c [[<- (c' & Hc' & ->)]|[Hne Hq]]%lookup_alter_Some; simpl;
        by eapply H2.
    + intros q q' c c' [[<- (c1 & Hc1 & ->)]|[Hne Hq]]%lookup_alter_Some
        [[<- (c2 & Hc2 & ->)]|[Hne' Hq']]%lookup_alter_Some; simpl; try done;
        intros Heq; by eapply H3.
Qed.

Lemma run_Linked evs s : Inv s → Linked s → Linked (run evs s).
Proof.
  revert s. induction evs as [|ev evs IH]; intros s HI HL; [done|]. simpl.
  apply IH; [|by apply step_Linked].
  by destruct (step_Inv autoId browserOffer now ev s HI).
Qed.

Lemma newManager_Linked me ls rp ro rc : Linked (newManager me ls rp ro rc).
Proof. by apply Linked_empty. Qed.

Lemma reachable me ls rp ro rc evs :
  Inv (run evs (newManager me ls rp ro rc)) ∧
  Linked (run evs (newManager me ls rp ro rc)) ∧
  currentUserId (run evs (newManager me ls rp ro rc)) = me.
Proof.
  destruct (run_Inv autoId browserOffer now evs _ (newManager_Inv me ls rp ro rc))
    as (HI & _ & Hme).
  split_and!; [done| |done].
  apply run_Linked; [apply newManager_Inv|apply newManager_Linked].
Qed.

(** X11.  In every state a session reaches, [isParticipantConnected(p)] is
    true exactly when the connections map holds an entry for [p] whose peer
    connection -- created for [p] and not closed -- is in the connection
    state ["connected"]. *)
Theorem isParticipantConnected_follows_connection_state me ls rp ro rc evs p :
  let s := run evs (newManager me ls rp ro rc) in
  isParticipantConnected p s = true ↔
  ∃ c pc, connections s !! p = Some c ∧ pcs s !! peerConnection c = Some pc ∧
          pc_participantId pc = p ∧ pc_closed pc = false ∧
          connectionState pc = "connected".
Proof.
  intros s. subst s.
  destruct (reachable me ls rp ro rc evs) as ([HC _ _] & [H1 _ _] & _).
  unfold isParticipantConnected. split.
  - destruct (connections _ !! p) as [c|] eqn:Hc; [|done]. intros Hic.
    destruct (H1 p c Hc) as (pc & Hpc & _ & Hst).
    destruct (Core_held_open _ p c pc HC Hc Hpc) as [Hid Hop].
    exists c, pc. split_and!; try done.
    rewrite Hic in Hst. symmetry in Hst. by apply bool_decide_eq_true in Hst.
  - intros (c & pc & Hc & Hpc & _ & _ & Hst). rewrite Hc.
    destruct (H1 p c Hc) as (pc' & Hpc' & _ & ->).
    assert (pc' = pc) as -> by congruence. by apply bool_decide_eq_true_2.
Qed.

Lemma length_omap {A B} (f : A → option B) (l : list A) :
  (length (omap f l) ≤ length l)%nat.
Proof.
  induction l as [|x l IH]; [done|]. csimpl.
  destruct (f x); simpl in *; lia.
Qed.

(** X12.  In every state a session reaches, [getParticipantCount()] is the
    number of participant documents of the room other than the one under the
    current user's id while the participants listener is active, and 0
    otherwise; [getRemoteStreams()] never lists more streams than that; and
    a participant reported as connected is another participant of the
    room. *)
Theorem participant_count_is_the_others_in_the_room me ls rp ro rc evs :
  let s := run evs (newManager me ls rp ro rc) in
  getParticipantCount s
    = (if decide (unsubscribe s = Active)
       then size (dom (room_participants s) ∖ {[me]})
       else 0) ∧
  (length (getRemoteStreams s) ≤ getParticipantCount s)%nat ∧
  (∀ p, isParticipantConnected p s = true →
        p ≠ me ∧ p ∈ dom (room_participants s)).
Proof.
  intros s. subst s.
  destruct (reachable me ls rp ro rc evs) as ([HC Ha Hi] & _ & Hme).
  set (s := run evs _) in *. split_and!.
  - unfold getParticipantCount. rewrite <-size_dom.
    destruct (decide (unsubscribe s = Active)) as [Hu|Hu].
    + by rewrite (Ha Hu), Hme.
    + by rewrite (Hi Hu), dom_empty_L, size_empty.
  - unfold getRemoteStreams, getParticipantCount.
    etrans; [apply length_filter|]. etrans; [apply length_omap|].
    by rewrite length_fmap, length_map_to_list.
  - intros p Hp. unfold isParticipantConnected in Hp.
    destruct (connections s !! p) as [c|] eqn:Hc; [|done].
    apply elem_of_dom_2 in Hc.
    destruct (decide (unsubscribe s = Active)) as [Hu|Hu].
    + rewrite (Ha Hu), Hme in Hc. set_solver.
    + rewrite (Hi Hu) in Hc. set_solver.
Qed.

(** X13.  When tracks arrive on an open peer connection of a session, the
    [ontrack] handler adds them to the remote stream of the connection entry
    of that participant, that stream is among [getRemoteStreams()]
    afterwards, and no other stream, no connection entry and no peer
    connection changes. *)
Theorem received_tracks_reach_getRemoteStreams me ls rp ro rc evs r pc tracks :
  open_pc (run evs (newManager me ls rp ro rc)) r = Some pc →
  tracks ≠ [] →
  let s := run evs (newManager me ls rp ro rc) in
  let s' := step (EvTrack r tracks) s in
  ∃ c old new,
    connections s' !! pc_participantId pc = Some c ∧ peerConnection c = r ∧
    streams s !! remoteStream c = Some old ∧
    streams s' !! remoteStream c = Some new ∧
    (∀ t, t ∈ old ∨ t ∈ tracks → t ∈ new) ∧
    new ∈ getRemoteStreams s' ∧
    (∀ i, i ≠ remoteStream c → streams s' !! i = streams s !! i) ∧
    connections s' = connections s ∧ pcs s' = pcs s.
Proof.
  intros Hopen Htr s s'. subst s s'.
  destruct (reachable me ls rp ro rc evs) as ([HC _ _] & [H1 H2 _] & _).
  set (s := run evs _) in *. simpl. rewrite Hopen.
  apply open_pc_Some in Hopen as [Hpc Hop].
  destruct HC as [_ HC2 _ _ _].
  assert (Hl : links s !! r = Some (pc_participantId pc, false)).
  { unfold links. rewrite list_lookup_fmap, Hpc. simpl. unfold link. by rewrite Hop. }
  destruct (HC2 r _ Hl) as (c & Hc & Hr).
  destruct (H1 _ _ Hc) as (pc' & Hpc' & Hrs & _).
  rewrite Hr, Hpc in Hpc'. injection Hpc' as <-.
  destruct (lookup_lt_is_Some_2 (streams s) (remoteStream c) (H2 _ _ Hc)) as [old Hold].
  exists c, old, (old ++ tracks). unfold ontrack. simpl. rewrite Hrs.
  split_and!; try done.
  - by rewrite list_lookup_alter_eq, Hold.
  - intros t. rewrite elem_of_app. tauto.
  - unfold getRemoteStreams. simpl. apply list_elem_of_filter. split.
    + rewrite length_app. destruct tracks; [done|]. simpl. lia.
    + apply list_elem_of_omap. exists c. split.
      * apply list_elem_of_fmap. exists (pc_participantId pc, c). split; [done|].
        by apply elem_of_map_to_list.
      * by rewrite list_lookup_alter_eq, Hold.
  - intros i Hi. by apply list_lookup_alter_ne.
Qed.

Lemma step_room ev s :
  Core s →
  match ev with
  | EvInitialize | EvLeave => True
  | EvParticipantWritten id data =>
      unsubscribe (step ev s) = unsubscribe s ∧
      room_participants (step ev s) = <[id := data]> (room_participants s)
  | EvParticipantDeleted id =>
      unsubscribe (step ev s) = unsubscribe s ∧
      room_participants (step ev s) = delete id (room_participants s)
  | _ =>
      unsubscribe (step ev s) = unsubscribe s ∧
      room_participants (step ev s) = room_participants s
  end.
Proof.
  intros HC.
  destruct ev as [| |id data|id|l docs|i ok|cd ok|r tracks|r cand|r st]; simpl; try done.
  - set (s1 := set_room_participants _ s).
    destruct (unsubscribe s) eqn:Hu; try done.
    destruct (decide (id ∈ dom (room_participants s))); simpl; [done|].
    destruct (decide (id ≠ currentUserId s)); [|done].
    destruct (handleParticipantJoined_same autoId browserOffer now id data s1)
      as (_ & _ & Hu' & _ & Hrp).
    by rewrite Hu', Hrp.
  - destruct (room_participants s !! id) as [data|] eqn:Hd.
    + set (s1 := set_room_participants _ s).
      destruct (unsubscribe s) eqn:Hu; try done.
      destruct (handleParticipantLeft_spec browserOffer now id s1) as (_ & (_ & _ & Hu' & _ & Hrp) & _).
      { by apply (Core_same s). }
      change (unsubscribe (Mesh.handleParticipantLeft id s1) = Active
              ∧ room_participants (Mesh.handleParticipantLeft id s1)
                = delete id (room_participants s)).
      by rewrite Hu', Hrp.
    + by rewrite delete_id.
  - by destruct (onAnswerSnapshot_frame l docs s) as ((_ & _ & Hu & _ & Hrp) & _).
  - destruct (pendingAnswers s !! i) as [w|]; [|done].
    destruct (open_pc s (pa_peerConnection w)); [|done].
    by destruct (onAnswerSettled_frame i ok s) as ((_ & _ & Hu & _ & Hrp) & _).
  - rewrite deliverCandidate_none by (by destruct HC). done.
  - by destruct (open_pc s r).
  - destruct (open_pc s r); [|done]. by destruct cand.
  - by destruct (open_pc s r).
Qed.

Lemma initialize_room s :
  Core s → connections s = ∅ →
  room_participants (initialize s)
    = room_participants (addParticipant autoId now (currentUserId s) s).
Proof.
  intros HC Hempty. unfold Mesh.initialize.
  set (s2 := set_unsubscribe Active _).
  destruct (joinAll_spec autoId browserOffer now (map_to_list (room_participants s2))
              (NoDup_fst_map_to_list _) s2) as (_ & (_ & _ & _ & _ & Hrp) & _).
  { by apply (Core_same s). }
  { intros id _. change (connections s2) with (connections s). by rewrite Hempty. }
  exact Hrp.
Qed.

(** X14.  When the room has no participant document under the user's own id,
    [initialize] stores the user's document under a generated id and --
    that id being another participant's, as far as the listener can tell --
    creates a connection for it.  As long as nobody writes a document under
    the user's id, [leave()] then never completes: its update of the user's
    own document raises, nothing is closed, and the listener stays
    active. *)
Theorem leave_never_completes_without_own_document me ls rp ro rc evs :
  rp !! me = None →
  autoId (dom rp) ≠ me →
  (∀ data, EvParticipantWritten me data ∉ evs) →
  let s0 := initialize (newManager me ls rp ro rc) in
  let s := run evs s0 in
  (room_participants s0
     = <[autoId (dom rp) := mkParticipantDoc me (Some now) true None]> rp ∧
   autoId (dom rp) ∈ dom (connections s0)) ∧
  room_participants s !! me = None ∧
  leave now s = None ∧
  step EvLeave s = s ∧
  unsubscribe s = Active.
Proof.
  intros Hnone Hfresh Hev s0 s. subst s s0.
  set (m := newManager me ls rp ro rc).
  destruct (newManager_Inv me ls rp ro rc) as [HC0 _ _]. fold m in HC0.
  destruct (initialize_spec autoId browserOffer now m HC0 eq_refl)
    as (HC & _ & Hu & Hme & Hdom & _).
  assert (Hroom : room_participants (initialize m)
                  = <[autoId (dom rp) := mkParticipantDoc me (Some now) true None]> rp).
  { rewrite initialize_room by done. simpl. by rewrite Hnone. }
  assert (HI : Inv (initialize m)).
  { constructor; [done| |by rewrite Hu]. intros _. by rewrite Hme. }
  split.
  { split; [done|]. rewrite Hdom, Hroom, dom_insert_L. simpl. set_solver. }
  assert (Hgen : ∀ s, Inv s → currentUserId s = me →
            room_participants s !! me = None → unsubscribe s = Active →
            (∀ data, EvParticipantWritten me data ∉ evs) →
            room_participants (run evs s) !! me = None ∧
            leave now (run evs s) = None ∧
            unsubscribe (run evs s) = Active).
  { clear. induction evs as [|ev evs IH]; intros s HI Hme Hrp Hu Hev.
    { simpl. split_and!; try done. unfold leave. by rewrite Hme, Hrp. }
    simpl. destruct (step_Inv autoId browserOffer now ev s HI) as (HI' & _ & Hme').
    assert (Hleave : leave now s = None) by (unfold leave; by rewrite Hme, Hrp).
    assert (room_participants (step ev s) !! me = None ∧
            unsubscribe (step ev s) = Active) as [Hrp' Hu'].
    { pose proof (step_room ev s (inv_core s HI)) as Hst.
      destruct ev as [| |id data|id|l docs|i ok|cd ok|r tracks|r cand|r st].
      - simpl. by rewrite Hu.
      - simpl. by rewrite Hleave.
      - destruct Hst as [-> ->]. split; [|done].
        rewrite lookup_insert_ne; [done|]. intros ->.
        apply (Hev data). set_solver.
      - destruct Hst as [-> ->]. split; [|done].
        destruct (decide (id = me)) as [->|Hne].
        + apply lookup_delete_eq.
        + by rewrite lookup_delete_ne.
      - by destruct Hst as [-> ->].
      - by destruct Hst as [-> ->].
      - by destruct Hst as [-> ->].
      - by destruct Hst as [-> ->].
      - by destruct Hst as [-> ->].
      - by destruct Hst as [-> ->]. }
    apply IH; try done; [congruence|].
    intros data Hin. apply (Hev data). set_solver. }
  destruct (Hgen (initialize m) HI) as (H1 & H2 & H3); try done.
  { rewrite Hroom, lookup_insert_ne; done. }
  split_and!; try done. simpl. by rewrite H2.
Qed.


(** X16.  A candidate gathered on an open peer connection is stored by
    [sendIceCandidate] as a new document of the room's candidates
    collection, tagged from the current user to the participant the
    connection was created for; the documents already there, the offers,
    the peer connections and the connections map are as before.  The event
    without a candidate, and an event of a closed connection, store
    nothing. *)
Theorem ice_candidate_is_stored_as_a_new_document s r pc c :
  open_pc s r = Some pc →
  autoId (dom (room_candidates s)) ∉ dom (room_candidates s) →
  let s' := step (EvIceCandidate r (Some c)) s in
  room_candidates s' !! autoId (dom (room_candidates s))
    = Some (mkCandidateDoc (currentUserId s) (pc_participantId pc) c now) ∧
  size (room_candidates s') = S (size (room_candidates s)) ∧
  (∀ k d, room_candidates s !! k = Some d → room_candidates s' !! k = Some d) ∧
  pcs s' = pcs s ∧ connections s' = connections s ∧
  room_offers s' = room_offers s ∧
  step (EvIceCandidate r None) s = s ∧
  (∀ r', open_pc s r' = None → step (EvIceCandidate r' (Some c)) s = s).
Proof.
  intros Hopen Hfresh. simpl. rewrite Hopen. simpl.
  apply not_elem_of_dom in Hfresh.
  split_and!; try done.
  - apply lookup_insert_eq.
  - by rewrite map_size_insert_None.
  - intros k d Hk. rewrite lookup_insert_ne; [done|]. congruence.
  - by intros r' ->.
Qed.

(** X17.  [handleParticipantJoined] always records the connection entry.
    When the browser produces an offer, the offer is set as the local
    description and stored -- over the document named after the two users
    when it exists, else under a generated id, the document of that name
    staying absent -- and the answer listener is registered; when
    [createOffer()] or [setLocalDescription] raises, no offer is stored and
    no listener is registered. *)
Theorem offer_is_stored_when_the_browser_produces_one s p d :
  let s' := handleParticipantJoined p d s in
  let key := currentUserId s +:+ "_" +:+ p in
  let generated := autoId (dom (room_offers s)) in
  match browserOffer (length (pcs s)) with
  | Some offer =>
      let doc := mkOfferDoc (currentUserId s) p offer now in
      (is_Some (room_offers s !! key) → room_offers s' = <[key := doc]> (room_offers s)) ∧
      (room_offers s !! key = None →
         room_offers s' = <[generated := doc]> (room_offers s) ∧
         (generated ≠ key → room_offers s' !! key = None)) ∧
      answerListeners s' = answerListeners s ++ [mkAnswerListener p true] ∧
      (localDescription <$> pcs s' !! length (pcs s)) = Some (Some offer)
  | None =>
      room_offers s' = room_offers s ∧
      answerListeners s' = answerListeners s ∧
      (localDescription <$> pcs s' !! length (pcs s)) = Some None
  end ∧
  connections s' !! p
    = Some (mkConnection p (length (pcs s)) (length (streams s)) false true).
Proof.
  simpl. unfold Mesh.handleParticipantJoined, Mesh.createOffer. simpl.
  rewrite lookup_insert_eq. simpl.
  destruct (browserOffer (length (pcs s))) as [offer|] eqn:Hoffer; simpl.
  - rewrite lookup_insert_eq, list_lookup_alter_eq, list_lookup_middle by done.
    unfold updateOrAdd. split_and!; try done.
    + by intros [o ->].
    + intros Hk. rewrite Hk. split; [done|]. intros Hne.
      by rewrite lookup_insert_ne.
  - rewrite lookup_insert_eq, list_lookup_middle by done. done.
Qed.

End Session.

(** *** The sample session again *)

(** The peer connection ["alice"] holds for ["bob"] in the sample session. *)
Definition bob_connection : RTCPeerConnection :=
  mkPC "bob" 0 false (Some "offer 0") None [] "new"
    [CallAddTrack "audio"; CallAddTrack "video"; CallSetLocalDescription "offer 0"].


Lemma received_tracks_reach_getRemoteStreams_witness :
  open_pc (run sample_autoId sample_browserOffer 3
             [EvInitialize; EvParticipantWritten "bob" bob_doc]
             (newManager "alice" ["audio"; "video"] {[ "alice" := alice_doc ]} ∅ ∅))
    0 = Some bob_connection ∧
  ["remote audio"] ≠ [] ∧
  ∃ new : MediaStream,
    new ∈ getRemoteStreams
            (step sample_autoId sample_browserOffer 3 (EvTrack 0 ["remote audio"])
               (run sample_autoId sample_browserOffer 3
                  [EvInitialize; EvParticipantWritten "bob" bob_doc]
                  (newManager "alice" ["audio"; "video"] {[ "alice" := alice_doc ]} ∅ ∅)))
    ∧ "remote audio" ∈ new.
Proof.
  assert (H1 : open_pc (run sample_autoId sample_browserOffer 3
                          [EvInitialize; EvParticipantWritten "bob" bob_doc]
                          (newManager "alice" ["audio"; "video"]
                             {[ "alice" := alice_doc ]} ∅ ∅))
                 0 = Some bob_connection) by (vm_compute; reflexivity).
  assert (H2 : ["remote audio"] ≠ @nil Track) by discriminate.
  split; [exact H1|]. split; [exact H2|].
  destruct (received_tracks_reach_getRemoteStreams sample_autoId sample_browserOffer 3
              "alice" ["audio"; "video"] {[ "alice" := alice_doc ]} ∅ ∅
              [EvInitialize; EvParticipantWritten "bob" bob_doc] 0 bob_connection
              ["remote audio"] H1 H2)
    as (c & old & new & _ & _ & _ & _ & Hin & Hlisted & _).
  exists new. split; [exact Hlisted|]. apply Hin. right. apply list_elem_of_here.
Defined.

Lemma leave_never_completes_without_own_document_witness :
  (∅ : gmap string ParticipantDoc) !! "alice" = None ∧
  sample_autoId (dom (∅ : gmap string ParticipantDoc)) ≠ "alice" ∧
  (∀ data, EvParticipantWritten "alice" data ∉ [EvParticipantWritten "bob" bob_doc]) ∧
  leave 3 (run sample_autoId sample_browserOffer 3
             [EvParticipantWritten "bob" bob_doc]
             (initialize sample_autoId sample_browserOffer 3
                (newManager "alice" ["audio"; "video"] ∅ ∅ ∅))) = None.
Proof.
  assert (H1 : (∅ : gmap string ParticipantDoc) !! "alice" = None) by reflexivity.
  assert (H2 : sample_autoId (dom (∅ : gmap string ParticipantDoc)) ≠ "alice")
    by (vm_compute; discriminate).
  assert (H3 : ∀ data, EvParticipantWritten "alice" data
                       ∉ [EvParticipantWritten "bob" bob_doc]).
  { intros data Hin. apply list_elem_of_singleton in Hin. discriminate. }
  split; [exact H1|]. split; [exact H2|]. split; [exact H3|].
  destruct (leave_never_completes_without_own_document sample_autoId
              sample_browserOffer 3 "alice" ["audio"; "video"] ∅ ∅ ∅
              [EvParticipantWritten "bob" bob_doc] H1 H2 H3)
    as (_ & _ & Hleave & _).
  exact Hleave.
Defined.


Lemma ice_candidate_is_stored_as_a_new_document_witness :
  open_pc sample_session 0 = Some bob_connection ∧
  (sample_autoId (dom (room_candidates sample_session))
     ∉ dom (room_candidates sample_session)) ∧
  room_candidates
    (step sample_autoId sample_browserOffer 3 (EvIceCandidate 0 (Some "candidate:1"))
       sample_session) !! sample_autoId (dom (room_candidates sample_session))
    = Some (mkCandidateDoc (currentUserId sample_session)
              (pc_participantId bob_connection) "candidate:1" 3).
Proof.
  assert (H1 : open_pc sample_session 0 = Some bob_connection)
    by (vm_compute; reflexivity).
  assert (Hrc : room_candidates sample_session = ∅) by (vm_compute; reflexivity).
  assert (H2 : sample_autoId (dom (room_candidates sample_session))
               ∉ dom (room_candidates sample_session)).
  { rewrite Hrc, dom_empty_L. apply not_elem_of_empty. }
  split; [exact H1|]. split; [exact H2|].
  destruct (ice_candidate_is_stored_as_a_new_document sample_autoId
              sample_browserOffer 3 sample_session 0 bob_connection "candidate:1" H1 H2) as (H & _).
  exact H.
Defined.

End MeshExtras.

(** ** Properties of the simple manager *)

Module SimpleFacts.
Import Mesh Simple SimpleManager MeshFacts.

Lemma addTracks_spec (tracks : list Track) : ∀ stream,
  let stream' := foldl (λ stream track, addTrack track stream) stream tracks in
  (∀ t, t ∈ stream' ↔ t ∈ stream ∨ t ∈ tracks) ∧
  (NoDup stream → NoDup stream') ∧
  stream `prefix_of` stream'.
Proof.
  induction tracks as [|t tracks IH]; intros stream; simpl.
  { split_and!; [set_solver|done|done]. }
  destruct (IH (addTrack t stream)) as (H1 & H2 & H3).
  unfold addTrack in *. destruct (decide (t ∈ stream)) as [Hin|Hnin].
  - split_and!; [|done|done]. intros t'. rewrite H1. set_solver.
  - split_and!.
    + intros t'. rewrite H1. set_solver.
    + intros Hnd. apply H2. apply NoDup_app. split_and!; [done|set_solver|].
      apply NoDup_singleton.
    + etrans; [|exact H3]. by apply prefix_app_r.
Qed.

(** X18.  [ontrack] of the simple manager pushes the remote stream of the
    connection onto [remoteStreams] at every event: after [n] events the
    stream is listed [n] more times.  The stream itself holds each track
    once, other streams are unchanged, and the callback set by
    [setOnStreamsChanged] is called once per event. *)
Theorem simple_ontrack_lists_the_stream_once_per_event
    pc (events : list (list Track)) s :
  let s' := foldl (λ s' tracks, ontrack pc tracks s') s events in
  getRemoteStreams s'
    = getRemoteStreams s ++ replicate (length events) (pc_remoteStream pc) ∧
  streamsChangedCalls s'
    = (if onStreamsChanged s then streamsChangedCalls s + length events
       else streamsChangedCalls s) ∧
  (∀ i (old : MediaStream), streams s !! i = Some old →
     ∃ new : MediaStream,
            streams s' !! i = Some new ∧ old `prefix_of` new ∧
            (NoDup old → NoDup new) ∧
            (i ≠ pc_remoteStream pc → new = old) ∧
            (i = pc_remoteStream pc →
             ∀ t, t ∈ new ↔ t ∈ old ∨ ∃ tracks, tracks ∈ events ∧ t ∈ tracks)) ∧
  connections s' = connections s ∧ pcs s' = pcs s ∧ participants s' = participants s.
Proof.
  revert s. induction events as [|tracks events IH]; intros s; simpl.
  { rewrite app_nil_r. split_and!; try done.
    - destruct (onStreamsChanged s); [|done]. by rewrite Nat.add_0_r.
    - intros i old Hi. exists old. split_and!; try done; set_solver. }
  destruct (IH (ontrack pc tracks s)) as (H1 & H2 & H3 & H4 & H5 & H6).
  unfold getRemoteStreams in *. split_and!; try done.
  - rewrite H1. simpl. by rewrite <-app_assoc.
  - rewrite H2. simpl. destruct (onStreamsChanged s); [lia|done].
  - intros i old Hi.
    destruct (addTracks_spec tracks old) as (Ha1 & Ha2 & Ha3).
    destruct (decide (i = pc_remoteStream pc)) as [->|Hne].
    + destruct (H3 (pc_remoteStream pc)
                  (foldl (λ stream track, addTrack track stream) old tracks))
        as (new & Hn & Hp & Hnd & _ & Hin).
      { simpl. by rewrite list_lookup_alter_eq, Hi. }
      exists new. split_and!; try done.
      * by etrans.
      * intros ?. by apply Hnd, Ha2.
      * intros _ t. rewrite (Hin eq_refl), Ha1. split.
        -- intros [[?|?]|(tr & ? & ?)]; [by left|right..].
           ++ exists tracks. split; [by left|done].
           ++ exists tr. split; [by right|done].
        -- intros [?|(tr & [->|?]%elem_of_cons & ?)]; [by left; left|by left; right|].
           right. by exists tr.
    + destruct (H3 i old) as (new & Hn & Hp & Hnd & Heq & _).
      { simpl. by rewrite list_lookup_alter_ne. }
      exists new. split_and!; try done.
Qed.

(** X19.  When a participant of the simple manager leaves after tracks of it
    were received, the connection is closed and removed, but its remote
    stream stays listed by [getRemoteStreams()]: [handleParticipantLeft]
    drops only the streams without tracks. *)
Theorem simple_left_participant_stream_stays_listed q r pc tracks (old : MediaStream) t :
  connections t !! q = Some r →
  pcs t !! r = Some pc →
  streams t !! pc_remoteStream pc = Some old →
  tracks ≠ [] →
  let t1 := ontrack pc tracks t in
  let t2 := Simple.handleParticipantLeft q t1 in
  connections t2 !! q = None ∧
  participants t2 !! q = None ∧
  (pc_closed <$> pcs t2 !! r) = Some true ∧
  pc_remoteStream pc ∈ getRemoteStreams t2 ∧
  (∀ stream, stream ∈ getRemoteStreams t1 →
             hasTracks (streams t1) stream = true →
             stream ∈ getRemoteStreams t2) ∧
  streams t2 = streams t1.
Proof.
  intros Hq Hr Hold Htr. simpl.
  unfold Simple.handleParticipantLeft, getRemoteStreams. simpl. rewrite Hq. simpl.
  rewrite !lookup_delete_eq, list_lookup_alter_eq, Hr. simpl.
  split_and!; try done.
  - apply list_elem_of_filter. split; [|set_solver].
    unfold hasTracks, MediaStream in *. rewrite list_lookup_alter_eq, Hold. simpl.
    apply Is_true_true, bool_decide_eq_true.
    destruct tracks as [|tr tracks]; [done|].
    destruct (addTracks_spec (tr :: tracks) old) as (H1 & _).
    assert (∀ new : list Track, tr ∈ new → 0 < length new) as Hpos.
    { intros [|? ?] Hin; [by apply elem_of_nil in Hin|simpl; lia]. }
    apply Hpos, H1. set_solver.
  - intros stream Hin Hhas. apply list_elem_of_filter. split; [|done].
    by apply Is_true_true.
Qed.

(** X20.  [cleanup()] of the simple manager closes every peer connection held
    in the connections map and no other, empties the connections, the
    participants and the remote streams -- the participant count is 0 --,
    and cancels the participants listener when one was registered. *)
Theorem simple_cleanup_closes_and_clears s unsubscribe :
  let s' := (cleanup s unsubscribe).1 in
  (∀ p r pc, connections s !! p = Some r → pcs s !! r = Some pc →
             ∃ pc', pcs s' !! r = Some pc' ∧ pc_closed pc' = true ∧
                    pc_participantId pc' = pc_participantId pc) ∧
  (∀ r, (∀ p, connections s !! p ≠ Some r) → pcs s' !! r = pcs s !! r) ∧
  connections s' = ∅ ∧ participants s' = ∅ ∧
  getRemoteStreams s' = [] ∧ getParticipantCount s' = 0 ∧
  streamsChangedCalls s' = streamsChangedCalls s ∧
  streams s' = streams s ∧
  ((cleanup s unsubscribe).2 = Active → False) ∧
  (unsubscribe = Active → (cleanup s unsubscribe).2 = Cancelled).
Proof.
  simpl. fold (closeAll (map_to_list (connections s)).*2 (pcs s)).
  split_and!; try done.
  - intros p r pc Hp Hr.
    pose proof (closeAll_link (map_to_list (connections s)).*2 (pcs s) r) as H.
    rewrite !list_lookup_fmap, Hr in H. simpl in H.
    rewrite bool_decide_eq_true_2 in H.
    2:{ apply list_elem_of_fmap. exists (p, r). split; [done|].
        by apply elem_of_map_to_list. }
    destruct (closeAll _ _ !! r) as [pc'|]; [|done].
    injection H as Hid Hcl. by exists pc'.
  - intros r Hr. apply closeAll_notin.
    intros ([p r'] & -> & Hin%elem_of_map_to_list)%list_elem_of_fmap.
    by apply (Hr p).
  - by destruct unsubscribe.
  - by intros ->.
Qed.

(** *** A sample manager: ["alice"] connected to ["bob"] *)

Definition simple_bob_connection : RTCPeerConnection :=
  mkPC "bob" 0 false None None [] "new" [CallAddTrack "audio"].

Definition simple_sample : Simple.Session :=
  Simple.mkSession "alice" ["audio"] {[ "bob" := 0 ]} []
    {[ "bob" := mkParticipantDoc "bob" (Some 2) true None ]} true 0
    [simple_bob_connection] [[]].

Lemma simple_left_participant_stream_stays_listed_witness :
  Simple.connections simple_sample !! "bob" = Some 0 ∧
  Simple.pcs simple_sample !! 0 = Some simple_bob_connection ∧
  Simple.streams simple_sample !! pc_remoteStream simple_bob_connection = Some [] ∧
  ["remote audio"] ≠ [] ∧
  Simple.connections
    (Simple.handleParticipantLeft "bob"
       (ontrack simple_bob_connection ["remote audio"] simple_sample)) !! "bob" = None ∧
  pc_remoteStream simple_bob_connection
    ∈ getRemoteStreams
        (Simple.handleParticipantLeft "bob"
           (ontrack simple_bob_connection ["remote audio"] simple_sample)).
Proof.
  assert (H1 : Simple.connections simple_sample !! "bob" = Some 0) by reflexivity.
  assert (H2 : Simple.pcs simple_sample !! 0 = Some simple_bob_connection)
    by reflexivity.
  assert (H3 : Simple.streams simple_sample !! pc_remoteStream simple_bob_connection
               = Some []) by reflexivity.
  assert (H4 : ["remote audio"] ≠ @nil Track) by discriminate.
  split; [exact H1|]. split; [exact H2|]. split; [exact H3|]. split; [exact H4|].
  destruct (simple_left_participant_stream_stays_listed "bob" 0 simple_bob_connection
              ["remote audio"] [] simple_sample H1 H2 H3 H4)
    as (Hgone & _ & _ & Hlisted & _).
  split; [exact Hgone|exact Hlisted].
Defined.

End SimpleFacts.

(** ** Properties of the list of live participants *)

Module LiveParticipantsFacts.
Import JS LiveParticipants.




End LiveParticipantsFacts.

(** ** Properties of the meeting page *)

Module MeetingPageFacts.
Import JS MeetingPage.

Open Scope Z_scope.

(** X22.  For a meeting whose start is not after its end, the page finds it
    in exactly one phase: in progress from the start to the end inclusive,
    upcoming before, past after; the badge says so, and the join button is
    never rendered for a past meeting. *)
Theorem meeting_is_in_exactly_one_phase user m now s e :
  startDateTime m = Some s →
  endDateTime m = Some e →
  s ≤ e →
  let active := isMeetingActive (Some m) now in
  let upcoming := isMeetingUpcoming (Some m) now in
  let past := isMeetingPast (Some m) now in
  (active = true ↔ s ≤ now ≤ e) ∧
  (upcoming = true ↔ now < s) ∧
  (past = true ↔ e < now) ∧
  ((active = true ∧ upcoming = false ∧ past = false ∧ badge (Some m) now = "In Progress") ∨
   (active = false ∧ upcoming = true ∧ past = false ∧ badge (Some m) now = "Upcoming") ∨
   (active = false ∧ upcoming = false ∧ past = true ∧ badge (Some m) now = "Completed" ∧
    joinButton user (Some m) now = false)).
Proof.
  intros Hs He Hle. simpl.
  unfold joinButton, badge, isMeetingActive, isMeetingUpcoming, isMeetingPast,
    startTime, endTime. simpl. rewrite Hs, He. simpl.
  destruct (Z.leb_spec s now), (Z.leb_spec now e), (Z.ltb_spec now s),
    (Z.ltb_spec e now); simpl; try lia; rewrite ?andb_false_r;
    (split_and!; [split; (done || lia)..|]); auto 10.
Qed.

Lemma meeting_is_in_exactly_one_phase_witness :
  startDateTime (mkMeetingData (Some 100) (Some 200) (Some ["a@x.org"]) (Some "u1"))
    = Some 100 ∧
  endDateTime (mkMeetingData (Some 100) (Some 200) (Some ["a@x.org"]) (Some "u1"))
    = Some 200 ∧
  100 ≤ 200 ∧
  (isMeetingActive
     (Some (mkMeetingData (Some 100) (Some 200) (Some ["a@x.org"]) (Some "u1"))) 150
   = true ↔ 100 ≤ 150 ≤ 200).
Proof.
  assert (H3 : 100 ≤ 200) by lia.
  split; [reflexivity|]. split; [reflexivity|]. split; [exact H3|].
  destruct (meeting_is_in_exactly_one_phase None
              (mkMeetingData (Some 100) (Some 200) (Some ["a@x.org"]) (Some "u1"))
              150 100 200 eq_refl eq_refl H3) as (H & _).
  exact H.
Defined.

End MeetingPageFacts.

(** ** More on the call-join flow *)

Module VirtualSpaceExtras.
Import JS Firestore VirtualSpace VirtualSpaceFacts.

Definition mediaNotReady : Toast :=
  mkToast true "Media not ready" "Please ensure camera and microphone are enabled".

Lemma startOrJoinCall_step spaceId roomId rs meshResolves simpleResolves c :
  let c' := startOrJoinCall (meshOutcome meshResolves spaceId roomId)
              (simpleOutcome simpleResolves spaceId roomId rs) c in
  localStream c' = localStream c ∧ user c' = user c ∧
  isInCall c' = isInCall c ∧ remoteStreams c' = remoteStreams c ∧
  intervals c' = intervals c ∧
  match localStream c, user c with
  | Some _, Some _ =>
    toasts c' = toasts c ++ [callFailed] ∧
    constructions c' = constructions c ++ [MeshImplementation; SimpleImplementation] ∧
    meshHandlesRef c'
      = (if meshResolves then Some (MeshRoomHandles spaceId roomId)
         else meshHandlesRef c) ∧
    simpleHandlesRef c'
      = (if simpleResolves then Some (SimpleRoomHandles spaceId roomId rs)
         else simpleHandlesRef c)
  | _, _ =>
    toasts c' = toasts c ++ [mediaNotReady] ∧
    constructions c' = constructions c ∧
    meshHandlesRef c' = meshHandlesRef c ∧
    simpleHandlesRef c' = simpleHandlesRef c
  end.
Proof.
  destruct c as [ls u ? ? ? ? ? ? ?].
  destruct ls, u, meshResolves, simpleResolves; cbv zeta; cbn [VirtualSpace.localStream VirtualSpace.user];
    split_and!; try reflexivity;
    change [MeshImplementation; SimpleImplementation]
      with ([MeshImplementation] ++ [SimpleImplementation]);
    rewrite app_assoc; reflexivity.
Qed.

(** X23.  With the local stream and the user present, [n] attempts of
    [startOrJoinCall] show [n] "Call failed" toasts and construct both rooms
    [n] times, never setting [isInCall], a remote stream or the polling
    interval, while the handles of each room that was constructed are kept
    in their refs. *)
Theorem every_call_attempt_fails
    n spaceId roomId rs meshResolves simpleResolves c :
  is_Some (localStream c) →
  is_Some (user c) →
  let c' := Nat.iter n (startOrJoinCall (meshOutcome meshResolves spaceId roomId)
                          (simpleOutcome simpleResolves spaceId roomId rs)) c in
  toasts c' = toasts c ++ replicate n callFailed ∧
  constructions c'
    = constructions c
        ++ mjoin (replicate n [MeshImplementation; SimpleImplementation]) ∧
  isInCall c' = isInCall c ∧
  remoteStreams c' = remoteStreams c ∧
  intervals c' = intervals c ∧
  ((0 < n)%nat → meshResolves = true →
   meshHandlesRef c' = Some (MeshRoomHandles spaceId roomId)) ∧
  ((0 < n)%nat → simpleResolves = true →
   simpleHandlesRef c' = Some (SimpleRoomHandles spaceId roomId rs)).
Proof.
  intros Hl Hu. simpl.
  induction n as [|n IH]; simpl.
  { rewrite !app_nil_r. split_and!; try done; lia. }
  destruct IH as (H1 & H2 & H3 & H4 & H5 & _).
  set (c1 := Nat.iter n _ c) in *.
  destruct (startOrJoinCall_step spaceId roomId rs meshResolves simpleResolves c1)
    as (Hl1 & Hu1 & G3 & G4 & G5 & G6).
  assert (Hready : is_Some (localStream c1) ∧ is_Some (user c1)).
  { clear -Hl Hu. subst c1. induction n as [|n IH]; simpl; [done|].
    destruct (startOrJoinCall_step spaceId roomId rs meshResolves simpleResolves
                (Nat.iter n (startOrJoinCall (meshOutcome meshResolves spaceId roomId)
                               (simpleOutcome simpleResolves spaceId roomId rs)) c))
      as (-> & -> & _). done. }
  destruct Hready as [[? Hr1] [? Hr2]]. rewrite Hr1, Hr2 in G6.
  destruct G6 as (G6 & G7 & G8 & G9).
  rewrite G3, G4, G5, G6, G7, G8, G9, H1, H2, H3, H4, H5.
  split_and!; try done.
  - rewrite <-app_assoc. f_equal.
    change (replicate n callFailed ++ [callFailed])
      with (replicate n callFailed ++ replicate 1 callFailed).
    by rewrite <-replicate_add, Nat.add_1_r.
  - rewrite <-app_assoc. f_equal.
    change (mjoin (replicate n [MeshImplementation; SimpleImplementation])
              ++ [MeshImplementation; SimpleImplementation])
      with (mjoin (replicate n [MeshImplementation; SimpleImplementation])
              ++ mjoin (replicate 1 [MeshImplementation; SimpleImplementation])).
    by rewrite <-join_app, <-replicate_add, Nat.add_1_r.
  - by intros _ ->.
  - by intros _ ->.
Qed.

Lemma every_call_attempt_fails_witness :
  is_Some (localStream (readyComponent ["audio"] "alice")) ∧
  is_Some (user (readyComponent ["audio"] "alice")) ∧
  toasts (Nat.iter 3 (startOrJoinCall (meshOutcome true "space" "room")
                        (simpleOutcome false "space" "room" []))
            (readyComponent ["audio"] "alice"))
    = toasts (readyComponent ["audio"] "alice") ++ replicate 3 callFailed.
Proof.
  assert (H1 : is_Some (localStream (readyComponent ["audio"] "alice")))
    by (eexists; reflexivity).
  assert (H2 : is_Some (user (readyComponent ["audio"] "alice")))
    by (eexists; reflexivity).
  split; [exact H1|]. split; [exact H2|].
  destruct (every_call_attempt_fails 3 "space" "room" [] true false
              (readyComponent ["audio"] "alice") H1 H2) as (H & _).
  exact H.
Defined.

End VirtualSpaceExtras.
